(** * Staff dashboards: reconciliation and derived-metrics core

    A shallow embedding of the computational core of the Shiny dashboards
    [mutlicouncil-staff/app.py], [mywcc-staff/app.py] and
    [myhcc-staff/app.py], with the properties of that core that the
    design document states.

    Conventions of the embedding.
    - A pandas column value that may be missing (NaN) is an [option].
    - A [DataFrame] is a [frame]: either [NoColumns] (the value of
      [pd.DataFrame()]) or [Frame rows], the rows in index order.
    - A Python [dict] is an association list in insertion order.
    - Integer counts are [Z]; a numpy float64 result is an [npfloat]: an
      exact rational, or one of the IEEE specials that numpy produces
      when it divides by zero.  Rounding of finite results is not
      modelled.
    - Where a logarithm enters (the Shannon index), float64 arithmetic
      is read as arithmetic on the real numbers.
    - A Python exception is a value [Raise e] of type [result]. *)

From Stdlib Require Import List ZArith QArith Qreduction Bool Lia.
From Stdlib Require Import Ascii String OrderedTypeEx.
From Stdlib Require Import Permutation Sorted.
From Stdlib Require Import Reals Lra.
Import ListNotations.

(** ** Python, numpy and pandas primitives used by the dashboards *)
Module Py.

Open Scope Z_scope.

(** *** Exceptions *)

Inductive exn : Type :=
| KeyError (column : string)
| AttributeError
| FileNotFoundError
| ValueError.

Inductive result (A : Type) : Type :=
| Ok (a : A)
| Raise (e : exn).
Arguments Ok {A} a.
Arguments Raise {A} e.

Definition bind {A B : Type} (m : result A) (k : A -> result B) : result B :=
  match m with
  | Ok a => k a
  | Raise e => Raise e
  end.

Notation "x <- c1 ;; c2" := (bind c1 (fun x => c2))
  (at level 61, c1 at next level, right associativity).

(** [Series.apply f]: the calls are made in index order and the first
    exception aborts the whole column. *)
Fixpoint mapM {A B : Type} (f : A -> result B) (l : list A) : result (list B) :=
  match l with
  | [] => Ok []
  | x :: l' =>
      bind (f x) (fun y => bind (mapM f l') (fun ys => Ok (y :: ys)))
  end.

(** *** Data frames *)

Inductive frame (R : Type) : Type :=
| NoColumns
| Frame (rows : list R).
Arguments NoColumns {R}.
Arguments Frame {R} rows.

Definition rows_of {R : Type} (df : frame R) : list R :=
  match df with
  | NoColumns => []
  | Frame rows => rows
  end.

(** [df.empty] *)
Definition empty {R : Type} (df : frame R) : bool :=
  match rows_of df with
  | [] => true
  | _ :: _ => false
  end.

Definition map_frame {R R' : Type} (f : R -> R') (df : frame R) : frame R' :=
  match df with
  | NoColumns => NoColumns
  | Frame rows => Frame (map f rows)
  end.

(** *** merge *)

(** [left.merge(right, on=key, how='left')] on the rows: every left row
    once for each right row with its key, in the right frame's order,
    and once with missing values when there is none. *)
Definition merge_left {L R : Type} (on : L -> R -> bool)
    (left : list L) (right : list R) : list (L * option R) :=
  flat_map (fun l => match filter (on l) right with
                     | [] => [(l, None)]
                     | matches => map (fun r => (l, Some r)) matches
                     end)
           left.

(** [left.merge(right, on=key)], the default [how='inner']: the left
    rows without a partner are dropped. *)
Definition merge_inner {L R : Type} (on : L -> R -> bool)
    (left : list L) (right : list R) : list (L * R) :=
  flat_map (fun l => map (fun r => (l, r)) (filter (on l) right)) left.

(** On frames: the key must be a column of both, which it is not in a
    [pd.DataFrame()]. *)
Definition frame_merge_left {L R : Type} (key : string) (on : L -> R -> bool)
    (left : frame L) (right : frame R) : result (frame (L * option R)) :=
  match left, right with
  | Frame l, Frame r => Ok (Frame (merge_left on l r))
  | _, _ => Raise (KeyError key)
  end.

Definition frame_merge_inner {L R : Type} (key : string) (on : L -> R -> bool)
    (left : frame L) (right : frame R) : result (frame (L * R)) :=
  match left, right with
  | Frame l, Frame r => Ok (Frame (merge_inner on l r))
  | _, _ => Raise (KeyError key)
  end.

(** *** The global random generator of numpy

    Its state is the stream of raw draws still to come; each call
    consumes one. *)

Definition rng : Type := nat -> Z.

Definition advance (g : rng) : rng := fun i => g (S i).

(** [np.random.randint(low, high)]: an integer of [[low, high)]. *)
Definition randint (low high : Z) (g : rng) : Z * rng :=
  (low + g O mod (high - low), advance g).

(** [df.sample(1).iloc[0]] on a frame with the rows [first :: others]. *)
Definition sample_row {R : Type} (first : R) (others : list R) (g : rng) : R * rng :=
  (nth (Z.to_nat (g O mod Z.of_nat (List.length (first :: others))))
       (first :: others) first,
   advance g).

(** *** numpy floats *)

Inductive npfloat : Type :=
| Fin (q : Q)
| PInf
| NInf
| NaN.

(** [a / b] on numpy integers: true division; a zero divisor gives
    [nan] or a signed infinity (with a RuntimeWarning), never an
    exception.  Finite quotients are kept in lowest terms. *)
Definition np_div (a b : Z) : npfloat :=
  if b =? 0 then
    if a =? 0 then NaN else if 0 <? a then PInf else NInf
  else Fin (Qred (inject_Z a / inject_Z b)).

(** [x - q] for a finite float [q]. *)
Definition np_sub (x : npfloat) (q : Q) : npfloat :=
  match x with
  | Fin p => Fin (Qred (p - q))
  | PInf => PInf
  | NInf => NInf
  | NaN => NaN
  end.

(** *** Sequences of integers *)

(** The sums of pandas ([sum], [cumsum], [groupby(...).sum()]) are
    taken on exact integers, without the wrap-around of their int64
    values; the scalar arithmetic of [calculate_gini] is followed
    through [int64] below. *)
Definition sum (l : list Z) : Z := fold_left Z.add l 0.

(** [np.cumsum] *)
Fixpoint cumsum_from (acc : Z) (l : list Z) : list Z :=
  match l with
  | [] => []
  | x :: l' => (acc + x) :: cumsum_from (acc + x) l'
  end.

Definition cumsum (l : list Z) : list Z := cumsum_from 0 l.

(** numpy's [int64]: the integers of [[-2^63, 2^63)].  Sums and
    products of such scalars and arrays wrap around (the scalars with a
    RuntimeWarning), they do not raise. *)
Definition int64 (z : Z) : Z := (z + 2 ^ 63) mod 2 ^ 64 - 2 ^ 63.

Definition int64_add (a b : Z) : Z := int64 (a + b).

Definition int64_mul (a b : Z) : Z := int64 (a * b).

(** The sum of numpy scalars, taken one after the other from 0. *)
Definition int64_sum (l : list Z) : Z := fold_left int64_add l 0.

(** [np.cumsum] on int64 values. *)
Fixpoint int64_cumsum_from (acc : Z) (l : list Z) : list Z :=
  match l with
  | [] => []
  | x :: l' => int64_add acc x :: int64_cumsum_from (int64_add acc x) l'
  end.

Definition int64_cumsum (l : list Z) : list Z := int64_cumsum_from 0 l.

(** A stable sort: an element goes before the first one it is [leb] to. *)
Fixpoint insert_by {A : Type} (leb : A -> A -> bool) (x : A) (l : list A) : list A :=
  match l with
  | [] => [x]
  | y :: l' => if leb x y then x :: l else y :: insert_by leb x l'
  end.

Fixpoint sort_by {A : Type} (leb : A -> A -> bool) (l : list A) : list A :=
  match l with
  | [] => []
  | x :: l' => insert_by leb x (sort_by leb l')
  end.

(** [sorted(values)] and [Series.sort_values()] on integers: the
    ascending rearrangement, which is unique for integers. *)
Definition sorted (l : list Z) : list Z := sort_by Z.leb l.

(** *** Strings (characters are Latin-1 code points) *)

Definition is_upper (c : ascii) : bool :=
  let n := nat_of_ascii c in
  ((65 <=? n) && (n <=? 90)
   || (192 <=? n) && (n <=? 222) && negb (n =? 215))%nat.

Definition lower_char (c : ascii) : ascii :=
  if is_upper c then ascii_of_nat (nat_of_ascii c + 32) else c.

(** [str.lower()] *)
Fixpoint lower (s : string) : string :=
  match s with
  | EmptyString => EmptyString
  | String c s' => String (lower_char c) (lower s')
  end.

(** [str.isspace()] on one character. *)
Definition is_space (c : ascii) : bool :=
  let n := nat_of_ascii c in
  ((9 <=? n) && (n <=? 13) || (28 <=? n) && (n <=? 32)
   || (n =? 133) || (n =? 160))%nat.

Fixpoint lstrip (s : string) : string :=
  match s with
  | EmptyString => EmptyString
  | String c s' => if is_space c then lstrip s' else s
  end.

Fixpoint rstrip (s : string) : string :=
  match s with
  | EmptyString => EmptyString
  | String c s' =>
      match rstrip s' with
      | EmptyString => if is_space c then EmptyString else String c EmptyString
      | t => String c t
      end
  end.

(** [str.strip()] *)
Definition strip (s : string) : string := rstrip (lstrip s).

(** [sub in s] *)
Fixpoint contains (sub s : string) : bool :=
  prefix sub s
  || match s with
     | EmptyString => false
     | String _ s' => contains sub s'
     end.

(** *** difflib

    [SequenceMatcher(None, a, b).ratio()] for strings on which the
    automatic junk heuristic is idle, that is for [b] shorter than 200
    characters. *)

Fixpoint common_prefix (a b : string) : nat :=
  match a, b with
  | String x a', String y b' =>
      if Ascii.eqb x y then S (common_prefix a' b') else O
  | _, _ => O
  end.

Definition take (n : nat) (s : string) : string := substring 0 n s.

Definition drop (n : nat) (s : string) : string :=
  substring n (String.length s - n) s.

(** [find_longest_match]: [(i, j, k)] with [a[i:i+k] == b[j:j+k]] and
    [k] greatest; of those blocks the one that starts earliest in [a],
    and of those the one that starts earliest in [b]. *)
Definition find_longest_match (a b : string) : nat * nat * nat :=
  fold_left
    (fun best i =>
       fold_left
         (fun best j =>
            let k := common_prefix (drop i a) (drop j b) in
            if (snd best <? k)%nat then (i, j, k) else best)
         (seq 0 (String.length b)) best)
    (seq 0 (String.length a)) (O, O, O).

(** The total size of [get_matching_blocks()]: the longest block, then
    the same to its left and to its right. *)
Fixpoint matching_size (fuel : nat) (a b : string) : nat :=
  match fuel with
  | O => O
  | S fuel' =>
      let '(i, j, k) := find_longest_match a b in
      if (k =? 0)%nat then O
      else (k + matching_size fuel' (take i a) (take j b)
            + matching_size fuel' (drop (i + k) a) (drop (j + k) b))%nat
  end.

Definition SequenceMatcher_ratio (a b : string) : Q :=
  let length := (String.length a + String.length b)%nat in
  if (length =? 0)%nat then 1%Q
  else Qred (inject_Z (2 * Z.of_nat (matching_size (S (String.length a)) a b))
             / inject_Z (Z.of_nat length)).

(** [x > y] on floats. *)
Definition Qgtb (x y : Q) : bool := negb (Qle_bool x y).

(** *** Dictionaries: association lists in insertion order *)

Definition dict (V : Type) : Type := list (string * V).

Fixpoint dict_get {V : Type} (d : dict V) (k : string) : option V :=
  match d with
  | [] => None
  | (k', v) :: d' => if String.eqb k k' then Some v else dict_get d' k
  end.

(** [d.get(k, default)] *)
Definition dict_get_default {V : Type} (d : dict V) (k : string) (default : V) : V :=
  match dict_get d k with
  | Some v => v
  | None => default
  end.

(** [d[k] = v]: an existing key keeps its place and takes the new value,
    a new key goes to the end. *)
Fixpoint dict_set {V : Type} (d : dict V) (k : string) (v : V) : dict V :=
  match d with
  | [] => [(k, v)]
  | (k', v') :: d' =>
      if String.eqb k k' then (k', v) :: d' else (k', v') :: dict_set d' k v
  end.

Definition keys {V : Type} (d : dict V) : list string := map fst d.
Definition values {V : Type} (d : dict V) : list V := map snd d.

(** [x in xs] for a collection of strings. *)
Definition mem (x : string) (xs : list string) : bool :=
  existsb (String.eqb x) xs.

(** *** Columns with missing values *)

(** [column == s], elementwise: a missing value equals nothing. *)
Definition col_eq (v : option string) (s : string) : bool :=
  match v with
  | Some x => String.eqb x s
  | None => false
  end.

(** [column != s], elementwise: a missing value differs from everything. *)
Definition col_ne (v : option string) (s : string) : bool := negb (col_eq v s).

(** [column.str.strip()]: a missing value stays missing. *)
Definition str_strip (v : option string) : option string := option_map strip v.

(** [column.fillna(s)] *)
Definition fillna (s : string) (v : option string) : option string :=
  match v with
  | Some x => Some x
  | None => Some s
  end.

(** The non-missing values of a column. *)
Definition dropna (column : list (option string)) : list string :=
  flat_map (fun v => match v with Some x => [x] | None => [] end) column.

(** [Series.nunique()]: the number of distinct non-missing values. *)
Definition nunique (column : list (option string)) : nat :=
  List.length (nodup string_dec (dropna column)).

(** [column.str]: the accessor exists on a column of text.  A column
    of a file with rows in which every field is empty is read as
    floats, and has none. *)
Definition str_accessor (column : list (option string))
  : result (list (option string)) :=
  match column with
  | [] => Ok []
  | _ :: _ =>
      if forallb (fun v => match v with Some _ => false | None => true end) column
      then Raise AttributeError
      else Ok column
  end.

(** *** groupby *)

(** The group keys of [groupby(column)]: the distinct non-missing values,
    in ascending order ([sort=True], [dropna=True]). *)
Definition group_keys (column : list (option string)) : list string :=
  sort_by String.leb (nodup string_dec (dropna column)).

(** [groupby(key)[value].sum()] on the rows [(key, value)]: one entry per
    group key, holding the sum over the rows with that key. *)
Definition groupby_sum (rows : list (option string * Z)) : dict Z :=
  map (fun k => (k, sum (map snd (filter (fun r => col_eq (fst r) k) rows))))
      (group_keys (map fst rows)).

(** [groupby(key).size()] *)
Definition groupby_size (column : list (option string)) : dict Z :=
  groupby_sum (map (fun k => (k, 1)) column).

(** [Series.unique()] on the non-missing values: the distinct values in
    the order of their first appearance. *)
Fixpoint unique (l : list string) : list string :=
  match l with
  | [] => []
  | x :: l' => x :: filter (fun y => negb (String.eqb y x)) (unique l')
  end.

(** [Series.value_counts()] on a column of text: the distinct
    non-missing values with their number of occurrences, by falling
    count; equal counts stay in the order of first appearance. *)
Definition value_counts (column : list (option string)) : dict Z :=
  sort_by (fun a b => snd b <=? snd a)
    (map (fun k => (k, Z.of_nat (List.length (filter (fun v => col_eq v k) column))))
         (unique (dropna column))).

(** [counts.value_counts().sort_index()] on a column of integers: the
    distinct values in ascending order, each with the number of its
    occurrences. *)
Definition value_counts_sort_index (column : list Z) : list (Z * Z) :=
  map (fun v => (v, Z.of_nat (count_occ Z.eq_dec column v)))
      (sorted (nodup Z.eq_dec column)).

End Py.

(** ** The WCC star schema: the five CSV tables *)
Module Tables.

Record assignment : Type := {
  UnitID : Z;
  TitleID : Z;
  LocationID : Z;
  StaffCount : Z
}.

Record business_unit : Type := {
  bu_UnitID : Z;
  UnitName : string;
  GroupID : Z
}.

Record business_group : Type := {
  bg_GroupID : Z;
  GroupName : string
}.

Record job_title : Type := {
  jt_TitleID : Z;
  JobTitle : string
}.

Record pay_location : Type := {
  pl_LocationID : Z;
  LocationName : string
}.

(** A fact row after the joins with units, groups and titles; [None]
    stands for the missing values a left join leaves. *)
Record joined : Type := {
  fact : assignment;
  unit : option business_unit;
  group : option business_group;
  title : option job_title
}.

(** The join conditions, one per key column. *)
Definition on_UnitID (a : assignment) (u : business_unit) : bool :=
  (UnitID a =? bu_UnitID u)%Z.

Definition on_GroupID (u : option business_unit) (g : business_group) : bool :=
  match u with
  | Some u => (GroupID u =? bg_GroupID g)%Z
  | None => false
  end.

Definition on_TitleID (a : assignment) (t : job_title) : bool :=
  (TitleID a =? jt_TitleID t)%Z.

Definition on_LocationID (a : assignment) (l : pay_location) : bool :=
  (LocationID a =? pl_LocationID l)%Z.

End Tables.

(** ** The multi-council dashboard, [mutlicouncil-staff/app.py] *)
Module MultiCouncil.
Import Py.

Open Scope Z_scope.
Open Scope string_scope.

(** HCC group -> WCC group.  The fourth key ends in a space. *)
Definition GROUP_MAPPINGS : dict string :=
  [ ("Economy & Development", "Economic & Engagement");
    ("Environment & Sustainability", "Planning & Environment");
    ("Neighbourhoods & Communities", "Customer & Community");
    ("Neighbourhoods & Communities ", "Customer & Community");
    ("Office of the Chief Executive", "Chief Executives Office");
    ("Strategy & Engagement", "Strategy & Finance") ].

(** [{v: k for k, v in d.items()}] *)
Definition invert (d : dict string) : dict string :=
  fold_left (fun acc kv => dict_set acc (snd kv) (fst kv)) d [].

Definition REVERSE_GROUP_MAPPINGS : dict string := invert GROUP_MAPPINGS.

(** [any(word in title_lower for word in words)] *)
Definition any_word_in (words : list string) (title_lower : string) : bool :=
  existsb (fun word => contains word title_lower) words.

(** [categorize_job_title], as [Series.apply] calls it on a column with
    missing values.  A missing title is the float [nan]: it is truthy,
    so [not title] is false and [title.lower()] raises. *)
Definition categorize_job_title (title : option string) : result string :=
  match title with
  | None => Raise AttributeError
  | Some t =>
      if String.eqb t "" then Ok "Other"
      else
        let title_lower := lower t in
        if any_word_in ["manager"; "head"; "director"; "chief"; "leader"; "supervisor"] title_lower
        then Ok "Management"
        else if any_word_in ["analyst"; "specialist"; "advisor"; "consultant"; "planner"] title_lower
        then Ok "Professional"
        else if any_word_in ["engineer"; "technician"; "developer"; "architect"] title_lower
        then Ok "Technical"
        else if any_word_in ["officer"; "coordinator"; "administrator"; "assistant"] title_lower
        then Ok "Administrative"
        else if any_word_in ["operator"; "driver"; "cleaner"; "maintenance"] title_lower
        then Ok "Operational"
        else Ok "Other"
  end.

Definition get_job_level (title : option string) : result string :=
  match title with
  | None => Raise AttributeError
  | Some t =>
      if String.eqb t "" then Ok "Unknown"
      else
        let title_lower := lower t in
        if any_word_in ["chief"; "director"; "head of"] title_lower
        then Ok "Executive"
        else if any_word_in ["manager"; "team leader"; "supervisor"] title_lower
        then Ok "Management"
        else if any_word_in ["senior"; "principal"; "lead"] title_lower
        then Ok "Senior"
        else if any_word_in ["junior"; "assistant"; "trainee"] title_lower
        then Ok "Junior"
        else Ok "Mid-level"
  end.

(** [calculate_gini(values)].  The callers pass the integer totals of a
    [groupby(...)['StaffCount'].sum()], an array of int64: the elements
    of [sorted(values)] are int64 scalars, and the products, the sum of
    the generator and the cumulative sum are taken in int64. *)
Definition calculate_gini (values : list Z) : npfloat :=
  if (List.length values =? 0)%nat then Fin 0
  else
    let sorted_values := sorted values in
    let n := List.length values in
    let cumsum := int64_cumsum sorted_values in
    np_sub
      (np_div
         (int64_mul 2
            (int64_sum
               (map (fun i => int64_mul (Z.of_nat i + 1) (nth i sorted_values 0))
                    (seq 0 n))))
         (int64_mul (Z.of_nat n) (last cumsum 0)))
      (Qred ((inject_Z (Z.of_nat n) + 1) / inject_Z (Z.of_nat n))).

(** *** Loading the tables *)

(** [business_groups], [business_units], [job_titles] and
    [pay_locations] share one body: the file is read when the selected
    council involves WCC and the WCC files were found at start-up; a
    failed read gives [pd.DataFrame()].  [csv] is the outcome of
    [pd.read_csv]: the rows, or [None] when it raises. *)
Definition wcc_selected (council_select : string) (wcc_available : bool) : bool :=
  mem council_select ["Wellington City Council"; "Compare Councils"]
  && wcc_available.

Definition read_or_empty {R : Type} (council_select : string)
    (wcc_available : bool) (csv : option (list R)) : frame R :=
  if wcc_selected council_select wcc_available then
    match csv with
    | Some rows => Frame rows
    | None => NoColumns
    end
  else NoColumns.

Definition business_groups := @read_or_empty Tables.business_group.
Definition business_units := @read_or_empty Tables.business_unit.
Definition job_titles := @read_or_empty Tables.job_title.
Definition pay_locations := @read_or_empty Tables.pay_location.

(** The inner loop of the synthetic assignments: [num_positions] rows
    for one unit, each with a sampled job and two random integers. *)
Fixpoint synthetic_positions (num_positions : nat) (unit : Tables.business_unit)
    (first_job : Tables.job_title) (other_jobs : list Tables.job_title)
    (g : rng) : list Tables.assignment * rng :=
  match num_positions with
  | O => ([], g)
  | S remaining =>
      let (job, g) := sample_row first_job other_jobs g in
      let (location, g) := randint 1 6 g in
      let (count, g) := randint 1 6 g in
      let (rest, g) := synthetic_positions remaining unit first_job other_jobs g in
      ({| Tables.UnitID := Tables.bu_UnitID unit;
          Tables.TitleID := Tables.jt_TitleID job;
          Tables.LocationID := location;
          Tables.StaffCount := count |} :: rest, g)
  end.

(** The outer loop: 10 to 50 positions for every unit. *)
Fixpoint synthetic_assignments (units : list Tables.business_unit)
    (first_job : Tables.job_title) (other_jobs : list Tables.job_title)
    (g : rng) : list Tables.assignment * rng :=
  match units with
  | [] => ([], g)
  | unit :: units' =>
      let (num_positions, g) := randint 10 51 g in
      let (rows, g) :=
        synthetic_positions (Z.to_nat num_positions) unit first_job other_jobs g in
      let (rest, g) := synthetic_assignments units' first_job other_jobs g in
      ((rows ++ rest)%list, g)
  end.

(** [staff_assignments].  [business_units] and [job_titles] are the
    values of those two calcs; the result carries the generator state. *)
Definition staff_assignments (council_select : string) (wcc_available : bool)
    (csv : option (list Tables.assignment))
    (business_units : frame Tables.business_unit)
    (job_titles : frame Tables.job_title)
    (g : rng) : frame Tables.assignment * rng :=
  if wcc_selected council_select wcc_available then
    match csv with
    | Some df => (Frame df, g)
    | None =>
        if negb (empty business_units) && negb (empty job_titles) then
          match rows_of job_titles with
          | first_job :: other_jobs =>
              let (assignments, g) :=
                synthetic_assignments (rows_of business_units) first_job other_jobs g in
              (Frame assignments, g)
          | [] => (NoColumns, g)
          end
        else (NoColumns, g)
    end
  else (NoColumns, g).

(** *** The unified records *)

Record merged_row : Type := {
  base : Tables.joined;
  LocationName : option string;
  JobCategory : string;
  JobLevel : string
}.

Definition JobTitle_of (x : Tables.joined) : option string :=
  option_map Tables.JobTitle (Tables.title x).

(** The three left joins that [merged_data] and the comparison branch
    start with. *)
Definition left_joins
    (staff_assignments : frame Tables.assignment)
    (business_units : frame Tables.business_unit)
    (business_groups : frame Tables.business_group)
    (job_titles : frame Tables.job_title) : result (frame Tables.joined) :=
  m1 <- frame_merge_left "UnitID" Tables.on_UnitID
          staff_assignments business_units ;;
  m2 <- frame_merge_left "GroupID" (fun au => Tables.on_GroupID (snd au))
          m1 business_groups ;;
  m3 <- frame_merge_left "TitleID" (fun aug => Tables.on_TitleID (fst (fst aug)))
          m2 job_titles ;;
  Ok (map_frame
        (fun augt : Tables.assignment * option Tables.business_unit
                    * option Tables.business_group * option Tables.job_title =>
           {| Tables.fact := fst (fst (fst augt));
              Tables.unit := snd (fst (fst augt));
              Tables.group := snd (fst augt);
              Tables.title := snd augt |})
        m3).

(** [merged_data] when [council_select] is 'Wellington City Council'.
    The arguments are the values of the five calcs. *)
Definition merged_data
    (staff_assignments : frame Tables.assignment)
    (business_units : frame Tables.business_unit)
    (business_groups : frame Tables.business_group)
    (job_titles : frame Tables.job_title)
    (pay_locations : frame Tables.pay_location) : result (frame merged_row) :=
  if empty staff_assignments then Ok NoColumns
  else
    merged <- left_joins staff_assignments business_units business_groups
                job_titles ;;
    merged <-
      (if negb (empty pay_locations) then
         m <- frame_merge_left "LocationID"
                (fun x => Tables.on_LocationID (Tables.fact x))
                merged pay_locations ;;
         Ok (map (fun xl => (fst xl, option_map Tables.LocationName (snd xl)))
                 (rows_of m))
       else
         Ok (map (fun x => (x, Some "Wellington City")) (rows_of merged))) ;;
    categories <- mapM (fun xl => categorize_job_title (JobTitle_of (fst xl)))
                    merged ;;
    levels <- mapM (fun xl => get_job_level (JobTitle_of (fst xl))) merged ;;
    Ok (Frame (map (fun r =>
                      {| base := fst (fst (fst r));
                         LocationName := snd (fst (fst r));
                         JobCategory := snd (fst r);
                         JobLevel := snd r |})
                   (combine (combine merged categories) levels))).

(** *** The department mapping report *)

(** The columns of the value of [hcc_data()] that are read below.
    [hcc_data] strips the group names, sets the staff count to 1 and
    categorizes every job title, which raises on a missing title: in
    its value every job title is present. *)
Record hcc_record : Type := {
  Group : option string;
  Job_Title : string;
  hcc_StaffCount : Z
}.

Record mapping_row : Type := {
  HCC_Group : string;
  HCC_Staff : Z;
  WCC_Equivalent : string;
  WCC_Staff : Z;
  Match_Quality : string;
  Staff_Difference : Z
}.

(** [wcc_merged]: the two joins of the report, both with the default
    [how='inner']. *)
Definition wcc_merged
    (staff_assignments : frame Tables.assignment)
    (business_units : frame Tables.business_unit)
    (business_groups : frame Tables.business_group)
  : result (frame (Tables.assignment * Tables.business_unit * Tables.business_group)) :=
  m1 <- frame_merge_inner "UnitID" Tables.on_UnitID
          staff_assignments business_units ;;
  frame_merge_inner "GroupID" (fun au => Tables.on_GroupID (Some (snd au)))
    m1 business_groups.

(** [wcc_staff]: WCC group name -> staff total. *)
Definition wcc_staff
    (staff_assignments : frame Tables.assignment)
    (business_units : frame Tables.business_unit)
    (business_groups : frame Tables.business_group) : result (dict Z) :=
  if negb (empty staff_assignments) then
    wcc_merged <- wcc_merged staff_assignments business_units business_groups ;;
    Ok (groupby_sum
          (map (fun aug : Tables.assignment * Tables.business_unit
                          * Tables.business_group =>
                  (Some (Tables.GroupName (snd aug)),
                   Tables.StaffCount (fst (fst aug))))
               (rows_of wcc_merged)))
  else Ok [].

(** [hcc_staff]: HCC group name -> staff total. *)
Definition hcc_staff (hcc_data : frame hcc_record) : dict Z :=
  if negb (empty hcc_data) then
    groupby_sum (map (fun r => (Group r, hcc_StaffCount r)) (rows_of hcc_data))
  else [].

(** The rows for the pairs of [GROUP_MAPPINGS]. *)
Definition mapped_rows (wcc_staff hcc_staff : dict Z) : list mapping_row :=
  map (fun pair : string * string =>
         let hcc_group := fst pair in
         let wcc_group := snd pair in
         let hcc_count := dict_get_default hcc_staff hcc_group 0 in
         let wcc_count := dict_get_default wcc_staff wcc_group 0 in
         {| HCC_Group := hcc_group;
            HCC_Staff := hcc_count;
            WCC_Equivalent := wcc_group;
            WCC_Staff := wcc_count;
            Match_Quality :=
              if negb (wcc_group =? "No Direct Equivalent") then "Direct" else "None";
            Staff_Difference := Z.abs (hcc_count - wcc_count) |})
      GROUP_MAPPINGS.

(** The rows for the WCC groups without HCC equivalent. *)
Definition wcc_only_rows (wcc_staff : dict Z) : list mapping_row :=
  let mapped_wcc := values GROUP_MAPPINGS in
  flat_map (fun wcc_group =>
              if negb (mem wcc_group mapped_wcc)
                 && negb (wcc_group =? "No Direct Equivalent")
              then [ {| HCC_Group := "No Equivalent";
                        HCC_Staff := 0;
                        WCC_Equivalent := wcc_group;
                        WCC_Staff := dict_get_default wcc_staff wcc_group 0;
                        Match_Quality := "WCC Only";
                        Staff_Difference := dict_get_default wcc_staff wcc_group 0 |} ]
              else [])
           (keys wcc_staff).

(** The order of [df.sort_values(['Match Quality', 'Staff Difference'])]:
    ascending in both columns, the first column first. *)
Definition mapping_leb (a b : mapping_row) : bool :=
  match String.compare (Match_Quality a) (Match_Quality b) with
  | Lt => true
  | Eq => (Staff_Difference a <=? Staff_Difference b)%Z
  | Gt => false
  end.

(** [department_mapping]: the data frame shown in the grid. *)
Definition department_mapping (wcc_available hcc_available : bool)
    (staff_assignments : frame Tables.assignment)
    (business_units : frame Tables.business_unit)
    (business_groups : frame Tables.business_group)
    (hcc_data : frame hcc_record) : result (frame mapping_row) :=
  if negb (wcc_available && hcc_available) then Ok NoColumns
  else
    wcc_staff <- wcc_staff staff_assignments business_units business_groups ;;
    let hcc_staff := hcc_staff hcc_data in
    let mapping_data := mapped_rows wcc_staff hcc_staff in
    let mapping_data := (mapping_data ++ wcc_only_rows wcc_staff)%list in
    Ok (Frame (sort_by mapping_leb mapping_data)).

(** *** Job title overlap *)

Section JobOverlap.

(** [SequenceMatcher(None, a, b).ratio()], a library function. *)
Variable ratio : string -> string -> Q.

(** [list(s)] for the set [s] with the given distinct elements: the
    iteration order of a Python set of strings, which the language
    leaves open and which changes with the hash seed of the process. *)
Variable set_list : list string -> list string.

(** The inner loop of [job_overlap]: the pair
    [(best_match, best_score)] after the candidates. *)
Definition best_match (hcc_title : string) (candidates : list string)
  : option string * Q :=
  fold_left
    (fun best wcc_title =>
       let score := ratio hcc_title wcc_title in
       if Qgtb score (snd best) then (Some wcc_title, score) else best)
    candidates (None, 0%Q).

(** The outer loop: [similarity_scores]. *)
Definition similarity_scores (hcc_only wcc_only : list string) : list Q :=
  flat_map
    (fun hcc_title =>
       let best_score :=
         snd (best_match hcc_title (firstn 50 (set_list wcc_only))) in
       if Qgtb best_score (8 # 10) then [best_score] else [])
    (firstn 50 (set_list hcc_only)).

(** The bar heights of the chart: exact matches, WCC only, HCC only,
    similar. *)
Record overlap : Type := {
  common_titles : nat;
  wcc_only_titles : nat;
  hcc_only_titles : nat;
  similar_titles : list Q
}.

(** [job_overlap]; [None] is the empty figure. *)
Definition job_overlap (wcc_available hcc_available : bool)
    (wcc_jobs : frame Tables.job_title) (hcc_df : frame hcc_record)
  : option overlap :=
  if negb (wcc_available && hcc_available) then None
  else if empty wcc_jobs || empty hcc_df then None
  else
    let wcc_titles :=
      nodup string_dec (map (fun r => lower (Tables.JobTitle r)) (rows_of wcc_jobs)) in
    let hcc_titles :=
      nodup string_dec (map (fun r => lower (Job_Title r)) (rows_of hcc_df)) in
    let common_titles := filter (fun t => mem t hcc_titles) wcc_titles in
    let wcc_only := filter (fun t => negb (mem t hcc_titles)) wcc_titles in
    let hcc_only := filter (fun t => negb (mem t wcc_titles)) hcc_titles in
    Some {| common_titles := List.length common_titles;
            wcc_only_titles := List.length wcc_only;
            hcc_only_titles := List.length hcc_only;
            similar_titles := similarity_scores hcc_only wcc_only |}.

End JobOverlap.

(** The coordinates and the annotation that [location_concentration]
    hands to the plot, from the per-location totals
    [data.groupby('LocationName')['StaffCount'].sum()]: the trace
    [go.Scatter(x=x, y=cumsum)] and the Gini coefficient. *)
Definition location_concentration (group_totals : list Z)
  : list npfloat * list npfloat * npfloat :=
  let location_totals := sorted group_totals in
  let cumsum :=
    map (fun c => np_div c (sum location_totals)) (Py.cumsum location_totals) in
  let x :=
    map (fun i => np_div (Z.of_nat i) (Z.of_nat (List.length location_totals)))
        (seq 0 (List.length location_totals)) in
  let gini := calculate_gini location_totals in
  (x, cumsum, gini).

(** The diversity block of [job_stats], from the per-title totals
    [job_counts = data.groupby('JobTitle')['StaffCount'].sum()], which
    are counts of staff. *)

(** [job_probs = job_counts / job_counts.sum()]: every entry is [nan]
    (here [None]) when the total is 0. *)
Definition job_probs (job_counts : list N) : list (option R) :=
  let total := sum (map Z.of_N job_counts) in
  map (fun c => if (total =? 0)%Z then None
                else Some (IZR (Z.of_N c) / IZR total)%R)
      job_counts.

(** [-np.sum(job_probs * np.log(job_probs + 1e-10))].  [np.sum] of a
    Series is [Series.sum], which skips [nan] entries. *)
Definition diversity_index (job_counts : list N) : R :=
  (- fold_right Rplus 0
       (map (fun p => match p with
                      | Some p => p * ln (p + 1 / 10 ^ 10)
                      | None => 0
                      end)
            (job_probs job_counts)))%R.

(** The value of [np.log] on a length: [np.log(0)] is [-inf]. *)
Inductive log_value : Type :=
| NegInf
| Log (r : R).

Definition max_diversity (job_counts : list N) : log_value :=
  match List.length job_counts with
  | O => NegInf
  | S _ as n => Log (ln (INR n))
  end.

(** [(diversity_index / max_diversity * 100) if max_diversity > 0 else 0] *)
Definition diversity_pct (job_counts : list N) : R :=
  match max_diversity job_counts with
  | NegInf => 0%R
  | Log m =>
      if Rlt_dec 0 m then (diversity_index job_counts / m * 100)%R else 0%R
  end.

(** *** The HCC positions *)

(** A row of [hccpositioninfo.csv]; an empty field is read as missing. *)
Record hcc_position : Type := {
  pos_Job_Title : option string;
  pos_Group : option string;
  pos_Division : option string;
  pos_Manager_Job_Title : option string
}.

(** A row of the value of [hcc_data()]: the position, its group name
    stripped, and the four added columns. *)
Record hcc_row : Type := {
  row_position : hcc_position;
  row_StaffCount : Z;
  row_JobCategory : string;
  row_JobLevel : string;
  WCC_Equivalent_Group : string
}.

Definition hcc_selected (council_select : string) (hcc_available : bool) : bool :=
  mem council_select ["Hutt City Council"; "Compare Councils"]
  && hcc_available.

(** [df['Group'].map(GROUP_MAPPINGS).fillna('No Direct Equivalent')] *)
Definition equivalent_group (group : option string) : string :=
  match group with
  | Some g => dict_get_default GROUP_MAPPINGS g "No Direct Equivalent"
  | None => "No Direct Equivalent"
  end.

(** [hcc_data].  [csv] is the outcome of [pd.read_csv], which nothing
    catches here. *)
Definition hcc_data (council_select : string) (hcc_available : bool)
    (csv : option (list hcc_position)) : result (frame hcc_row) :=
  if hcc_selected council_select hcc_available then
    match csv with
    | None => Raise FileNotFoundError
    | Some df =>
        groups <- str_accessor (map pos_Group df) ;;
        let groups := map str_strip groups in
        categories <- mapM (fun r => categorize_job_title (pos_Job_Title r)) df ;;
        levels <- mapM (fun r => get_job_level (pos_Job_Title r)) df ;;
        Ok (Frame
              (map (fun x : hcc_position * option string * string * string =>
                      {| row_position :=
                           {| pos_Job_Title := pos_Job_Title (fst (fst (fst x)));
                              pos_Group := snd (fst (fst x));
                              pos_Division := pos_Division (fst (fst (fst x)));
                              pos_Manager_Job_Title :=
                                pos_Manager_Job_Title (fst (fst (fst x))) |};
                         row_StaffCount := 1;
                         row_JobCategory := snd (fst x);
                         row_JobLevel := snd x;
                         WCC_Equivalent_Group := equivalent_group (snd (fst (fst x))) |})
                   (combine (combine (combine df groups) categories) levels)))
    end
  else Ok NoColumns.

(** The columns of a row of [hcc_data()] that the department mapping
    and the job title overlap read; the job title is present in every
    row of that value. *)
Definition hcc_columns (r : hcc_row) : hcc_record :=
  {| Group := pos_Group (row_position r);
     Job_Title := match pos_Job_Title (row_position r) with
                  | Some t => t
                  | None => ""
                  end;
     hcc_StaffCount := row_StaffCount r |}.

(** *** The comparison of the two councils *)

(** A row of [merged_data()] when [council_select] is
    'Compare Councils': the columns the two councils share, and
    'ManagerTitle', which [pd.concat] leaves missing in the WCC rows. *)
Record unified_row : Type := {
  Council : string;
  u_GroupName : option string;
  u_UnitName : option string;
  u_JobTitle : option string;
  u_LocationName : option string;
  u_StaffCount : Z;
  u_JobCategory : string;
  u_JobLevel : string;
  ManagerTitle : option string
}.

Definition wcc_unified (r : merged_row) : unified_row :=
  {| Council := "Wellington";
     u_GroupName := option_map Tables.GroupName (Tables.group (base r));
     u_UnitName := option_map Tables.UnitName (Tables.unit (base r));
     u_JobTitle := JobTitle_of (base r);
     u_LocationName := LocationName r;
     u_StaffCount := Tables.StaffCount (Tables.fact (base r));
     u_JobCategory := JobCategory r;
     u_JobLevel := JobLevel r;
     ManagerTitle := None |}.

Definition hcc_unified (r : hcc_row) : unified_row :=
  {| Council := "Hutt";
     u_GroupName := pos_Group (row_position r);
     u_UnitName := pos_Division (row_position r);
     u_JobTitle := pos_Job_Title (row_position r);
     u_LocationName := Some "Hutt City";
     u_StaffCount := row_StaffCount r;
     u_JobCategory := row_JobCategory r;
     u_JobLevel := row_JobLevel r;
     ManagerTitle := pos_Manager_Job_Title (row_position r) |}.

(** [merged_data] when [council_select] is 'Compare Councils'.  The WCC
    part repeats the joins and the two classifications of the
    Wellington branch.  [hcc_data] is the outcome of the call
    [hcc_data()], made when [hcc_available()] holds. *)
Definition merged_data_compare (wcc_available hcc_available : bool)
    (staff_assignments : frame Tables.assignment)
    (business_units : frame Tables.business_unit)
    (business_groups : frame Tables.business_group)
    (job_titles : frame Tables.job_title)
    (pay_locations : frame Tables.pay_location)
    (hcc_data : result (frame hcc_row)) : result (frame unified_row) :=
  wcc_part <-
    (if wcc_available && negb (empty staff_assignments) then
       wcc_data <- merged_data staff_assignments business_units business_groups
                     job_titles pay_locations ;;
       Ok (map wcc_unified (rows_of wcc_data))
     else Ok []) ;;
  hcc_part <-
    (if hcc_available then
       hcc_df <- hcc_data ;;
       if negb (empty hcc_df) then Ok (map hcc_unified (rows_of hcc_df))
       else Ok []
     else Ok []) ;;
  Ok (match (wcc_part ++ hcc_part)%list with
      | [] => NoColumns
      | combined => Frame combined
      end).

(** A bar pair of [group_size_comparison]. *)
Record comparison_row : Type := {
  Function : string;
  Wellington : Z;
  Hutt : Z
}.

Definition council_groups (council : string) (data : list unified_row) : dict Z :=
  groupby_sum
    (map (fun r => (u_GroupName r, u_StaffCount r))
         (filter (fun r => Council r =? council) data)).

(** [group_size_comparison]: the rows of [df_comp]; [None] is the empty
    figure.  [pd.DataFrame([])] has no column 'Function'. *)
Definition group_size_comparison (council_select : string)
    (merged_data : frame unified_row) : result (option (list comparison_row)) :=
  if negb (council_select =? "Compare Councils") then Ok None
  else if empty merged_data then Ok None
  else
    let data := rows_of merged_data in
    let wcc_groups := council_groups "Wellington" data in
    let hcc_groups := council_groups "Hutt" data in
    let mapped :=
      flat_map (fun pair : string * string =>
                  let hcc_group := fst pair in
                  let wcc_group := snd pair in
                  let hcc_count := dict_get_default hcc_groups hcc_group 0 in
                  let wcc_count := dict_get_default wcc_groups wcc_group 0 in
                  if (0 <? hcc_count)%Z || (0 <? wcc_count)%Z
                  then [ {| Function := wcc_group;
                            Wellington := wcc_count;
                            Hutt := hcc_count |} ]
                  else [])
               GROUP_MAPPINGS in
    let wcc_only :=
      flat_map (fun wcc_group =>
                  if negb (mem wcc_group (values GROUP_MAPPINGS))
                  then [ {| Function := wcc_group;
                            Wellington := dict_get_default wcc_groups wcc_group 0;
                            Hutt := 0 |} ]
                  else [])
               (keys wcc_groups) in
    match (mapped ++ wcc_only)%list with
    | [] => Raise (KeyError "Function")
    | comparison_data => Ok (Some comparison_data)
    end.

(** A bar of [council_comparison]. *)
Record metric_row : Type := {
  metric_Council : string;
  Metric : string;
  Value : Z
}.

(** [council_comparison]: the rows of [comparison_data]; [None] is the
    empty figure. *)
Definition council_comparison (wcc_available hcc_available : bool)
    (staff_assignments : frame Tables.assignment)
    (business_groups : frame Tables.business_group)
    (business_units : frame Tables.business_unit)
    (hcc_data : result (frame hcc_row)) : result (option (list metric_row)) :=
  wcc_part <-
    (if wcc_available && negb (empty staff_assignments) then
       let wcc_total := sum (map Tables.StaffCount (rows_of staff_assignments)) in
       match business_groups with
       | NoColumns => Raise (KeyError "GroupName")
       | Frame groups =>
           let wcc_groups := nunique (map (fun g => Some (Tables.GroupName g)) groups) in
           match business_units with
           | NoColumns => Raise (KeyError "UnitName")
           | Frame units =>
               let wcc_units := nunique (map (fun u => Some (Tables.UnitName u)) units) in
               Ok [ {| metric_Council := "Wellington"; Metric := "Total Staff";
                       Value := wcc_total |};
                    {| metric_Council := "Wellington"; Metric := "Groups";
                       Value := Z.of_nat wcc_groups |};
                    {| metric_Council := "Wellington"; Metric := "Units";
                       Value := Z.of_nat wcc_units |} ]
           end
       end
     else Ok []) ;;
  hcc_part <-
    (if hcc_available then
       hcc_df <- hcc_data ;;
       if negb (empty hcc_df) then
         let rows := rows_of hcc_df in
         Ok [ {| metric_Council := "Hutt"; Metric := "Total Staff";
                 Value := Z.of_nat (List.length rows) |};
              {| metric_Council := "Hutt"; Metric := "Groups";
                 Value := Z.of_nat (nunique (map (fun r => pos_Group (row_position r)) rows)) |};
              {| metric_Council := "Hutt"; Metric := "Units";
                 Value := Z.of_nat (nunique (map (fun r => pos_Division (row_position r)) rows)) |} ]
       else Ok []
     else Ok []) ;;
  Ok (match (wcc_part ++ hcc_part)%list with
      | [] => None
      | comparison_data => Some comparison_data
      end).

(** The value of [merged_data()], by the branch that made it: only the
    comparison branch adds the column 'Council'. *)
Inductive merged : Type :=
| Wellington_data (df : frame merged_row)
| Hutt_data (df : frame hcc_row)
| Compare_data (df : frame unified_row).

(** [merged_data], the three branches.  The arguments are the values of
    the calcs; [hcc_data] is the outcome of the call [hcc_data()]. *)
Definition merged_data_by_council (council_select : string)
    (wcc_available hcc_available : bool)
    (staff_assignments : frame Tables.assignment)
    (business_units : frame Tables.business_unit)
    (business_groups : frame Tables.business_group)
    (job_titles : frame Tables.job_title)
    (pay_locations : frame Tables.pay_location)
    (hcc_data : result (frame hcc_row)) : result merged :=
  if council_select =? "Wellington City Council" then
    df <- merged_data staff_assignments business_units business_groups
            job_titles pay_locations ;;
    Ok (Wellington_data df)
  else if council_select =? "Hutt City Council" then
    hcc_df <- hcc_data ;;
    Ok (Hutt_data (if empty hcc_df then NoColumns else hcc_df))
  else
    df <- merged_data_compare wcc_available hcc_available staff_assignments
            business_units business_groups job_titles pay_locations hcc_data ;;
    Ok (Compare_data df).

(** [data.empty] *)
Definition merged_empty (data : merged) : bool :=
  match data with
  | Wellington_data df => empty df
  | Hutt_data df => empty df
  | Compare_data df => empty df
  end.

(** The rows of [data] once [data['Council']] has been read. *)
Definition with_council (data : merged) : result (list unified_row) :=
  match data with
  | Compare_data df => Ok (rows_of df)
  | Wellington_data _ | Hutt_data _ => Raise (KeyError "Council")
  end.

(** A row of [functional_data]. *)
Record functional_row : Type := {
  f_Function : string;
  f_Metric : string;
  f_Wellington : Z;
  f_Hutt : Z
}.

(** [functional_comparison]: the rows of [functional_data]; [None] is
    the empty figure. *)
Definition functional_comparison (wcc_available hcc_available : bool)
    (merged_data : merged) : result (option (list functional_row)) :=
  if negb (wcc_available && hcc_available) then Ok None
  else
    let data := merged_data in
    if merged_empty data then Ok None
    else
      functional_data <-
        mapM (fun pair : string * string =>
                let hcc_group := fst pair in
                let wcc_group := snd pair in
                if negb (wcc_group =? "No Direct Equivalent") then
                  rows <- with_council data ;;
                  let hcc_stats :=
                    filter (fun r => (Council r =? "Hutt")
                                     && col_eq (u_GroupName r) hcc_group) rows in
                  let hcc_staff := sum (map u_StaffCount hcc_stats) in
                  let hcc_units := nunique (map u_UnitName hcc_stats) in
                  let wcc_stats :=
                    filter (fun r => (Council r =? "Wellington")
                                     && col_eq (u_GroupName r) wcc_group) rows in
                  let wcc_staff := sum (map u_StaffCount wcc_stats) in
                  let wcc_units := nunique (map u_UnitName wcc_stats) in
                  if (0 <? hcc_staff)%Z || (0 <? wcc_staff)%Z then
                    Ok [ {| f_Function := wcc_group; f_Metric := "Staff Count";
                            f_Wellington := wcc_staff; f_Hutt := hcc_staff |};
                         {| f_Function := wcc_group; f_Metric := "Units/Divisions";
                            f_Wellington := Z.of_nat wcc_units;
                            f_Hutt := Z.of_nat hcc_units |} ]
                  else Ok []
                else Ok [])
             GROUP_MAPPINGS ;;
      match List.concat functional_data with
      | [] => Ok None
      | functional_data => Ok (Some functional_data)
      end.

(** *** The reporting lines of HCC *)

(** [reporting_structure]: the bars, manager title and direct reports;
    [None] is the empty figure.  When no position names a manager the
    table of counts has no entry, and [px.bar] raises on it. *)
Definition reporting_structure (council_select : string)
    (hcc_data : frame hcc_row) : result (option (dict Z)) :=
  if negb (council_select =? "Hutt City Council") then Ok None
  else
    let data := hcc_data in
    if empty data then Ok None
    else
      let manager_counts :=
        firstn 15
          (value_counts
             (map (fun r => pos_Manager_Job_Title (row_position r)) (rows_of data))) in
      match manager_counts with
      | [] => Raise ValueError
      | _ :: _ => Ok (Some manager_counts)
      end.

(** [span_of_control]: the bars, number of direct reports and number of
    managers, and the height of the line of the average. *)
Definition span_of_control (council_select : string)
    (hcc_data : frame hcc_row) : option (list (Z * Z) * npfloat) :=
  if negb (council_select =? "Hutt City Council") then None
  else
    let data := hcc_data in
    if empty data then None
    else
      let manager_counts :=
        value_counts
          (map (fun r => pos_Manager_Job_Title (row_position r)) (rows_of data)) in
      let span_distribution := value_counts_sort_index (values manager_counts) in
      let avg_span :=
        np_div (sum (values manager_counts))
               (Z.of_nat (List.length manager_counts)) in
      Some (span_distribution, avg_span).

End MultiCouncil.

(** ** The WCC dashboard, [mywcc-staff/app.py] *)
Module MyWcc.
Import Py.

Open Scope Z_scope.
Open Scope string_scope.

(** The five calcs return [pd.read_csv(...)]: a missing file raises. *)
Definition read_csv {R : Type} (csv : option (list R)) : result (frame R) :=
  match csv with
  | Some rows => Ok (Frame rows)
  | None => Raise FileNotFoundError
  end.

Definition business_groups := @read_csv Tables.business_group.
Definition business_units := @read_csv Tables.business_unit.
Definition job_titles := @read_csv Tables.job_title.
Definition pay_locations := @read_csv Tables.pay_location.
Definition staff_assignments := @read_csv Tables.assignment.

Record merged_row : Type := {
  base : Tables.joined;
  location : option Tables.pay_location
}.

(** [merged_data]: four left joins; each calc is called when the chain
    reaches it. *)
Definition merged_data
    (assignments_csv : option (list Tables.assignment))
    (units_csv : option (list Tables.business_unit))
    (groups_csv : option (list Tables.business_group))
    (titles_csv : option (list Tables.job_title))
    (locations_csv : option (list Tables.pay_location))
  : result (frame merged_row) :=
  sa <- staff_assignments assignments_csv ;;
  bu <- business_units units_csv ;;
  m1 <- frame_merge_left "UnitID" Tables.on_UnitID sa bu ;;
  bg <- business_groups groups_csv ;;
  m2 <- frame_merge_left "GroupID" (fun au => Tables.on_GroupID (snd au)) m1 bg ;;
  jt <- job_titles titles_csv ;;
  m3 <- frame_merge_left "TitleID" (fun aug => Tables.on_TitleID (fst (fst aug)))
          m2 jt ;;
  pl <- pay_locations locations_csv ;;
  m4 <- frame_merge_left "LocationID"
          (fun augt => Tables.on_LocationID (fst (fst (fst augt)))) m3 pl ;;
  Ok (map_frame
        (fun r : Tables.assignment * option Tables.business_unit
                 * option Tables.business_group * option Tables.job_title
                 * option Tables.pay_location =>
           {| base := {| Tables.fact := fst (fst (fst (fst r)));
                         Tables.unit := snd (fst (fst (fst r)));
                         Tables.group := snd (fst (fst r));
                         Tables.title := snd (fst r) |};
              location := snd r |})
        m4).

(** The trace [go.Scatter(x=x, y=cumsum)] of [concentration_chart], from
    the per-unit totals [merged_data().groupby('UnitName')['StaffCount'].sum()]. *)
Definition concentration_chart (group_totals : list Z)
  : list npfloat * list npfloat :=
  let unit_totals := sorted group_totals in
  let cumsum :=
    map (fun c => np_div c (sum unit_totals)) (Py.cumsum unit_totals) in
  let x :=
    map (fun i => np_div (Z.of_nat i) (Z.of_nat (List.length unit_totals)))
        (seq 0 (List.length unit_totals)) in
  (x, cumsum).

(** The columns of [merged_data()] that the outputs below read. *)
Definition GroupName (r : merged_row) : option string :=
  option_map Tables.GroupName (Tables.group (base r)).

Definition UnitName (r : merged_row) : option string :=
  option_map Tables.UnitName (Tables.unit (base r)).

Definition JobTitle (r : merged_row) : option string :=
  option_map Tables.JobTitle (Tables.title (base r)).

Definition LocationName (r : merged_row) : option string :=
  option_map Tables.LocationName (location r).

Definition StaffCount (r : merged_row) : Z :=
  Tables.StaffCount (Tables.fact (base r)).

(** [filtered_data()], with the three select inputs, on the rows of
    [merged_data()]. *)
Definition filtered_data (merged_data : list merged_row)
    (filter_group filter_unit filter_location : string) : list merged_row :=
  let data := merged_data in
  let data :=
    if negb (filter_group =? "All")
    then filter (fun r => col_eq (GroupName r) filter_group) data
    else data in
  let data :=
    if negb (filter_unit =? "All")
    then filter (fun r => col_eq (UnitName r) filter_unit) data
    else data in
  let data :=
    if negb (filter_location =? "All")
    then filter (fun r => col_eq (LocationName r) filter_location) data
    else data in
  data.

(** The four figures of [summary_stats]. *)
Record summary : Type := {
  total_staff : Z;
  num_units : nat;
  num_positions : nat;
  records : nat
}.

Definition summary_stats (data : list merged_row) : summary :=
  {| total_staff := sum (map StaffCount data);
     num_units := nunique (map UnitName data);
     num_positions := nunique (map JobTitle data);
     records := List.length data |}.

(** The bars of [group_distribution]: the group totals by rising total.
    pandas leaves the order of equal totals to numpy's quicksort; here
    equal totals keep their order. *)
Definition group_distribution (data : list merged_row) : dict Z :=
  let group_stats := groupby_sum (map (fun r => (GroupName r, StaffCount r)) data) in
  sort_by (fun a b => snd a <=? snd b)%Z group_stats.

(** The bars of [location_distribution]: [nlargest(10, 'StaffCount')],
    by falling total, equal totals in the order of the table. *)
Definition location_distribution (data : list merged_row) : dict Z :=
  let location_stats :=
    groupby_sum (map (fun r => (LocationName r, StaffCount r)) data) in
  firstn 10 (sort_by (fun a b => snd b <=? snd a)%Z location_stats).

End MyWcc.

(** ** The HCC positions dashboard, [myhcc-staff/app.py] *)
Module MyHcc.
Import Py.

Open Scope Z_scope.
Open Scope string_scope.

(** A row of [hccpositioninfo.csv]; an empty field is read as missing. *)
Record position : Type := {
  Job_Title : option string;
  Group : option string;
  Division : option string;
  Manager_Job_Title : option string
}.

(** The rows of the table with these four columns. *)
Fixpoint table (job_title group division manager_job_title : list (option string))
  : list position :=
  match job_title, group, division, manager_job_title with
  | t :: job_title', g :: group', d :: division', m :: manager_job_title' =>
      {| Job_Title := t; Group := g; Division := d; Manager_Job_Title := m |}
      :: table job_title' group' division' manager_job_title'
  | _, _, _, _ => []
  end.

(** The module-level preparation of [df] after [pd.read_csv], lines 12
    to 15 in their order: each line takes [.str] of a column, which
    raises when the column has no value at all.  The 'Manager Job Title'
    column is filled before, so that it has a value in every row. *)
Definition df (csv : list position) : result (list position) :=
  job_title <- str_accessor (map Job_Title csv) ;;
  group <- str_accessor (map Group csv) ;;
  division <- str_accessor (map Division csv) ;;
  manager_job_title <-
    str_accessor (map (fillna "No Manager") (map Manager_Job_Title csv)) ;;
  Ok (table (map str_strip job_title) (map str_strip group)
            (map str_strip division) (map str_strip manager_job_title)).

(** [filtered_data()], with the three select inputs. *)
Definition filtered_data (df : list position)
    (filter_group filter_division filter_manager : string) : list position :=
  let data := df in
  let data :=
    if negb (filter_group =? "All")
    then filter (fun r => col_eq (Group r) filter_group) data
    else data in
  let data :=
    if negb (filter_division =? "All")
    then filter (fun r => col_eq (Division r) filter_division) data
    else data in
  let data :=
    if negb (filter_manager =? "All")
    then filter (fun r => col_eq (Manager_Job_Title r) filter_manager) data
    else data in
  data.

(** [sort_values(count_column, ascending=False)].  pandas leaves the
    order of equal counts to numpy's quicksort; here equal counts keep
    their order. *)
Definition sort_values_descending (table : dict Z) : dict Z :=
  sort_by (fun a b => snd b <=? snd a)%Z table.

(** The table behind the treemap of [hierarchy_chart]:
    labels and their direct reports, the top 15. *)
Definition hierarchy_chart (data : list position) : dict Z :=
  let manager_counts := groupby_size (map Manager_Job_Title data) in
  let manager_counts :=
    filter (fun e => negb (fst e =? "No Manager")) manager_counts in
  firstn 15 (sort_values_descending manager_counts).

(** The table behind the scatter of [analysis_chart] when
    [analysis_type] is 'manager_span'. *)
Definition analysis_chart_manager_span (data : list position) (top_n : nat)
  : dict Z :=
  let manager_span := groupby_size (map Manager_Job_Title data) in
  let manager_span :=
    filter (fun e => negb (fst e =? "No Manager")) manager_span in
  firstn top_n (sort_values_descending manager_span).

(** [manager_stats] of [analysis_summary] when [analysis_type] is
    'manager_span'. *)
Definition manager_stats (data : list position) : dict Z :=
  groupby_size
    (map Manager_Job_Title
         (filter (fun r => col_ne (Manager_Job_Title r) "No Manager") data)).

Record span_summary : Type := {
  total_managers : nat;
  average_span : npfloat;
  maximum_span : Z;
  minimum_span : Z
}.

(** The figures of the summary; [None] is 'No manager data available'. *)
Definition analysis_summary_manager_span (data : list position)
  : option span_summary :=
  let manager_stats := manager_stats data in
  match values manager_stats with
  | [] => None
  | c :: cs =>
      Some {| total_managers := List.length manager_stats;
              average_span :=
                np_div (sum (c :: cs)) (Z.of_nat (List.length manager_stats));
              maximum_span := fold_left Z.max cs c;
              minimum_span := fold_left Z.min cs c |}
  end.

End MyHcc.

(** ** The formulas of the design document, for comparison with the code *)
Module Design.
Import Py.

Open Scope Z_scope.

(** [Σ k·x_k], the ranks counted from [k0]. *)
Fixpoint rank_sum (k0 : Z) (x : list Z) : Z :=
  match x with
  | [] => 0
  | x1 :: x' => k0 * x1 + rank_sum (k0 + 1) x'
  end.

(** [G = (2·Σ_{i=1..n} i·x_i) / (n·Σx_i) − (n+1)/n] for [x] in ascending
    order. *)
Definition gini_formula (x : list Z) : Q :=
  let n := inject_Z (Z.of_nat (List.length x)) in
  (2 * inject_Z (rank_sum 1 x) / (n * inject_Z (sum x)) - (n + 1) / n)%Q.

(** [H = −Σ p_i·ln(p_i + ε)] with [ε = 1e-10]. *)
Definition shannon_formula (p : list R) : R :=
  (- fold_right Rplus 0 (map (fun p_i => p_i * ln (p_i + 1 / 10 ^ 10)) p))%R.

(** The Lorenz curve of the design: the points
    [(i/n, cumsum(x)_i / Σx)] for [i = 0..n], with [cumsum(x)_0 = 0],
    for [x] in ascending order. *)
Definition lorenz_formula (x : list Z) : list (npfloat * npfloat) :=
  let n := List.length x in
  map (fun i => (np_div (Z.of_nat i) (Z.of_nat n),
                 np_div (sum (firstn i x)) (sum x)))
      (seq 0 (n + 1)).

(** The sources of a target name in a mapping table, in table order:
    the first one (first-wins) and the last one (last-wins). *)
Fixpoint first_source (d : dict string) (b : string) : option string :=
  match d with
  | [] => None
  | (a, b') :: d' => if String.eqb b' b then Some a else first_source d' b
  end.

Fixpoint last_source (d : dict string) (b : string) : option string :=
  match d with
  | [] => None
  | (a, b') :: d' =>
      match last_source d' b with
      | Some a' => Some a'
      | None => if String.eqb b' b then Some a else None
      end
  end.

(** The span of control of manager title [m] in a set of positions: the
    number of positions that name [m] as their manager. *)
Definition direct_reports (data : list MyHcc.position) (m : string) : Z :=
  Z.of_nat
    (List.length (filter (fun r => col_eq (MyHcc.Manager_Job_Title r) m) data)).

(** The tie-break of the design for the fuzzy match: of the candidates
    with the greatest score, the first in lexicographic order. *)
Definition lexicographically_first (candidates : list string) : option string :=
  match candidates with
  | [] => None
  | c :: cs =>
      Some (fold_left (fun best x => if String.ltb x best then x else best) cs c)
  end.

Definition design_best_match (ratio : string -> string -> Q)
    (name : string) (candidates : list string) : option string :=
  let top :=
    filter (fun c => forallb (fun c' => Qle_bool (ratio name c') (ratio name c))
                             candidates)
           candidates in
  lexicographically_first top.

(** The state [(best_match, best_score)] of the matching loop after a
    run of candidates: no score seen exceeds [best_score];
    [best_match] is [None] with score 0 when no score was positive, and
    otherwise the first candidate of the run, in the order of the run,
    that reaches the greatest score. *)
Definition loop_invariant (ratio : string -> string -> Q)
    (hcc_title : string) (seen : list string)
    (best : option string * Q) : Prop :=
  (forall c, In c seen -> (ratio hcc_title c <= snd best)%Q)
  /\ match fst best with
     | None => snd best = 0%Q
     | Some c =>
         snd best = ratio hcc_title c
         /\ (0 < snd best)%Q
         /\ exists before after,
              seen = before ++ c :: after
              /\ forall c', In c' before -> (ratio hcc_title c' < snd best)%Q
     end.

(** The dimension values of a fact row when every surrogate id names at
    most one row of its table: the row of each table with the id, or
    missing. *)
Definition lookup (units : list Tables.business_unit)
    (groups : list Tables.business_group) (titles : list Tables.job_title)
    (a : Tables.assignment) : Tables.joined :=
  {| Tables.fact := a;
     Tables.unit := find (Tables.on_UnitID a) units;
     Tables.group :=
       find (Tables.on_GroupID (find (Tables.on_UnitID a) units)) groups;
     Tables.title := find (Tables.on_TitleID a) titles |}.

(** A position of the CSV file that names a manager. *)
Definition has_manager (r : MyHcc.position) : bool :=
  match MyHcc.Manager_Job_Title r with
  | Some _ => true
  | None => false
  end.

(** A join condition that at most one row of the right table meets. *)
Definition functional {L R : Type} (on : L -> R -> bool) (right : list R) : Prop :=
  forall l, filter (on l) right
            = match find (on l) right with
              | Some r => [r]
              | None => []
              end.

End Design.

(** ** Small tables used in the examples *)
Module Scenario.
Import Tables.

Open Scope Z_scope.
Open Scope string_scope.

Definition units : list business_unit :=
  [ {| bu_UnitID := 1; UnitName := "Parks & Recreation"; GroupID := 10 |} ].

Definition groups : list business_group :=
  [ {| bg_GroupID := 10; GroupName := "Customer & Community" |} ].

Definition titles : list job_title :=
  [ {| jt_TitleID := 1; JobTitle := "Park Ranger" |} ].

Definition locations : list pay_location :=
  [ {| pl_LocationID := 1; LocationName := "Civic Centre" |} ].

(** Four staff of unit 1, and six staff whose unit id 99 and location
    id 9 are in no table. *)
Definition known : assignment :=
  {| UnitID := 1; TitleID := 1; LocationID := 1; StaffCount := 4 |}.

Definition unknown_unit : assignment :=
  {| UnitID := 99; TitleID := 1; LocationID := 9; StaffCount := 6 |}.

Definition facts : list assignment := [known; unknown_unit].

(** Staff whose title id is in no table. *)
Definition unknown_title : assignment :=
  {| UnitID := 1; TitleID := 77; LocationID := 1; StaffCount := 2 |}.

(** Two WCC groups with staff, one of them ('Infrastructure &
    Delivery') the target of no mapping; three HCC groups with staff,
    one of them ('Parks') the source of no mapping. *)
Definition report_units : list business_unit :=
  [ {| bu_UnitID := 1; UnitName := "Parks & Recreation"; GroupID := 10 |};
    {| bu_UnitID := 2; UnitName := "Transport"; GroupID := 20 |} ].

Definition report_groups : list business_group :=
  [ {| bg_GroupID := 10; GroupName := "Customer & Community" |};
    {| bg_GroupID := 20; GroupName := "Infrastructure & Delivery" |} ].

Definition report_facts : list assignment :=
  [ {| UnitID := 1; TitleID := 1; LocationID := 1; StaffCount := 4 |};
    {| UnitID := 2; TitleID := 1; LocationID := 1; StaffCount := 80 |} ].

Definition report_hcc : list MultiCouncil.hcc_record :=
  repeat {| MultiCouncil.Group := Some "Parks";
            MultiCouncil.Job_Title := "Park Ranger";
            MultiCouncil.hcc_StaffCount := 1 |} 3
  ++ repeat {| MultiCouncil.Group := Some "Neighbourhoods & Communities";
               MultiCouncil.Job_Title := "Librarian";
               MultiCouncil.hcc_StaffCount := 1 |} 2
  ++ repeat {| MultiCouncil.Group := Some "Strategy & Engagement";
               MultiCouncil.Job_Title := "Senior Advisor";
               MultiCouncil.hcc_StaffCount := 1 |} 5.

(** Two HCC positions of the file, one of them filed under the group
    name that ends in a space. *)
Definition hcc_positions : list MultiCouncil.hcc_position :=
  [ {| MultiCouncil.pos_Job_Title := Some "Librarian";
       MultiCouncil.pos_Group := Some "Neighbourhoods & Communities ";
       MultiCouncil.pos_Division := Some "Libraries";
       MultiCouncil.pos_Manager_Job_Title := Some "Head of Libraries" |};
    {| MultiCouncil.pos_Job_Title := Some "Chief Executive";
       MultiCouncil.pos_Group := Some "Office of the Chief Executive";
       MultiCouncil.pos_Division := None;
       MultiCouncil.pos_Manager_Job_Title := None |} ].

(** The comparison data of [facts] and [hcc_positions]. *)
Definition compared : list MultiCouncil.unified_row :=
  [ {| MultiCouncil.Council := "Wellington";
       MultiCouncil.u_GroupName := Some "Customer & Community";
       MultiCouncil.u_UnitName := Some "Parks & Recreation";
       MultiCouncil.u_JobTitle := Some "Park Ranger";
       MultiCouncil.u_LocationName := Some "Civic Centre";
       MultiCouncil.u_StaffCount := 4;
       MultiCouncil.u_JobCategory := "Other";
       MultiCouncil.u_JobLevel := "Mid-level";
       MultiCouncil.ManagerTitle := None |};
    {| MultiCouncil.Council := "Wellington";
       MultiCouncil.u_GroupName := None;
       MultiCouncil.u_UnitName := None;
       MultiCouncil.u_JobTitle := Some "Park Ranger";
       MultiCouncil.u_LocationName := None;
       MultiCouncil.u_StaffCount := 6;
       MultiCouncil.u_JobCategory := "Other";
       MultiCouncil.u_JobLevel := "Mid-level";
       MultiCouncil.ManagerTitle := None |};
    {| MultiCouncil.Council := "Hutt";
       MultiCouncil.u_GroupName := Some "Neighbourhoods & Communities";
       MultiCouncil.u_UnitName := Some "Libraries";
       MultiCouncil.u_JobTitle := Some "Librarian";
       MultiCouncil.u_LocationName := Some "Hutt City";
       MultiCouncil.u_StaffCount := 1;
       MultiCouncil.u_JobCategory := "Other";
       MultiCouncil.u_JobLevel := "Mid-level";
       MultiCouncil.ManagerTitle := Some "Head of Libraries" |};
    {| MultiCouncil.Council := "Hutt";
       MultiCouncil.u_GroupName := Some "Office of the Chief Executive";
       MultiCouncil.u_UnitName := None;
       MultiCouncil.u_JobTitle := Some "Chief Executive";
       MultiCouncil.u_LocationName := Some "Hutt City";
       MultiCouncil.u_StaffCount := 1;
       MultiCouncil.u_JobCategory := "Management";
       MultiCouncil.u_JobLevel := "Executive";
       MultiCouncil.ManagerTitle := None |} ].

End Scenario.

(** * Properties *)

(** ** Sequences: sums, cumulative sums, sorting *)
Section Sequences.
Import Py.
Open Scope Z_scope.

Lemma fold_add_acc (l : list Z) (a : Z) : fold_left Z.add l a = a + sum l.
Proof.
  unfold sum. revert a.
  induction l as [|x l IH]; intro a; simpl; [lia|].
  rewrite (IH (a + x)), (IH x). lia.
Qed.

Lemma sum_cons (x : Z) (l : list Z) : sum (x :: l) = x + sum l.
Proof. unfold sum at 1. simpl. apply fold_add_acc. Qed.

Lemma sum_nil : sum [] = 0.
Proof. reflexivity. Qed.

Lemma last_cumsum_from (l : list Z) (acc x : Z) :
  last (cumsum_from acc (x :: l)) 0 = acc + sum (x :: l).
Proof.
  revert acc x.
  induction l as [|y l IH]; intros acc x.
  - simpl. rewrite sum_cons, sum_nil. lia.
  - change (cumsum_from acc (x :: y :: l))
      with ((acc + x) :: cumsum_from (acc + x) (y :: l)).
    change (last ((acc + x) :: cumsum_from (acc + x) (y :: l)) 0)
      with (last (cumsum_from (acc + x) (y :: l)) 0).
    rewrite IH, (sum_cons x). lia.
Qed.

Lemma last_cumsum (l : list Z) : l <> [] -> last (cumsum l) 0 = sum l.
Proof.
  destruct l as [|x l]; [congruence|]. intros _.
  unfold cumsum. rewrite last_cumsum_from. lia.
Qed.

Lemma length_cumsum_from (l : list Z) (acc : Z) :
  List.length (cumsum_from acc l) = List.length l.
Proof. revert acc. induction l; intro acc; simpl; auto. Qed.

Lemma insert_by_perm {A : Type} (leb : A -> A -> bool) (x : A) (l : list A) :
  Permutation (x :: l) (insert_by leb x l).
Proof.
  induction l as [|y l IH]; simpl; [apply Permutation_refl|].
  destruct (leb x y); [apply Permutation_refl|].
  eapply perm_trans; [apply perm_swap|]. now apply perm_skip.
Qed.

Lemma sort_by_perm {A : Type} (leb : A -> A -> bool) (l : list A) :
  Permutation l (sort_by leb l).
Proof.
  induction l as [|x l IH]; simpl; [constructor|].
  eapply perm_trans; [|apply insert_by_perm]. now apply perm_skip.
Qed.

Lemma sorted_perm (l : list Z) : Permutation l (sorted l).
Proof. apply sort_by_perm. Qed.

Lemma insert_sorted (x : Z) (l : list Z) :
  StronglySorted Z.le l -> StronglySorted Z.le (insert_by Z.leb x l).
Proof.
  induction 1 as [|y l Hs IH Hall]; simpl.
  - repeat constructor.
  - destruct (Z.leb_spec x y).
    + constructor; [now constructor|].
      constructor; [assumption|].
      eapply Forall_impl; [|exact Hall]. simpl. intros. lia.
    + constructor; [assumption|].
      eapply Permutation_Forall; [apply insert_by_perm|].
      constructor; [lia|assumption].
Qed.

Lemma sorted_sorted (l : list Z) : StronglySorted Z.le (sorted l).
Proof.
  induction l; simpl; [constructor|now apply insert_sorted].
Qed.

Lemma sorted_length (l : list Z) : List.length (sorted l) = List.length l.
Proof. symmetry. apply Permutation_length, sorted_perm. Qed.

Lemma sum_perm (l l' : list Z) : Permutation l l' -> sum l = sum l'.
Proof.
  induction 1; rewrite ?sum_cons; lia.
Qed.

Lemma sum_sorted (l : list Z) : sum (sorted l) = sum l.
Proof. symmetry. apply sum_perm, sorted_perm. Qed.

(** int64: a value in range is itself, and wrapping is arithmetic
    modulo [2^64]. *)
Lemma int64_small (z : Z) : - 2 ^ 63 <= z < 2 ^ 63 -> int64 z = z.
Proof. intro H. unfold int64. rewrite Z.mod_small; lia. Qed.

Lemma int64_congruent (a b : Z) :
  a mod 2 ^ 64 = b mod 2 ^ 64 -> int64 a = int64 b.
Proof.
  intro H. unfold int64. f_equal.
  rewrite <- (Z.add_mod_idemp_l a), <- (Z.add_mod_idemp_l b) by lia.
  now rewrite H.
Qed.

Lemma int64_mod (z : Z) : int64 z mod 2 ^ 64 = z mod 2 ^ 64.
Proof. unfold int64. rewrite Zminus_mod_idemp_l. f_equal. lia. Qed.

Lemma int64_add_l (a b : Z) : int64 (int64 a + b) = int64 (a + b).
Proof.
  apply int64_congruent.
  rewrite <- (Z.add_mod_idemp_l (int64 a)), int64_mod, Z.add_mod_idemp_l by lia.
  reflexivity.
Qed.

Lemma int64_add_r (a b : Z) : int64 (a + int64 b) = int64 (a + b).
Proof. rewrite (Z.add_comm a), int64_add_l. f_equal. lia. Qed.

Lemma int64_mul_r (a b : Z) : int64 (a * int64 b) = int64 (a * b).
Proof.
  apply int64_congruent.
  rewrite <- (Z.mul_mod_idemp_r a (int64 b)), int64_mod, Z.mul_mod_idemp_r by lia.
  reflexivity.
Qed.

Lemma int64_zero_iff (z : Z) : int64 z = 0 <-> z mod 2 ^ 64 = 0.
Proof.
  split; intro H.
  - rewrite <- int64_mod, H. reflexivity.
  - rewrite <- (int64_small 0) by lia. apply int64_congruent. now rewrite H.
Qed.

Lemma int64_fold {A : Type} (f : A -> Z) (l : list A) (a : Z) :
  fold_left int64_add (map (fun i => int64 (f i)) l) (int64 a)
  = int64 (a + sum (map f l)).
Proof.
  revert a. induction l as [|x l IH]; intro a; cbn [map fold_left].
  - rewrite sum_nil. f_equal. lia.
  - unfold int64_add at 2. rewrite int64_add_l, int64_add_r, IH, sum_cons.
    f_equal. lia.
Qed.

Lemma int64_sum_map {A : Type} (f : A -> Z) (l : list A) :
  int64_sum (map (fun i => int64 (f i)) l) = int64 (sum (map f l)).
Proof.
  unfold int64_sum. change 0 with (int64 0) at 1. now rewrite int64_fold.
Qed.

Lemma int64_cumsum_last_from (l : list Z) (acc x : Z) :
  last (int64_cumsum_from (int64 acc) (x :: l)) 0 = int64 (acc + sum (x :: l)).
Proof.
  revert acc x. induction l as [|y l IH]; intros acc x.
  - cbn [int64_cumsum_from last]. unfold int64_add.
    rewrite int64_add_l, sum_cons, sum_nil. f_equal. lia.
  - change (int64_cumsum_from (int64 acc) (x :: y :: l))
      with (int64_add (int64 acc) x
            :: int64_cumsum_from (int64_add (int64 acc) x) (y :: l)).
    change (last (int64_add (int64 acc) x
                  :: int64_cumsum_from (int64_add (int64 acc) x) (y :: l)) 0)
      with (last (int64_cumsum_from (int64_add (int64 acc) x) (y :: l)) 0).
    unfold int64_add at 1. rewrite int64_add_l, IH, (sum_cons x). f_equal. lia.
Qed.

Lemma int64_cumsum_last (l : list Z) :
  l <> [] -> last (int64_cumsum l) 0 = int64 (sum l).
Proof.
  destruct l as [|x l]; [congruence|]. intros _.
  unfold int64_cumsum. change 0 with (int64 0) at 1.
  rewrite int64_cumsum_last_from. f_equal.
Qed.

End Sequences.

(** ** The Gini coefficient *)
Section Gini.
Import Py MultiCouncil Design.
Open Scope Z_scope.

Lemma rank_sum_shift (l : list Z) (k : Z) :
  rank_sum k l = rank_sum 1 l + (k - 1) * sum l.
Proof.
  revert k. induction l as [|x l IH]; intro k; cbn [rank_sum].
  - rewrite sum_nil. lia.
  - rewrite (IH (k + 1)), (IH (1 + 1)), sum_cons. lia.
Qed.

(** The generator expression of the code, read by index, is the rank sum. *)
Lemma indexed_sum_rank_sum (l : list Z) (k : Z) :
  sum (map (fun i => (Z.of_nat i + k) * nth i l 0) (seq 0 (List.length l)))
  = rank_sum k l.
Proof.
  revert k. induction l as [|x l IH]; intro k.
  - reflexivity.
  - cbn [List.length seq map]. rewrite sum_cons, <- seq_shift, map_map.
    cbn [nth rank_sum Z.of_nat]. rewrite <- (IH (k + 1)).
    f_equal. f_equal. apply map_ext. intro i.
    cbn [nth]. f_equal. lia.
Qed.

Lemma sum_nonneg (l : list Z) : Forall (fun x => 0 <= x) l -> 0 <= sum l.
Proof.
  induction 1; rewrite ?sum_nil, ?sum_cons; lia.
Qed.

Lemma sum_pos (l : list Z) :
  Forall (fun x => 0 <= x) l -> Exists (fun x => 0 < x) l -> 0 < sum l.
Proof.
  intros Hall Hex. induction Hex as [x l Hx | x l Hex IH];
    inversion Hall; subst; rewrite sum_cons.
  - pose proof (sum_nonneg l ltac:(assumption)). lia.
  - specialize (IH ltac:(assumption)). lia.
Qed.

Lemma sum_lower_bound (a : Z) (l : list Z) :
  Forall (Z.le a) l -> Z.of_nat (List.length l) * a <= sum l.
Proof.
  induction 1; cbn [List.length]; rewrite ?sum_nil, ?sum_cons; lia.
Qed.

(** In ascending order the rank sum is at least the sum taken at the
    mean rank: the numerator of the coefficient is not negative. *)
Lemma rank_sum_ascending (l : list Z) :
  StronglySorted Z.le l ->
  (Z.of_nat (List.length l) + 1) * sum l <= 2 * rank_sum 1 l.
Proof.
  induction 1 as [|a l Hs IH Hall].
  - rewrite sum_nil. simpl. lia.
  - cbn [rank_sum List.length]. rewrite (rank_sum_shift l (1 + 1)), sum_cons.
    pose proof (sum_lower_bound a l Hall). nia.
Qed.

(** No rank exceeds [n]. *)
Lemma rank_sum_upper (l : list Z) (k : Z) :
  0 <= k -> Forall (fun x => 0 <= x) l ->
  rank_sum k l <= (k + Z.of_nat (List.length l) - 1) * sum l.
Proof.
  intros Hk Hall. revert k Hk.
  induction Hall as [|x l Hx Hall IH]; intros k Hk.
  - cbn [rank_sum List.length]. rewrite sum_nil. lia.
  - cbn [rank_sum List.length]. rewrite sum_cons.
    specialize (IH (k + 1) ltac:(lia)).
    pose proof (sum_nonneg l Hall). nia.
Qed.

Lemma rank_sum_constant (c : Z) (l : list Z) :
  Forall (eq c) l ->
  2 * rank_sum 1 l = (Z.of_nat (List.length l) + 1) * sum l.
Proof.
  induction 1 as [|x l Hx Hall IH].
  - cbn [rank_sum List.length]. rewrite sum_nil. lia.
  - subst x. cbn [rank_sum List.length].
    rewrite (rank_sum_shift l (1 + 1)), sum_cons.
    assert (Hs : sum l = Z.of_nat (List.length l) * c).
    { clear IH. induction Hall; cbn [List.length]; rewrite ?sum_nil, ?sum_cons; subst; lia. }
    nia.
Qed.

Lemma all_equal_constant (l : list Z) :
  (forall x y, In x l -> In y l -> x = y) -> exists c, Forall (eq c) l.
Proof.
  destruct l as [|c l]; intro H.
  - exists 0. constructor.
  - exists c. apply Forall_forall. intros x Hx. apply H; [now left|exact Hx].
Qed.

(** What the code computes on a non-empty sequence, before any
    assumption on the values: numerator and denominator are the exact
    ones, wrapped into int64. *)
Lemma calculate_gini_int64 (values : list Z) :
  values <> [] ->
  calculate_gini values
  = np_sub
      (np_div (int64 (2 * rank_sum 1 (sorted values)))
              (int64 (Z.of_nat (List.length values) * sum values)))
      (Qred ((inject_Z (Z.of_nat (List.length values)) + 1)
             / inject_Z (Z.of_nat (List.length values)))).
Proof.
  intro Hne. unfold calculate_gini.
  destruct values as [|v vs] eqn:E; [congruence|]. rewrite <- E in *.
  replace (List.length values =? 0)%nat with false
    by (subst; reflexivity).
  rewrite int64_cumsum_last, sum_sorted.
  - unfold int64_mul.
    rewrite (int64_sum_map (fun i => (Z.of_nat i + 1) * nth i (sorted values) 0)).
    rewrite !int64_mul_r.
    rewrite <- (sorted_length values) at 1.
    rewrite (indexed_sum_rank_sum (sorted values) 1). reflexivity.
  - intro H. apply (f_equal (@List.length Z)) in H.
    rewrite sorted_length in H. subst. discriminate.
Qed.

(** Without overflow: for values that are not negative, nothing wraps
    as long as [2·n·Σx] is below [2^63]. *)
Lemma calculate_gini_unfold (values : list Z) :
  values <> [] ->
  Forall (fun x => 0 <= x) values ->
  2 * Z.of_nat (List.length values) * sum values < 2 ^ 63 ->
  calculate_gini values
  = np_sub
      (np_div (2 * rank_sum 1 (sorted values))
              (Z.of_nat (List.length values) * sum values))
      (Qred ((inject_Z (Z.of_nat (List.length values)) + 1)
             / inject_Z (Z.of_nat (List.length values)))).
Proof.
  intros Hne Hnn Hbound. rewrite calculate_gini_int64 by exact Hne.
  assert (Hnn' : Forall (fun x => 0 <= x) (sorted values))
    by (eapply Permutation_Forall; [apply sorted_perm|exact Hnn]).
  pose proof (sum_nonneg values Hnn) as Hs.
  pose proof (rank_sum_upper (sorted values) 1 ltac:(lia) Hnn') as Hhi.
  rewrite sorted_length, sum_sorted in Hhi.
  pose proof (rank_sum_ascending (sorted values) (sorted_sorted values)) as Hlo.
  rewrite sorted_length, sum_sorted in Hlo.
  rewrite !int64_small; [reflexivity|nia|nia].
Qed.

(** An all-zero, non-empty distribution: the quotient is [0/0]. *)
Lemma calculate_gini_all_zero (values : list Z) :
  values <> [] -> Forall (eq 0) values -> calculate_gini values = NaN.
Proof.
  intros Hne Hz. rewrite calculate_gini_int64 by assumption.
  assert (Hs : sum values = 0).
  { clear Hne. induction Hz; rewrite ?sum_nil, ?sum_cons; subst; lia. }
  assert (Hr : 2 * rank_sum 1 (sorted values) = 0).
  { rewrite (rank_sum_constant 0).
    - rewrite sum_sorted, Hs. lia.
    - eapply Permutation_Forall; [apply sorted_perm|assumption]. }
  rewrite Hr, Hs, Z.mul_0_r. reflexivity.
Qed.

(** The coefficient as one fraction over [n·Σx]. *)
Lemma gini_single_fraction (w n s : Z) :
  n <> 0 -> s <> 0 ->
  (inject_Z (2 * w) / inject_Z (n * s) - (inject_Z n + 1) / inject_Z n
   == inject_Z (2 * w - (n + 1) * s) / inject_Z (n * s))%Q.
Proof.
  intros Hn Hs.
  assert (Hn' : ~ (inject_Z n == 0)%Q)
    by (change 0%Q with (inject_Z 0); rewrite inject_Z_injective; exact Hn).
  assert (Hs' : ~ (inject_Z s == 0)%Q)
    by (change 0%Q with (inject_Z 0); rewrite inject_Z_injective; exact Hs).
  unfold Z.sub. rewrite !inject_Z_plus, inject_Z_opp, !inject_Z_mult, inject_Z_plus.
  change (inject_Z 2) with 2%Q. change (inject_Z 1) with 1%Q.
  field. split; assumption.
Qed.

Lemma gini_formula_sorted (values : list Z) :
  (gini_formula (sorted values)
   == inject_Z (2 * rank_sum 1 (sorted values))
      / inject_Z (Z.of_nat (List.length values) * sum values)
      - (inject_Z (Z.of_nat (List.length values)) + 1)
        / inject_Z (Z.of_nat (List.length values)))%Q.
Proof.
  unfold gini_formula. rewrite sorted_length, sum_sorted, !inject_Z_mult.
  change (inject_Z 2) with 2%Q. reflexivity.
Qed.

End Gini.

Section GiniClaims.
Import Py MultiCouncil Design.
Open Scope Z_scope.

(** C1 (the code departs from the claim).  On the empty sequence
    [calculate_gini] returns 0.  On a non-empty all-zero sequence such
    as [[0, 0]] nothing guards the division by [n·Σx = 0]: numpy
    evaluates [0/0], and the function returns [nan] instead of 0.  No
    exception is raised in either case. *)
Theorem calculate_gini_zero_sum_is_nan :
  calculate_gini [] = Fin 0
  /\ calculate_gini [0; 0] = NaN
  /\ calculate_gini [0] = NaN
  /\ NaN <> Fin 0.
Proof.
  split; [reflexivity|].
  split; [apply calculate_gini_all_zero; [discriminate|repeat constructor]|].
  split; [apply calculate_gini_all_zero; [discriminate|repeat constructor]|].
  discriminate.
Qed.

(** C8 (as the code has it).  For every non-empty sequence of
    non-negative values with at least one positive value, and with
    [2·n·Σx] below [2^63], so that no int64 product or sum of the
    computation wraps around: [calculate_gini] returns a finite number
    [g]; [g] is the design's formula
    [(2·Σ i·x_i)/(n·Σx_i) − (n+1)/n] taken on the values in ascending
    order with ranks from 1; [0 <= g < 1]; and [g] is 0 when all values
    are equal. *)
Theorem calculate_gini_formula_and_range (values : list Z) :
  values <> [] ->
  Forall (fun x => 0 <= x) values ->
  Exists (fun x => 0 < x) values ->
  2 * Z.of_nat (List.length values) * sum values < 2 ^ 63 ->
  StronglySorted Z.le (sorted values)
  /\ Permutation values (sorted values)
  /\ exists g : Q,
       calculate_gini values = Fin g
       /\ (g == gini_formula (sorted values))%Q
       /\ (0 <= g)%Q /\ (g < 1)%Q
       /\ ((forall x y, In x values -> In y values -> x = y) -> (g == 0)%Q).
Proof.
  intros Hne Hnn Hpos Hbound.
  split; [apply sorted_sorted|]. split; [apply sorted_perm|].
  rewrite calculate_gini_unfold by assumption. clear Hbound.
  set (n := Z.of_nat (List.length values)).
  set (w := rank_sum 1 (sorted values)).
  assert (Hn : 0 < n).
  { unfold n. destruct values; [congruence|]. cbn [List.length]. lia. }
  assert (Hs : 0 < sum values) by now apply sum_pos.
  assert (Hd : 0 < n * sum values) by nia.
  assert (Hnn' : Forall (fun x => 0 <= x) (sorted values))
    by (eapply Permutation_Forall; [apply sorted_perm|assumption]).
  assert (Hlo : (n + 1) * sum values <= 2 * w).
  { pose proof (rank_sum_ascending (sorted values) (sorted_sorted values)) as H.
    rewrite sorted_length, sum_sorted in H. exact H. }
  assert (Hhi : w <= n * sum values).
  { pose proof (rank_sum_upper (sorted values) 1 ltac:(lia) Hnn') as H.
    rewrite sorted_length, sum_sorted in H. fold n in H. fold w in H.
    replace (1 + n - 1) with n in H by lia. exact H. }
  assert (Hg : forall g : Q,
             (g == inject_Z (2 * w - (n + 1) * sum values)
                   / inject_Z (n * sum values))%Q ->
             (0 <= g)%Q /\ (g < 1)%Q
             /\ ((forall x y, In x values -> In y values -> x = y) -> (g == 0)%Q)).
  { intros g Eg.
    assert (HdQ : (0 < inject_Z (n * sum values))%Q)
      by (change 0%Q with (inject_Z 0); rewrite <- Zlt_Qlt; exact Hd).
    split; [|split].
    - rewrite Eg. apply Qle_shift_div_l; [exact HdQ|].
      rewrite Qmult_0_l. change 0%Q with (inject_Z 0).
      rewrite <- Zle_Qle. lia.
    - rewrite Eg. apply Qlt_shift_div_r; [exact HdQ|].
      rewrite Qmult_1_l, <- Zlt_Qlt. nia.
    - intro Heq. rewrite Eg.
      destruct (all_equal_constant values Heq) as [c Hc].
      apply (Permutation_Forall (sorted_perm values)) in Hc.
      pose proof (rank_sum_constant c (sorted values) Hc) as H.
      rewrite sorted_length, sum_sorted in H. fold n in H. fold w in H.
      replace (2 * w - (n + 1) * sum values) with 0 by lia.
      unfold Qdiv. apply Qmult_0_l. }
  unfold np_div. replace (n * sum values =? 0) with false
    by (symmetry; apply Z.eqb_neq; lia).
  cbn [np_sub]. eexists. split; [reflexivity|].
  assert (E : (Qred (Qred (inject_Z (2 * w) / inject_Z (n * sum values))
                     - Qred ((inject_Z n + 1) / inject_Z n))
               == inject_Z (2 * w - (n + 1) * sum values)
                  / inject_Z (n * sum values))%Q).
  { rewrite !Qred_correct. apply gini_single_fraction; lia. }
  split; [|apply Hg; exact E].
  rewrite gini_formula_sorted. fold n. fold w. rewrite !Qred_correct. reflexivity.
Qed.

(** C8 at the totals [[1, 3]]. *)
Lemma calculate_gini_formula_and_range_witness :
  [1; 3] <> []
  /\ Forall (fun x => 0 <= x) [1; 3]
  /\ Exists (fun x => 0 < x) [1; 3]
  /\ 2 * Z.of_nat (List.length [1; 3]) * sum [1; 3] < 2 ^ 63
  /\ StronglySorted Z.le (sorted [1; 3])
  /\ Permutation [1; 3] (sorted [1; 3])
  /\ exists g : Q,
       calculate_gini [1; 3] = Fin g
       /\ Qeq g (gini_formula (sorted [1; 3]))
       /\ (0 <= g)%Q /\ (g < 1)%Q
       /\ ((forall x y : Z, In x [1; 3] -> In y [1; 3] -> x = y) -> (g == 0)%Q).
Proof.
  assert (H1 : [1; 3] <> []) by discriminate.
  assert (H2 : Forall (fun x => 0 <= x) [1; 3]) by (repeat constructor; lia).
  assert (H3 : Exists (fun x => 0 < x) [1; 3]) by (left; lia).
  assert (H4 : 2 * Z.of_nat (List.length [1; 3]) * sum [1; 3] < 2 ^ 63)
    by reflexivity.
  split; [exact H1|]. split; [exact H2|]. split; [exact H3|]. split; [exact H4|].
  exact (calculate_gini_formula_and_range [1; 3] H1 H2 H3 H4).
Defined.

(** C8, the claim as stated fails.  The totals are int64 values, and
    for the two equal totals [[2^62, 2^62]] the cumulative sum wraps to
    [-2^63], the denominator [2·(-2^63)] wraps to 0 and the numerator
    is [-2^63]: the code returns [-inf], which is neither 0 nor in
    [[0, 1)]. *)
Lemma calculate_gini_wraps_around :
  Forall (fun x => 0 <= x < 2 ^ 63) [2 ^ 62; 2 ^ 62]
  /\ Exists (fun x => 0 < x) [2 ^ 62; 2 ^ 62]
  /\ int64_cumsum (sorted [2 ^ 62; 2 ^ 62]) = [2 ^ 62; - 2 ^ 63]
  /\ calculate_gini [2 ^ 62; 2 ^ 62] = NInf
  /\ (forall g : Q, calculate_gini [2 ^ 62; 2 ^ 62] <> Fin g).
Proof.
  split; [repeat constructor; lia|]. split; [left; lia|].
  split; [vm_compute; reflexivity|]. split; [vm_compute; reflexivity|].
  intros g H. vm_compute in H. discriminate.
Qed.

(** The value behind the witness: [Gini([1, 3]) = 1/4]. *)
Example calculate_gini_1_3 : calculate_gini [1; 3] = Fin (1 # 4).
Proof. reflexivity. Qed.

Example calculate_gini_equal : calculate_gini [5; 5; 5] = Fin 0.
Proof. reflexivity. Qed.

End GiniClaims.

(** ** The group mapping and its inversion *)
Section GroupMapping.
Import Py MultiCouncil Design.
Open Scope string_scope.

Lemma dict_get_set {V : Type} (d : dict V) (k k' : string) (v : V) :
  dict_get (dict_set d k v) k'
  = if String.eqb k' k then Some v else dict_get d k'.
Proof.
  induction d as [|[k0 v0] d IH]; cbn [dict_set dict_get].
  - reflexivity.
  - destruct (String.eqb_spec k k0) as [->|Hk]; cbn [dict_get].
    + destruct (String.eqb_spec k' k0); reflexivity.
    + rewrite IH. destruct (String.eqb_spec k' k0) as [->|Hk'].
      * destruct (String.eqb_spec k0 k); [congruence|reflexivity].
      * reflexivity.
Qed.

(** Each assignment of the comprehension overwrites the entry of an
    earlier pair with the same target: the last pair wins. *)
Lemma invert_from (d acc : dict string) (b : string) :
  dict_get (fold_left (fun acc kv => dict_set acc (snd kv) (fst kv)) d acc) b
  = match last_source d b with
    | Some a => Some a
    | None => dict_get acc b
    end.
Proof.
  revert acc. induction d as [|[a b'] d IH]; intro acc; cbn [fold_left last_source].
  - reflexivity.
  - rewrite IH. destruct (last_source d b); [reflexivity|].
    cbn [fst snd]. rewrite dict_get_set, String.eqb_sym.
    now destruct (String.eqb b' b).
Qed.

Lemma invert_last_wins (d : dict string) (b : string) :
  dict_get (invert d) b = last_source d b.
Proof.
  unfold invert. rewrite invert_from. now destruct (last_source d b).
Qed.

(** C3 (as the code has it).  The reverse table sends every target
    name to its last source in table order: the dict comprehension
    overwrites.  So the round trip recovers [a] for every explicit pair
    [(a, b)] except the first of the two pairs of the one collision
    target, 'Customer & Community', whose reverse lookup is the later
    key, the one that ends in a space. *)
Theorem reverse_group_mappings_last_wins :
  (forall b, dict_get REVERSE_GROUP_MAPPINGS b = last_source GROUP_MAPPINGS b)
  /\ (forall a b, In (a, b) GROUP_MAPPINGS ->
        a = "Neighbourhoods & Communities"
        \/ dict_get REVERSE_GROUP_MAPPINGS b = Some a)
  /\ dict_get REVERSE_GROUP_MAPPINGS "Customer & Community"
     = Some "Neighbourhoods & Communities ".
Proof.
  split; [intro b; apply invert_last_wins|].
  split; [|reflexivity].
  intros a b Hin. unfold GROUP_MAPPINGS in Hin. cbn [In] in Hin.
  repeat (destruct Hin as [Hin|Hin];
          [injection Hin as <- <-; first [now left | right; reflexivity]|]).
  contradiction.
Qed.

(** C3, the claim as stated fails: 'Neighbourhoods & Communities' is
    the first source of 'Customer & Community' in table order, and the
    reverse lookup returns the other one. *)
Lemma reverse_group_mappings_not_first_wins :
  In ("Neighbourhoods & Communities", "Customer & Community") GROUP_MAPPINGS
  /\ first_source GROUP_MAPPINGS "Customer & Community"
     = Some "Neighbourhoods & Communities"
  /\ dict_get REVERSE_GROUP_MAPPINGS "Customer & Community"
     = Some "Neighbourhoods & Communities "
  /\ dict_get REVERSE_GROUP_MAPPINGS "Customer & Community"
     <> first_source GROUP_MAPPINGS "Customer & Community".
Proof.
  split; [right; right; left; reflexivity|].
  split; [reflexivity|]. split; [reflexivity|]. discriminate.
Qed.

End GroupMapping.

(** ** The Lorenz curve *)
Section Lorenz.
Import Py Design.
Open Scope Z_scope.

Lemma cumsum_from_prefix (l : list Z) (acc : Z) :
  cumsum_from acc l
  = map (fun i => acc + sum (firstn i l)) (seq 1 (List.length l)).
Proof.
  revert acc. induction l as [|x l IH]; intro acc.
  - reflexivity.
  - cbn [cumsum_from List.length]. rewrite IH.
    change (seq 1 (S (List.length l))) with (1%nat :: seq 2 (List.length l)).
    rewrite <- (seq_shift (List.length l) 1), map_cons, map_map.
    cbn [firstn]. rewrite sum_cons, sum_nil.
    f_equal; [lia|]. apply map_ext. intro i.
    rewrite sum_cons. lia.
Qed.

Lemma cumsum_prefix (l : list Z) :
  cumsum l = map (fun i => sum (firstn i l)) (seq 1 (List.length l)).
Proof. unfold cumsum. now rewrite cumsum_from_prefix. Qed.

Lemma np_div_same (s : Z) : s <> 0 -> np_div s s = Fin 1.
Proof.
  intro Hs. unfold np_div.
  replace (s =? 0) with false by (symmetry; now apply Z.eqb_neq).
  f_equal. change 1%Q with (Qred 1). apply Qred_complete.
  apply Qmult_inv_r. change 0%Q with (inject_Z 0).
  now rewrite inject_Z_injective.
Qed.

Lemma np_div_zero (s : Z) : s <> 0 -> np_div 0 s = Fin 0.
Proof.
  intro Hs. unfold np_div.
  replace (s =? 0) with false by (symmetry; now apply Z.eqb_neq).
  reflexivity.
Qed.

(** The two coordinate sequences of the plotted trace. *)
Local Abbreviation plotted_x totals :=
  (map (fun i => np_div (Z.of_nat i) (Z.of_nat (List.length totals)))
       (seq 0 (List.length totals))).

Local Abbreviation plotted_y totals :=
  (map (fun i => np_div (sum (firstn i (sorted totals))) (sum totals))
       (seq 1 (List.length totals))).

Lemma location_concentration_eq (totals : list Z) :
  MultiCouncil.location_concentration totals
  = (plotted_x totals, plotted_y totals,
     MultiCouncil.calculate_gini (sorted totals)).
Proof.
  unfold MultiCouncil.location_concentration.
  rewrite cumsum_prefix, map_map, sorted_length, sum_sorted. reflexivity.
Qed.

Lemma concentration_chart_eq (totals : list Z) :
  MyWcc.concentration_chart totals = (plotted_x totals, plotted_y totals).
Proof.
  unfold MyWcc.concentration_chart.
  rewrite cumsum_prefix, map_map, sorted_length, sum_sorted. reflexivity.
Qed.

Lemma plotted_y_last (totals : list Z) :
  0 < sum totals -> last (plotted_y totals) NaN = Fin 1.
Proof.
  intro Hs.
  destruct (List.length totals) as [|m] eqn:Hn.
  - apply length_zero_iff_nil in Hn. subst. rewrite sum_nil in Hs. lia.
  - rewrite seq_S, map_app. cbn [map]. rewrite last_last.
    replace (1 + m)%nat with (List.length (sorted totals))
      by (rewrite sorted_length; lia).
    rewrite firstn_all, sum_sorted. apply np_div_same. lia.
Qed.

(** The design's curve against the plotted one: the design has one
    more abscissa at the end, [n/n = 1], and one more ordinate at the
    start, [0]. *)
Lemma lorenz_formula_split (totals : list Z) :
  totals <> [] -> sum totals <> 0 ->
  map fst (lorenz_formula (sorted totals)) = plotted_x totals ++ [Fin 1]
  /\ map snd (lorenz_formula (sorted totals)) = Fin 0 :: plotted_y totals.
Proof.
  intros Hne Hs. unfold lorenz_formula.
  rewrite !map_map, sorted_length, sum_sorted. cbn [fst snd].
  assert (Hn : Z.of_nat (List.length totals) <> 0)
    by (destruct totals; [congruence|cbn [List.length]; lia]).
  split.
  - rewrite Nat.add_1_r, seq_S, map_app. cbn [map Nat.add].
    now rewrite np_div_same.
  - rewrite Nat.add_1_r. cbn [seq map firstn]. rewrite sum_nil.
    now rewrite np_div_zero.
Qed.

End Lorenz.

Section LorenzClaims.
Import Py Design.
Open Scope Z_scope.

(** C6 (where the code departs from the claim).  Both dashboards sort
    the totals ascending and plot [n] points, none of them added as an
    origin: the abscissas are [i/n] for [i = 0..n-1] and the ordinates
    are the cumulative shares [cumsum(x)_k / Σx] for [k = 1..n].  The
    final cumulative share is 1 whenever [Σx > 0].  Against the [n+1]
    points of the Lorenz curve, which the comments of both functions
    name, the abscissa 1 and the ordinate 0 are the ones left out: each
    cumulative share is drawn one step to the left of its place. *)
Theorem lorenz_coordinates_as_plotted (totals : list Z) :
  let n := List.length totals in
  let x := sorted totals in
  let xs := map (fun i => np_div (Z.of_nat i) (Z.of_nat n)) (seq 0 n) in
  let ys := map (fun k => np_div (sum (firstn k x)) (sum totals)) (seq 1 n) in
  StronglySorted Z.le x
  /\ MultiCouncil.location_concentration totals
     = (xs, ys, MultiCouncil.calculate_gini x)
  /\ MyWcc.concentration_chart totals = (xs, ys)
  /\ List.length xs = n /\ List.length ys = n
  /\ (0 < sum totals -> last ys NaN = Fin 1)
  /\ (totals <> [] -> sum totals <> 0 ->
      map fst (lorenz_formula x) = xs ++ [Fin 1]
      /\ map snd (lorenz_formula x) = Fin 0 :: ys).
Proof.
  cbv zeta.
  split; [apply sorted_sorted|].
  split; [apply location_concentration_eq|].
  split; [apply concentration_chart_eq|].
  split; [now rewrite length_map, length_seq|].
  split; [now rewrite length_map, length_seq|].
  split; [apply plotted_y_last|apply lorenz_formula_split].
Qed.

(** C6, the claim as stated fails.  For the totals [[3, 1]] the design
    asks for the three points (0,0), (1/2,1/4), (1,1); both dashboards
    plot the two points (0,1/4), (1/2,1), and the origin is not one of
    them.  For the equal totals [[2, 2]] the Lorenz curve is the line
    of equality, (0,0), (1/2,1/2), (1,1); both dashboards plot
    (0,1/2), (1/2,1), above that line. *)
Lemma lorenz_curve_lacks_origin :
  lorenz_formula (sorted [3; 1])
  = [(Fin 0, Fin 0); (Fin (1 # 2), Fin (1 # 4)); (Fin 1, Fin 1)]
  /\ (let '(x, y, _) := MultiCouncil.location_concentration [3; 1] in
      combine x y) = [(Fin 0, Fin (1 # 4)); (Fin (1 # 2), Fin 1)]
  /\ (let '(x, y) := MyWcc.concentration_chart [3; 1] in
      combine x y) = [(Fin 0, Fin (1 # 4)); (Fin (1 # 2), Fin 1)]
  /\ ~ In (Fin 0, Fin 0) [(Fin 0, Fin (1 # 4)); (Fin (1 # 2), Fin 1)]
  /\ lorenz_formula (sorted [2; 2])
     = [(Fin 0, Fin 0); (Fin (1 # 2), Fin (1 # 2)); (Fin 1, Fin 1)]
  /\ (let '(x, y, _) := MultiCouncil.location_concentration [2; 2] in
      combine x y) = [(Fin 0, Fin (1 # 2)); (Fin (1 # 2), Fin 1)]
  /\ (let '(x, y) := MyWcc.concentration_chart [2; 2] in
      combine x y) = [(Fin 0, Fin (1 # 2)); (Fin (1 # 2), Fin 1)].
Proof.
  split; [reflexivity|]. split; [reflexivity|]. split; [reflexivity|].
  split; [intros [H|[H|[]]]; discriminate|].
  split; [reflexivity|]. split; reflexivity.
Qed.

End LorenzClaims.

(** ** The Shannon diversity index *)
Section Shannon.
Import Py MultiCouncil Design.
Open Scope R_scope.

Lemma diversity_index_formula (job_counts : list N) :
  sum (map Z.of_N job_counts) <> 0%Z ->
  diversity_index job_counts
  = shannon_formula
      (map (fun x_i => IZR (Z.of_N x_i) / IZR (sum (map Z.of_N job_counts)))
           job_counts).
Proof.
  intro Hs. unfold diversity_index, shannon_formula, job_probs.
  replace (sum (map Z.of_N job_counts) =? 0)%Z with false
    by (symmetry; now apply Z.eqb_neq).
  now rewrite !map_map.
Qed.

Lemma ln_count_pos (n : nat) : (2 <= n)%nat -> 0 < ln (INR n).
Proof.
  intro Hn. rewrite <- ln_1. apply ln_increasing; [lra|].
  change 1 with (INR 1). apply lt_INR. lia.
Qed.

Lemma diversity_pct_few (job_counts : list N) :
  (List.length job_counts <= 1)%nat -> diversity_pct job_counts = 0.
Proof.
  intro Hn. unfold diversity_pct, max_diversity.
  destruct (List.length job_counts) as [|[|n]]; [reflexivity| |lia].
  cbn [INR]. rewrite ln_1. destruct (Rlt_dec 0 0); [lra|reflexivity].
Qed.

Lemma diversity_pct_many (job_counts : list N) :
  (2 <= List.length job_counts)%nat ->
  max_diversity job_counts = Log (ln (INR (List.length job_counts)))
  /\ diversity_pct job_counts
     = diversity_index job_counts / ln (INR (List.length job_counts)) * 100.
Proof.
  intro Hn. pose proof (ln_count_pos _ Hn) as Hpos.
  unfold diversity_pct, max_diversity.
  destruct (List.length job_counts) as [|n] eqn:E; [lia|].
  split; [reflexivity|].
  destruct (Rlt_dec 0 (ln (INR (S n)))); [reflexivity|contradiction].
Qed.

Lemma ln_4_gt_1 : 1 < ln 4.
Proof.
  rewrite <- (ln_exp 1) at 1. apply ln_increasing; [apply exp_pos|].
  pose proof exp_le_3. lra.
Qed.

Lemma ln_1_plus_lt (x : R) : 0 < x -> ln (1 + x) < x.
Proof.
  intro Hx. rewrite <- (ln_exp x) at 2.
  apply ln_increasing; [lra|]. apply exp_ineq1. lra.
Qed.

(** Four equal categories: the index is [−ln(1/4 + ε)]. *)
Lemma diversity_index_four_equal :
  diversity_index [5; 5; 5; 5]%N = - ln (/ 4 + 1 / 10 ^ 10).
Proof.
  rewrite diversity_index_formula by (vm_compute; discriminate).
  unfold shannon_formula.
  replace (sum (map Z.of_N [5; 5; 5; 5]%N)) with 20%Z by reflexivity.
  cbn [map fold_right Z.of_N].
  replace (5 / 20) with (/ 4) by lra. lra.
Qed.

Lemma ln_quarter_eps_bounds :
  - ln 4 < ln (/ 4 + 1 / 10 ^ 10) < - ln 4 + 4 / 10 ^ 10.
Proof.
  assert (He : 0 < 1 / 10 ^ 10) by (apply Rdiv_lt_0_compat; [lra|apply pow_lt; lra]).
  split.
  - rewrite <- (ln_Rinv 4) by lra. apply ln_increasing; lra.
  - replace (/ 4 + 1 / 10 ^ 10) with (/ 4 * (1 + 4 * (1 / 10 ^ 10))) by lra.
    rewrite ln_mult by lra. rewrite (ln_Rinv 4) by lra.
    pose proof (ln_1_plus_lt (4 * (1 / 10 ^ 10)) ltac:(lra)). lra.
Qed.

Lemma diversity_pct_four_equal_bounds :
  100 - 4 / 10 ^ 8 < diversity_pct [5; 5; 5; 5]%N < 100.
Proof.
  destruct (diversity_pct_many [5; 5; 5; 5]%N ltac:(cbn; lia)) as [_ ->].
  rewrite diversity_index_four_equal.
  change (INR (List.length [5; 5; 5; 5]%N)) with (INR 4).
  replace (INR 4) with 4 by (cbn [INR]; lra).
  pose proof ln_4_gt_1 as Hm. pose proof ln_quarter_eps_bounds as [Hlo Hhi].
  set (m := ln 4) in *. set (L := ln (/ 4 + 1 / 10 ^ 10)) in *.
  assert (Hi : 0 < / m < 1).
  { split; [apply Rinv_0_lt_compat; lra|].
    rewrite <- Rinv_1. apply Rinv_lt_contravar; lra. }
  replace (- L / m * 100) with (100 - (m + L) * / m * 100) by (field; lra).
  assert (He : 4 / 10 ^ 10 * 100 = 4 / 10 ^ 8) by (field; split; apply pow_nonzero; lra).
  assert (Hd : 0 < m + L < 4 / 10 ^ 10) by lra.
  assert (0 < (m + L) * / m < 4 / 10 ^ 10) by nra.
  lra.
Qed.

End Shannon.

Section ShannonClaims.
Import Py MultiCouncil Design.
Open Scope R_scope.

(** C9 (as the code has it).  With a positive total the index is
    [H = −Σ p_i·ln(p_i + ε)], [p_i = x_i/Σx], [ε = 1e-10]; for [n >= 2]
    categories [H_max = ln n] and [diversityPct = H/H_max·100]; for
    [n <= 1] the percentage is 0, as for the single category [[10]].
    Four equal categories [[5,5,5,5]] give [H = −ln(1/4 + ε)], so the
    percentage lies strictly between [100 − 4e-8] and [100]: the
    epsilon guard keeps it below 100. *)
Theorem diversity_pct_by_cases :
  (forall job_counts,
     sum (map Z.of_N job_counts) <> 0%Z ->
     diversity_index job_counts
     = shannon_formula
         (map (fun x_i => IZR (Z.of_N x_i) / IZR (sum (map Z.of_N job_counts)))
              job_counts))
  /\ (forall job_counts,
        (2 <= List.length job_counts)%nat ->
        max_diversity job_counts = Log (ln (INR (List.length job_counts)))
        /\ diversity_pct job_counts
           = diversity_index job_counts / ln (INR (List.length job_counts)) * 100)
  /\ (forall job_counts,
        (List.length job_counts <= 1)%nat -> diversity_pct job_counts = 0)
  /\ diversity_pct [10%N] = 0
  /\ diversity_index [5; 5; 5; 5]%N = - ln (/ 4 + 1 / 10 ^ 10)
  /\ 100 - 4 / 10 ^ 8 < diversity_pct [5; 5; 5; 5]%N < 100.
Proof.
  split; [exact diversity_index_formula|].
  split; [exact diversity_pct_many|].
  split; [exact diversity_pct_few|].
  split; [apply diversity_pct_few; cbn; lia|].
  split; [exact diversity_index_four_equal|exact diversity_pct_four_equal_bounds].
Qed.

(** C9, the claim as stated fails: for four equal categories the
    percentage is not 100. *)
Lemma diversity_pct_four_equal_below_100 :
  diversity_pct [5; 5; 5; 5]%N < 100
  /\ diversity_pct [5; 5; 5; 5]%N <> 100.
Proof.
  pose proof diversity_pct_four_equal_bounds. split; lra.
Qed.

End ShannonClaims.

(** ** groupby and the span of control *)
Section SpanOfControl.
Import Py MyHcc Design.
Open Scope Z_scope.
Open Scope string_scope.

(** A row of the file as it stands in [df]. *)
Local Abbreviation prepared :=
  (fun r : position =>
     {| Job_Title := str_strip (Job_Title r);
        Group := str_strip (Group r);
        Division := str_strip (Division r);
        Manager_Job_Title :=
          str_strip (fillna "No Manager" (Manager_Job_Title r)) |}).

Lemma in_dropna (column : list (option string)) (x : string) :
  In x (dropna column) <-> In (Some x) column.
Proof.
  unfold dropna. rewrite in_flat_map. split.
  - intros [[y|] [Hy Hx]]; [|contradiction].
    destruct Hx as [<-|[]]. exact Hy.
  - intro H. exists (Some x). split; [exact H|now left].
Qed.

Lemma in_group_keys (column : list (option string)) (k : string) :
  In k (group_keys column) <-> In (Some k) column.
Proof.
  unfold group_keys. split; intro H.
  - apply (Permutation_in _ (Permutation_sym (sort_by_perm _ _))) in H.
    apply nodup_In in H. now apply in_dropna.
  - apply in_dropna, (nodup_In string_dec) in H.
    eapply Permutation_in; [apply sort_by_perm|exact H].
Qed.

Lemma group_keys_nodup (column : list (option string)) :
  NoDup (group_keys column).
Proof.
  unfold group_keys.
  eapply Permutation_NoDup; [apply sort_by_perm|apply NoDup_nodup].
Qed.

Lemma size_of_group (column : list (option string)) (k : string) :
  sum (map snd (filter (fun r : option string * Z => col_eq (fst r) k)
                       (map (fun v => (v, 1)) column)))
  = Z.of_nat (List.length (filter (fun v => col_eq v k) column)).
Proof.
  induction column as [|v column IH]; [reflexivity|].
  cbn [map filter fst]. destruct (col_eq v k); cbn [map snd List.length].
  - rewrite sum_cons, IH. lia.
  - exact IH.
Qed.

(** [groupby(column).size()]: one entry for each value that occurs, with
    the number of its occurrences. *)
Lemma groupby_size_spec (column : list (option string)) (k : string) (c : Z) :
  In (k, c) (groupby_size column)
  <-> In (Some k) column
      /\ c = Z.of_nat (List.length (filter (fun v => col_eq v k) column)).
Proof.
  unfold groupby_size, groupby_sum. rewrite in_map_iff, map_map.
  cbn [fst]. rewrite map_id. split.
  - intros [k' [E Hk]]. injection E as -> <-.
    rewrite in_group_keys in Hk. split; [exact Hk|apply size_of_group].
  - intros [Hk ->]. exists k. split.
    + f_equal. apply size_of_group.
    + now apply in_group_keys.
Qed.

Lemma filter_column (data : list position) (k : string) :
  List.length (filter (fun v => col_eq v k) (map Manager_Job_Title data))
  = List.length (filter (fun r => col_eq (Manager_Job_Title r) k) data).
Proof.
  induction data as [|r data IH]; [reflexivity|].
  cbn [map filter]. destruct (col_eq (Manager_Job_Title r) k); cbn [List.length]; lia.
Qed.

Lemma col_eq_true (v : option string) (k : string) :
  col_eq v k = true <-> v = Some k.
Proof.
  destruct v as [x|]; cbn [col_eq].
  - rewrite String.eqb_eq. split; congruence.
  - split; discriminate.
Qed.

(** Dropping the rows of another manager title does not change the
    span of [m]. *)
Lemma direct_reports_filter (data : list position) (m other : string) :
  m <> other ->
  direct_reports (filter (fun r => col_ne (Manager_Job_Title r) other) data) m
  = direct_reports data m.
Proof.
  intro Hm. unfold direct_reports. f_equal. f_equal.
  induction data as [|r data IH]; [reflexivity|].
  cbn [filter]. unfold col_ne at 1.
  destruct (col_eq (Manager_Job_Title r) other) eqn:Eo; cbn [negb filter].
  - apply col_eq_true in Eo.
    destruct (col_eq (Manager_Job_Title r) m) eqn:Em; [|exact IH].
    apply col_eq_true in Em. congruence.
  - now rewrite IH.
Qed.

(** The entries of [manager_stats]: the manager titles other than the
    placeholder that occur in the data, each with its span. *)
Lemma manager_stats_spec (data : list position) (m : string) (c : Z) :
  In (m, c) (manager_stats data)
  <-> m <> "No Manager"
      /\ In (Some m) (map Manager_Job_Title data)
      /\ c = direct_reports data m.
Proof.
  unfold manager_stats. rewrite groupby_size_spec, filter_column.
  fold (direct_reports
          (filter (fun r => col_ne (Manager_Job_Title r) "No Manager") data) m).
  rewrite !in_map_iff. split.
  - intros [[r [Er Hr]] ->]. apply filter_In in Hr. destruct Hr as [Hr Hne].
    assert (Hm : m <> "No Manager").
    { intros ->. unfold col_ne in Hne. rewrite Er in Hne. cbn in Hne. discriminate. }
    split; [exact Hm|]. split; [now exists r|].
    now apply direct_reports_filter.
  - intros [Hm [[r [Er Hr]] ->]]. split.
    + exists r. split; [exact Er|]. apply filter_In. split; [exact Hr|].
      unfold col_ne. rewrite Er. cbn [col_eq].
      destruct (String.eqb_spec m "No Manager"); [contradiction|reflexivity].
    + symmetry. now apply direct_reports_filter.
Qed.

(** The table the two charts rank has the same entries. *)
Lemma manager_counts_spec (data : list position) (m : string) (c : Z) :
  In (m, c) (filter (fun e : string * Z => negb (fst e =? "No Manager"))
                    (groupby_size (map Manager_Job_Title data)))
  <-> In (m, c) (manager_stats data).
Proof.
  rewrite manager_stats_spec, filter_In, groupby_size_spec, filter_column.
  cbn [fst]. fold (direct_reports data m).
  destruct (String.eqb_spec m "No Manager") as [->|Hm]; cbn [negb].
  - split; [intros [_ H]; discriminate|intros [H _]; congruence].
  - tauto.
Qed.

Lemma in_sort_values_descending (table : dict Z) (e : string * Z) :
  In e (sort_values_descending table) <-> In e table.
Proof.
  unfold sort_values_descending. split; apply Permutation_in;
    [apply Permutation_sym|]; apply sort_by_perm.
Qed.

Lemma in_firstn {A : Type} (n : nat) (l : list A) (x : A) :
  In x (firstn n l) -> In x l.
Proof.
  intro H. rewrite <- (firstn_skipn n l). apply in_or_app. now left.
Qed.

Lemma fold_max_spec (cs : list Z) (c : Z) :
  In (fold_left Z.max cs c) (c :: cs)
  /\ Forall (fun v => (v <= fold_left Z.max cs c)%Z) (c :: cs).
Proof.
  revert c. induction cs as [|x cs IH]; intro c; cbn [fold_left].
  - split; [now left|repeat constructor; lia].
  - destruct (IH (Z.max c x)) as [Hin Hall].
    inversion Hall as [|? ? Hm Hcs]; subst. split.
    + destruct Hin as [Hin|Hin]; [|now right; right].
      rewrite <- Hin. destruct (Z.max_spec c x) as [[_ ->]|[_ ->]];
        [right; now left|now left].
    + constructor; [lia|]. constructor; [lia|exact Hcs].
Qed.

Lemma fold_min_spec (cs : list Z) (c : Z) :
  In (fold_left Z.min cs c) (c :: cs)
  /\ Forall (fun v => (fold_left Z.min cs c <= v)%Z) (c :: cs).
Proof.
  revert c. induction cs as [|x cs IH]; intro c; cbn [fold_left].
  - split; [now left|repeat constructor; lia].
  - destruct (IH (Z.min c x)) as [Hin Hall].
    inversion Hall as [|? ? Hm Hcs]; subst. split.
    + destruct Hin as [Hin|Hin]; [|now right; right].
      rewrite <- Hin. destruct (Z.min_spec c x) as [[_ ->]|[_ ->]];
        [now left|right; now left].
    + constructor; [lia|]. constructor; [lia|exact Hcs].
Qed.

Lemma forallb_false_exists {A : Type} (f : A -> bool) (l : list A) :
  forallb f l = false -> Exists (fun x => f x = false) l.
Proof.
  induction l as [|x l IH]; cbn [forallb]; [discriminate|].
  destruct (f x) eqn:E; cbn [andb]; intro H; [right; now apply IH|now left].
Qed.

(** [.str] exists on the empty column and on every column with a
    value; it raises on the others. *)
Lemma str_accessor_cases (column : list (option string)) :
  match str_accessor column with
  | Ok values =>
      values = column /\ (column = [] \/ Exists (fun v => v <> None) column)
  | Raise e =>
      e = AttributeError /\ column <> [] /\ Forall (fun v => v = None) column
  end.
Proof.
  unfold str_accessor. destruct column as [|v column]; [split; [reflexivity|now left]|].
  destruct (forallb _ (v :: column)) eqn:E.
  - split; [reflexivity|]. split; [discriminate|].
    rewrite forallb_forall in E. apply Forall_forall. intros x Hx.
    specialize (E x Hx). now destruct x.
  - split; [reflexivity|]. right. apply forallb_false_exists in E.
    eapply Exists_impl; [|exact E]. cbn. intros [x|] H; [discriminate|discriminate].
Qed.

Lemma table_map {A : Type} (f1 f2 f3 f4 : A -> option string) (l : list A) :
  table (map f1 l) (map f2 l) (map f3 l) (map f4 l)
  = map (fun r => {| Job_Title := f1 r; Group := f2 r; Division := f3 r;
                     Manager_Job_Title := f4 r |}) l.
Proof.
  induction l as [|r l IH]; [reflexivity|]. cbn [map table]. now rewrite IH.
Qed.

(** The preparation either raises on a column without any value, or
    gives the rows of the file, each with its fields stripped and its
    manager filled in. *)
Lemma df_cases (csv : list position) :
  match df csv with
  | Ok loaded =>
      loaded = map prepared csv
      /\ (csv = []
          \/ (Exists (fun r => Job_Title r <> None) csv
              /\ Exists (fun r => Group r <> None) csv
              /\ Exists (fun r => Division r <> None) csv))
  | Raise e =>
      e = AttributeError /\ csv <> []
      /\ (Forall (fun r => Job_Title r = None) csv
          \/ Forall (fun r => Group r = None) csv
          \/ Forall (fun r => Division r = None) csv)
  end.
Proof.
  assert (Hne : forall (f : position -> option string),
             map f csv <> [] -> csv <> [])
    by (intros f H ->; now apply H).
  unfold df.
  pose proof (str_accessor_cases (map Job_Title csv)) as Ht.
  destruct (str_accessor (map Job_Title csv)) as [job_title|e]; cbn [bind].
  2: { destruct Ht as [-> [Ht Hall]]. split; [reflexivity|].
       split; [now apply Hne in Ht|]. left. now apply Forall_map in Hall. }
  destruct Ht as [-> Ht].
  pose proof (str_accessor_cases (map Group csv)) as Hg.
  destruct (str_accessor (map Group csv)) as [group|e]; cbn [bind].
  2: { destruct Hg as [-> [Hg Hall]]. split; [reflexivity|].
       split; [now apply Hne in Hg|]. right. left. now apply Forall_map in Hall. }
  destruct Hg as [-> Hg].
  pose proof (str_accessor_cases (map Division csv)) as Hd.
  destruct (str_accessor (map Division csv)) as [division|e]; cbn [bind].
  2: { destruct Hd as [-> [Hd Hall]]. split; [reflexivity|].
       split; [now apply Hne in Hd|]. right. right. now apply Forall_map in Hall. }
  destruct Hd as [-> Hd].
  pose proof (str_accessor_cases
                (map (fillna "No Manager") (map Manager_Job_Title csv))) as Hm.
  destruct (str_accessor (map (fillna "No Manager") (map Manager_Job_Title csv)))
    as [manager_job_title|e]; cbn [bind].
  2: { exfalso. destruct Hm as [_ [Hm Hall]]. destruct csv as [|r csv].
       - now apply Hm.
       - cbn [map] in Hall. inversion Hall as [|? ? H _].
         destruct (Manager_Job_Title r); discriminate. }
  destruct Hm as [-> _]. split.
  - rewrite !map_map. apply table_map.
  - destruct csv as [|r csv]; [now left|right].
    destruct Ht as [Ht|Ht]; [discriminate|].
    destruct Hg as [Hg|Hg]; [discriminate|].
    destruct Hd as [Hd|Hd]; [discriminate|].
    rewrite Exists_map in Ht, Hg, Hd. now repeat split.
Qed.

End SpanOfControl.

Section SpanOfControlClaims.
Import Py MyHcc Design.
Open Scope Z_scope.
Open Scope string_scope.

Local Abbreviation prepared :=
  (fun r : position =>
     {| Job_Title := str_strip (Job_Title r);
        Group := str_strip (Group r);
        Division := str_strip (Division r);
        Manager_Job_Title :=
          str_strip (fillna "No Manager" (Manager_Job_Title r)) |}).

Lemma manager_stats_no_placeholder (data : list position) :
  ~ In "No Manager" (keys (manager_stats data)).
Proof.
  unfold keys. rewrite in_map_iff. intros [[m c] [E H]].
  cbn [fst] in E. subst m. apply manager_stats_spec in H. now destruct H.
Qed.

Lemma hierarchy_chart_incl (data : list position) (e : string * Z) :
  In e (hierarchy_chart data) -> In e (manager_stats data).
Proof.
  unfold hierarchy_chart. intro H. apply in_firstn in H.
  apply (proj1 (in_sort_values_descending _ _)) in H. destruct e as [m c].
  exact (proj1 (manager_counts_spec data m c) H).
Qed.

Lemma analysis_chart_incl (data : list position) (top_n : nat) (e : string * Z) :
  In e (analysis_chart_manager_span data top_n) -> In e (manager_stats data).
Proof.
  unfold analysis_chart_manager_span. intro H. apply in_firstn in H.
  apply (proj1 (in_sort_values_descending _ _)) in H. destruct e as [m c].
  exact (proj1 (manager_counts_spec data m c) H).
Qed.

(** [filtered_data] keeps the rows that pass one test. *)
Lemma filtered_data_filter
    (filter_group filter_division filter_manager : string) :
  exists keep,
    forall rows,
      filtered_data rows filter_group filter_division filter_manager
      = filter keep rows.
Proof.
  exists (fun r =>
            (if negb (filter_group =? "All")
             then col_eq (Group r) filter_group else true)
            && (if negb (filter_division =? "All")
                then col_eq (Division r) filter_division else true)
            && (if negb (filter_manager =? "All")
                then col_eq (Manager_Job_Title r) filter_manager else true)).
  intro rows. unfold filtered_data.
  induction rows as [|r rows IH]; [now repeat destruct (negb _)|].
  revert IH.
  destruct (negb (filter_group =? "All")), (negb (filter_division =? "All")),
    (negb (filter_manager =? "All")); cbn [filter andb]; intro IH;
    repeat match goal with
           | |- context [col_eq ?v ?s] => destruct (col_eq v s); cbn [filter andb]
           end;
    rewrite <- ?IH; reflexivity.
Qed.

(** The rows that enter [manager_stats] are the same with and without
    the positions that name no manager. *)
Lemma manager_rows_without_placeholder (csv : list position)
    (keep : position -> bool) :
  filter (fun r => col_ne (Manager_Job_Title r) "No Manager")
         (filter keep (map prepared (filter has_manager csv)))
  = filter (fun r => col_ne (Manager_Job_Title r) "No Manager")
           (filter keep (map prepared csv)).
Proof.
  induction csv as [|r csv IH]; [reflexivity|].
  cbn [filter]. unfold has_manager at 1.
  destruct (Manager_Job_Title r) as [m|] eqn:Em.
  - cbn [map filter]. destruct (keep _); cbn [filter];
      [destruct (col_ne _ _)|]; now rewrite IH.
  - rewrite IH. cbn [map filter]. rewrite Em.
    destruct (keep _); [|reflexivity].
    cbn [filter fillna str_strip option_map Manager_Job_Title].
    reflexivity.
Qed.

Lemma keys_incl (t t' : dict Z) (k : string) :
  (forall e, In e t -> In e t') -> In k (keys t) -> In k (keys t').
Proof.
  unfold keys. rewrite !in_map_iff. intros Hincl [e [E H]].
  exists e. split; [exact E|now apply Hincl].
Qed.

(** C10.  Loading the file either raises AttributeError, which it does
    exactly when the file has rows and its 'Job Title', 'Group' or
    'Division' column has no value at all, or gives [df], in which a
    missing 'Manager Job Title' has become the placeholder 'No Manager'
    (a present one is stripped).  On the loaded [df], whatever the
    filters, every span-of-control result is taken from [manager_stats]:
    its entries are exactly the manager titles other than the
    placeholder that occur in the filtered data, each with the number of
    positions naming it; both rankings (the top 15 of the hierarchy
    chart and the top [top_n] of the span chart) hold entries of that
    table only; and the manager count, mean, maximum and minimum of the
    summary are those of that table.  No result has an entry for the
    placeholder, and the table is the same when the positions without a
    manager are taken out of the file, if the file still loads. *)
Theorem no_manager_excluded_from_span_of_control
    (csv : list position)
    (filter_group filter_division filter_manager : string) (top_n : nat) :
  match df csv with
  | Raise e =>
      e = AttributeError /\ csv <> []
      /\ (Forall (fun r => Job_Title r = None) csv
          \/ Forall (fun r => Group r = None) csv
          \/ Forall (fun r => Division r = None) csv)
  | Ok loaded =>
      let data :=
        filtered_data loaded filter_group filter_division filter_manager in
      let stats := manager_stats data in
      (csv = []
       \/ (Exists (fun r => Job_Title r <> None) csv
           /\ Exists (fun r => Group r <> None) csv
           /\ Exists (fun r => Division r <> None) csv))
      /\ map Manager_Job_Title loaded
         = map (fun r => match Manager_Job_Title r with
                         | None => Some "No Manager"
                         | Some m => Some (strip m)
                         end) csv
      /\ (forall m c,
            In (m, c) stats
            <-> m <> "No Manager"
                /\ In (Some m) (map Manager_Job_Title data)
                /\ c = direct_reports data m)
      /\ (forall e, In e (hierarchy_chart data) -> In e stats)
      /\ (forall e, In e (analysis_chart_manager_span data top_n) -> In e stats)
      /\ match analysis_summary_manager_span data with
         | None => stats = []
         | Some s =>
             total_managers s = List.length stats
             /\ average_span s
                = np_div (sum (values stats)) (Z.of_nat (List.length stats))
             /\ In (maximum_span s) (values stats)
             /\ Forall (fun v => v <= maximum_span s) (values stats)
             /\ In (minimum_span s) (values stats)
             /\ Forall (fun v => minimum_span s <= v) (values stats)
         end
      /\ ~ In "No Manager" (keys stats)
      /\ ~ In "No Manager" (keys (hierarchy_chart data))
      /\ ~ In "No Manager" (keys (analysis_chart_manager_span data top_n))
      /\ match df (filter has_manager csv) with
         | Ok loaded' =>
             manager_stats
               (filtered_data loaded' filter_group filter_division filter_manager)
             = stats
         | Raise e => e = AttributeError
         end
  end.
Proof.
  pose proof (df_cases csv) as Hload.
  destruct (df csv) as [loaded|e]; [|exact Hload].
  destruct Hload as [-> Hcols]. cbv zeta.
  assert (Hsame :
    manager_stats
      (filtered_data (map prepared (filter has_manager csv))
         filter_group filter_division filter_manager)
    = manager_stats
        (filtered_data (map prepared csv)
           filter_group filter_division filter_manager)).
  { destruct (filtered_data_filter filter_group filter_division
                filter_manager) as [keep Hkeep].
    unfold manager_stats. rewrite !Hkeep.
    now rewrite manager_rows_without_placeholder. }
  revert Hsame.
  set (data := filtered_data (map prepared csv)
                 filter_group filter_division filter_manager).
  intro Hsame. split; [exact Hcols|]. split.
  { rewrite map_map. apply map_ext. intro r.
    cbn [Manager_Job_Title]. now destruct (Manager_Job_Title r). }
  split; [intros m c; apply manager_stats_spec|].
  split; [apply hierarchy_chart_incl|].
  split; [apply analysis_chart_incl|].
  split.
  { unfold analysis_summary_manager_span.
    destruct (values (manager_stats data)) as [|c cs] eqn:E.
    - unfold values in E. now apply map_eq_nil in E.
    - cbn [total_managers average_span maximum_span minimum_span].
      destruct (fold_max_spec cs c) as [Hmax Hle].
      destruct (fold_min_spec cs c) as [Hmin Hge].
      repeat split; assumption. }
  split; [apply manager_stats_no_placeholder|].
  split; [intro H; apply (manager_stats_no_placeholder data); revert H;
          apply keys_incl, hierarchy_chart_incl|].
  split; [intro H; apply (manager_stats_no_placeholder data); revert H;
          apply keys_incl, analysis_chart_incl|].
  pose proof (df_cases (filter has_manager csv)) as Hload'.
  destruct (df (filter has_manager csv)) as [loaded'|e].
  - destruct Hload' as [-> _]. exact Hsame.
  - now destruct Hload'.
Qed.

(** Two positions report to 'Director', one has no manager. *)
Example span_of_control_example :
  let csv :=
    [ {| Job_Title := Some "Advisor"; Group := Some "Parks";
         Division := Some "North"; Manager_Job_Title := Some "Director " |};
      {| Job_Title := Some "Chief Executive"; Group := Some "Parks";
         Division := Some "North"; Manager_Job_Title := None |};
      {| Job_Title := Some "Planner"; Group := Some "Parks";
         Division := Some "South"; Manager_Job_Title := Some "Director" |} ] in
  exists loaded,
    df csv = Ok loaded
    /\ let data := filtered_data loaded "All" "All" "All" in
       map Manager_Job_Title data
       = [Some "Director"; Some "No Manager"; Some "Director"]
       /\ groupby_size (map Manager_Job_Title data)
          = [("Director", 2); ("No Manager", 1)]
       /\ hierarchy_chart data = [("Director", 2)]
       /\ analysis_summary_manager_span data
          = Some {| total_managers := 1; average_span := Fin 2;
                    maximum_span := 2; minimum_span := 2 |}.
Proof. cbv zeta. eexists. split; [reflexivity|]. repeat split; reflexivity. Qed.

(** A file in which no row has a division does not load, and one in
    which the only row with a job title has no manager does not load
    without that row. *)
Example df_raises_example :
  df [ {| Job_Title := Some "Advisor"; Group := Some "Parks";
          Division := None; Manager_Job_Title := None |} ]
  = Raise AttributeError
  /\ (let csv :=
        [ {| Job_Title := Some "Chief Executive"; Group := Some "Parks";
             Division := Some "North"; Manager_Job_Title := None |};
          {| Job_Title := None; Group := Some "Parks";
             Division := Some "North"; Manager_Job_Title := Some "Director" |} ] in
      (exists loaded, df csv = Ok loaded)
      /\ df (filter has_manager csv) = Raise AttributeError).
Proof. cbv zeta. split; [reflexivity|]. split; [eexists|]; reflexivity. Qed.

End SpanOfControlClaims.

(** ** Loading the staff assignments *)
Section MissingInput.
Import Py Tables.
Open Scope Z_scope.
Open Scope string_scope.

(** What holds of every synthetic row. *)
Local Abbreviation synthetic_row units jobs :=
  (fun a : assignment =>
     In (UnitID a) (map bu_UnitID units)
     /\ In (TitleID a) (map jt_TitleID jobs)
     /\ 1 <= LocationID a <= 5
     /\ 1 <= StaffCount a <= 5).

Lemma randint_range (low high : Z) (g : rng) :
  low < high -> low <= fst (randint low high g) < high.
Proof.
  intro H. unfold randint. cbn [fst].
  pose proof (Z.mod_pos_bound (g O) (high - low) ltac:(lia)). lia.
Qed.

Lemma sample_row_in {R : Type} (first : R) (others : list R) (g : rng) :
  In (fst (sample_row first others g)) (first :: others).
Proof.
  unfold sample_row. cbn [fst].
  destruct (nth_in_or_default
              (Z.to_nat (g O mod Z.of_nat (List.length (first :: others))))
              (first :: others) first) as [H|H]; [exact H|].
  rewrite H. now left.
Qed.

Lemma synthetic_positions_spec (n : nat) (unit : business_unit)
    (first_job : job_title) (other_jobs : list job_title) (g : rng) :
  let rows :=
    fst (MultiCouncil.synthetic_positions n unit first_job other_jobs g) in
  List.length rows = n
  /\ Forall (synthetic_row [unit] (first_job :: other_jobs)) rows.
Proof.
  cbv zeta. revert g. induction n as [|n IH]; intro g.
  - split; [reflexivity|constructor].
  - cbn [MultiCouncil.synthetic_positions].
    pose proof (sample_row_in first_job other_jobs g) as Hjob.
    destruct (sample_row first_job other_jobs g) as [job g1]. cbn [fst] in Hjob.
    pose proof (randint_range 1 6 g1 ltac:(lia)) as Hloc.
    destruct (randint 1 6 g1) as [loc g2]. cbn [fst] in Hloc.
    pose proof (randint_range 1 6 g2 ltac:(lia)) as Hcnt.
    destruct (randint 1 6 g2) as [cnt g3]. cbn [fst] in Hcnt.
    specialize (IH g3).
    destruct (MultiCouncil.synthetic_positions n unit first_job other_jobs g3)
      as [rest g4].
    cbn [fst] in *. destruct IH as [IHlen IHall]. split.
    + cbn [List.length]. now rewrite IHlen.
    + constructor; [|exact IHall].
      cbn [UnitID TitleID LocationID StaffCount map].
      split; [now left|]. split; [|lia].
      now apply (in_map jt_TitleID) in Hjob.
Qed.

Lemma synthetic_assignments_spec (units : list business_unit)
    (first_job : job_title) (other_jobs : list job_title) (g : rng) :
  let rows :=
    fst (MultiCouncil.synthetic_assignments units first_job other_jobs g) in
  10 * Z.of_nat (List.length units) <= Z.of_nat (List.length rows)
                                    <= 50 * Z.of_nat (List.length units)
  /\ Forall (synthetic_row units (first_job :: other_jobs)) rows.
Proof.
  cbv zeta. revert g. induction units as [|unit units IH]; intro g.
  - cbn. split; [lia|constructor].
  - cbn [MultiCouncil.synthetic_assignments].
    pose proof (randint_range 10 51 g ltac:(lia)) as Hnum.
    destruct (randint 10 51 g) as [num g1]. cbn [fst] in Hnum.
    pose proof (synthetic_positions_spec (Z.to_nat num) unit first_job other_jobs g1)
      as Hpos. cbv zeta in Hpos.
    destruct (MultiCouncil.synthetic_positions (Z.to_nat num) unit first_job
                other_jobs g1) as [rows g2].
    specialize (IH g2).
    destruct (MultiCouncil.synthetic_assignments units first_job other_jobs g2)
      as [rest g3].
    cbn [fst] in *. destruct Hpos as [Hlen Hall]. destruct IH as [IHlen IHall].
    split.
    + rewrite length_app, Hlen. cbn [List.length]. lia.
    + apply Forall_app. split.
      * eapply Forall_impl; [|exact Hall].
        intros a [Hu H]. split; [|exact H].
        cbn [map In] in *. destruct Hu as [Hu|[]]. now left.
      * eapply Forall_impl; [|exact IHall].
        intros a [Hu H]. split; [|exact H]. cbn [map]. now right.
Qed.

Lemma empty_false_rows {R : Type} (df : frame R) :
  empty df = false -> exists first others, rows_of df = first :: others.
Proof.
  unfold empty. destruct (rows_of df) as [|first others]; [discriminate|].
  intros _. now exists first, others.
Qed.

(** C2 (as the code has it).  With the staff-assignments file missing:
    the WCC dashboard raises (the read error is not caught, and
    [merged_data] raises with it); the multi-council dashboard raises
    nothing, returns [pd.DataFrame()] when WCC is not selected or the
    unit table or the title table is empty, and otherwise substitutes
    synthetic assignments: 10 to 50 rows per unit, each with a unit and
    a title of the loaded tables, and a location id and a staff count
    from 1 to 5.  A file that is read is returned as it is, and on an
    empty assignments frame [merged_data] returns an empty frame. *)
Theorem missing_staff_assignments_by_cases
    (council_select : string) (wcc_available : bool)
    (business_units : frame business_unit) (job_titles : frame job_title)
    (g : rng) :
  let loaded :=
    fst (MultiCouncil.staff_assignments council_select wcc_available None
           business_units job_titles g) in
  MyWcc.staff_assignments None = Raise FileNotFoundError
  /\ (forall units groups titles locations,
        MyWcc.merged_data None units groups titles locations
        = Raise FileNotFoundError)
  /\ (MultiCouncil.wcc_selected council_select wcc_available = false
      \/ empty business_units = true \/ empty job_titles = true ->
      loaded = NoColumns)
  /\ (MultiCouncil.wcc_selected council_select wcc_available = true ->
      empty business_units = false -> empty job_titles = false ->
      exists rows,
        loaded = Frame rows
        /\ 10 * Z.of_nat (List.length (rows_of business_units))
           <= Z.of_nat (List.length rows)
           <= 50 * Z.of_nat (List.length (rows_of business_units))
        /\ Forall (fun a =>
                     In (UnitID a) (map bu_UnitID (rows_of business_units))
                     /\ In (TitleID a) (map jt_TitleID (rows_of job_titles))
                     /\ 1 <= LocationID a <= 5
                     /\ 1 <= StaffCount a <= 5) rows)
  /\ (forall df,
        MultiCouncil.wcc_selected council_select wcc_available = true ->
        MultiCouncil.staff_assignments council_select wcc_available (Some df)
          business_units job_titles g = (Frame df, g))
  /\ (forall units groups titles locations,
        MultiCouncil.merged_data NoColumns units groups titles locations
        = Ok NoColumns).
Proof.
  cbv zeta. unfold MultiCouncil.staff_assignments.
  split; [reflexivity|]. split; [reflexivity|]. split; [|split; [|split]].
  - intros [H|[H|H]].
    + now rewrite H.
    + destruct (MultiCouncil.wcc_selected _ _); [|reflexivity].
      now rewrite H.
    + destruct (MultiCouncil.wcc_selected _ _); [|reflexivity].
      rewrite H, andb_false_r. reflexivity.
  - intros Hsel Hu Hj. rewrite Hsel, Hu, Hj. cbn [negb andb].
    destruct (empty_false_rows _ Hj) as [first_job [other_jobs Ej]]. rewrite Ej.
    pose proof (synthetic_assignments_spec (rows_of business_units)
                  first_job other_jobs g) as H. cbv zeta in H.
    destruct (MultiCouncil.synthetic_assignments (rows_of business_units)
                first_job other_jobs g) as [rows g'].
    cbn [fst] in *. exists rows. split; [reflexivity|exact H].
  - intros df Hsel. now rewrite Hsel.
  - reflexivity.
Qed.

(** C2, the claim as stated fails.  With one unit and one job title
    loaded and the assignments file missing, the multi-council
    dashboard returns ten made-up rows (for the generator that always
    draws 0), and the WCC dashboard raises. *)
Lemma missing_staff_assignments_substituted :
  let units := Frame [ {| bu_UnitID := 7; UnitName := "Parks"; GroupID := 1 |} ] in
  let jobs := Frame [ {| jt_TitleID := 3; JobTitle := "Ranger" |} ] in
  let loaded :=
    fst (MultiCouncil.staff_assignments "Wellington City Council" true None
           units jobs (fun _ => 0)) in
  loaded
  = Frame (repeat {| UnitID := 7; TitleID := 3; LocationID := 1; StaffCount := 1 |} 10)
  /\ empty loaded = false
  /\ MyWcc.staff_assignments None = Raise FileNotFoundError.
Proof. cbv zeta. repeat split; reflexivity. Qed.

End MissingInput.

(** ** Joins of the star schema *)
Section Joins.
Import Py Tables Design.
Open Scope Z_scope.

Lemma filter_none {R : Type} (p : R -> bool) (rows : list R) :
  (forall r, In r rows -> p r = false) -> filter p rows = [].
Proof.
  induction rows as [|r rows IH]; intro H; [reflexivity|].
  cbn [filter]. rewrite (H r) by now left.
  apply IH. intros r' Hr'. apply H. now right.
Qed.

Lemma unique_key_filter {R : Type} (key : R -> Z) (k : Z) (rows : list R) :
  NoDup (map key rows) ->
  filter (fun r => k =? key r) rows
  = match find (fun r => k =? key r) rows with
    | Some r => [r]
    | None => []
    end.
Proof.
  induction rows as [|r rows IH]; intro Hnd; [reflexivity|].
  cbn [map] in Hnd. inversion Hnd as [|? ? Hnotin Hnd']; subst.
  cbn [filter find]. destruct (Z.eqb_spec k (key r)) as [->|Hk].
  - f_equal. apply filter_none. intros r' Hr'.
    apply Z.eqb_neq. intro E. apply Hnotin. rewrite E. now apply in_map.
  - now apply IH.
Qed.

Lemma functional_UnitID (units : list business_unit) :
  NoDup (map bu_UnitID units) -> functional on_UnitID units.
Proof. intros H a. unfold on_UnitID. now apply unique_key_filter. Qed.

Lemma functional_TitleID (titles : list job_title) :
  NoDup (map jt_TitleID titles) -> functional on_TitleID titles.
Proof. intros H a. unfold on_TitleID. now apply unique_key_filter. Qed.

Lemma functional_LocationID (locations : list pay_location) :
  NoDup (map pl_LocationID locations) -> functional on_LocationID locations.
Proof. intros H a. unfold on_LocationID. now apply unique_key_filter. Qed.

Lemma functional_GroupID (groups : list business_group) :
  NoDup (map bg_GroupID groups) -> functional on_GroupID groups.
Proof.
  intros H [u|]; unfold on_GroupID.
  - now apply unique_key_filter.
  - induction groups as [|g groups IH]; [reflexivity|].
    cbn [filter find]. apply IH. cbn [map] in H. now inversion H.
Qed.

(** A left join on such a condition: every left row once, in order. *)
Lemma merge_left_functional {L R : Type} (on : L -> R -> bool)
    (left : list L) (right : list R) :
  functional on right ->
  merge_left on left right = map (fun l => (l, find (on l) right)) left.
Proof.
  intro H. unfold merge_left.
  induction left as [|l left IH]; [reflexivity|].
  cbn [flat_map map]. rewrite <- IH, (H l).
  now destruct (find (on l) right).
Qed.

(** An inner join on such a condition: the left rows with a partner. *)
Lemma merge_inner_functional {L R : Type} (on : L -> R -> bool)
    (left : list L) (right : list R) :
  functional on right ->
  merge_inner on left right
  = flat_map (fun l => match find (on l) right with
                       | Some r => [(l, r)]
                       | None => []
                       end) left.
Proof.
  intro H. unfold merge_inner. apply flat_map_ext. intro l.
  rewrite (H l). now destruct (find (on l) right).
Qed.

Lemma functional_compose {L L' R : Type} (f : L' -> L) (on : L -> R -> bool)
    (right : list R) :
  functional on right -> functional (fun l' => on (f l')) right.
Proof. intros H l'. apply (H (f l')). Qed.

Lemma mapM_ok {A B : Type} (f : A -> result B) (g : A -> B) (l : list A) :
  (forall x, In x l -> f x = Ok (g x)) -> mapM f l = Ok (map g l).
Proof.
  induction l as [|x l IH]; intro H; [reflexivity|].
  cbn [mapM map]. rewrite (H x) by now left. cbn [bind].
  rewrite IH; [reflexivity|]. intros y Hy. apply H. now right.
Qed.

Lemma categorize_job_title_present (t : string) :
  exists c, MultiCouncil.categorize_job_title (Some t) = Ok c.
Proof.
  unfold MultiCouncil.categorize_job_title.
  repeat match goal with
         | |- context [if ?b then _ else _] => destruct b
         end; eexists; reflexivity.
Qed.

Lemma get_job_level_present (t : string) :
  exists c, MultiCouncil.get_job_level (Some t) = Ok c.
Proof.
  unfold MultiCouncil.get_job_level.
  repeat match goal with
         | |- context [if ?b then _ else _] => destruct b
         end; eexists; reflexivity.
Qed.

Lemma combine_map_fst {A B : Type} (l : list A) (f : A -> B) :
  map fst (combine l (map f l)) = l.
Proof.
  induction l as [|x l IH]; [reflexivity|]. cbn [map combine fst]. now rewrite IH.
Qed.

Lemma combine_maps {A B C : Type} (l : list A) (f : A -> B) (g : A -> C) :
  combine (combine l (map f l)) (map g l) = map (fun x => (x, f x, g x)) l.
Proof.
  induction l as [|x l IH]; [reflexivity|]. cbn [map combine]. now rewrite IH.
Qed.

Section UniqueKeys.
Variables (units : list business_unit) (groups : list business_group)
          (titles : list job_title) (locations : list pay_location).
Hypothesis unique_UnitID : NoDup (map bu_UnitID units).
Hypothesis unique_GroupID : NoDup (map bg_GroupID groups).
Hypothesis unique_TitleID : NoDup (map jt_TitleID titles).
Hypothesis unique_LocationID : NoDup (map pl_LocationID locations).

Lemma left_joins_lookup (facts : list assignment) :
  MultiCouncil.left_joins (Frame facts) (Frame units) (Frame groups) (Frame titles)
  = Ok (Frame (map (lookup units groups titles) facts)).
Proof.
  unfold MultiCouncil.left_joins, frame_merge_left. cbn [bind map_frame].
  rewrite (merge_left_functional on_UnitID)
    by now apply functional_UnitID.
  rewrite (merge_left_functional (fun au => on_GroupID (snd au)))
    by (apply (functional_compose snd); now apply functional_GroupID).
  rewrite (merge_left_functional (fun aug => on_TitleID (fst (fst aug))))
    by (apply (functional_compose (fun aug => fst (fst aug)));
        now apply functional_TitleID).
  now rewrite !map_map.
Qed.

Lemma mywcc_merged_data_lookup (facts : list assignment) :
  MyWcc.merged_data (Some facts) (Some units) (Some groups) (Some titles)
    (Some locations)
  = Ok (Frame (map (fun a =>
                      {| MyWcc.base := lookup units groups titles a;
                         MyWcc.location := find (on_LocationID a) locations |})
                   facts)).
Proof.
  unfold MyWcc.merged_data, frame_merge_left. cbn [bind map_frame
    MyWcc.staff_assignments MyWcc.business_units MyWcc.business_groups
    MyWcc.job_titles MyWcc.pay_locations MyWcc.read_csv].
  rewrite (merge_left_functional on_UnitID)
    by now apply functional_UnitID.
  rewrite (merge_left_functional (fun au => on_GroupID (snd au)))
    by (apply (functional_compose snd); now apply functional_GroupID).
  rewrite (merge_left_functional (fun aug => on_TitleID (fst (fst aug))))
    by (apply (functional_compose (fun aug => fst (fst aug)));
        now apply functional_TitleID).
  rewrite (merge_left_functional
             (fun augt => on_LocationID (fst (fst (fst augt)))))
    by (apply (functional_compose (fun augt => fst (fst (fst augt))));
        now apply functional_LocationID).
  now rewrite !map_map.
Qed.

Lemma wcc_merged_lookup (facts : list assignment) :
  MultiCouncil.wcc_merged (Frame facts) (Frame units) (Frame groups)
  = Ok (Frame (flat_map
                 (fun a =>
                    match unit (lookup units groups titles a),
                          group (lookup units groups titles a) with
                    | Some u, Some g => [(a, u, g)]
                    | _, _ => []
                    end)
                 facts)).
Proof.
  unfold MultiCouncil.wcc_merged, frame_merge_inner. cbn [bind].
  rewrite (merge_inner_functional on_UnitID)
    by now apply functional_UnitID.
  rewrite (merge_inner_functional (fun au => on_GroupID (Some (snd au))))
    by (apply (functional_compose (fun au => Some (snd au)));
        now apply functional_GroupID).
  do 2 f_equal.
  induction facts as [|a facts IH]; [reflexivity|].
  cbn [flat_map lookup unit group]. rewrite flat_map_app, IH. f_equal.
  destruct (find (on_UnitID a) units) as [u|]; [|reflexivity].
  cbn [flat_map snd app].
  destruct (find (on_GroupID (Some u)) groups); reflexivity.
Qed.

End UniqueKeys.

End Joins.

Section JoinClaims.
Import Py Tables Design.
Open Scope Z_scope.

(** The location name that the multi-council [merged_data] gives a
    fact row. *)
Local Abbreviation location_name pay_locations :=
  (fun a : assignment =>
     if empty pay_locations then Some "Wellington City"%string
     else option_map LocationName
            (find (on_LocationID a) (rows_of pay_locations))).

(** [merged_data] up to the two [apply] calls. *)
Lemma multicouncil_merged_data_joined
    (facts : list assignment) (units : list business_unit)
    (groups : list business_group) (titles : list job_title)
    (pay_locations : frame pay_location) :
  NoDup (map bu_UnitID units) ->
  NoDup (map bg_GroupID groups) ->
  NoDup (map jt_TitleID titles) ->
  NoDup (map pl_LocationID (rows_of pay_locations)) ->
  facts <> [] ->
  MultiCouncil.merged_data (Frame facts) (Frame units) (Frame groups)
    (Frame titles) pay_locations
  = let merged :=
      map (fun a => (lookup units groups titles a, location_name pay_locations a))
          facts in
    categories <- mapM (fun xl => MultiCouncil.categorize_job_title
                                    (MultiCouncil.JobTitle_of (fst xl))) merged ;;
    levels <- mapM (fun xl => MultiCouncil.get_job_level
                                (MultiCouncil.JobTitle_of (fst xl))) merged ;;
    Ok (Frame (map (fun r =>
                      {| MultiCouncil.base := fst (fst (fst r));
                         MultiCouncil.LocationName := snd (fst (fst r));
                         MultiCouncil.JobCategory := snd (fst r);
                         MultiCouncil.JobLevel := snd r |})
                   (combine (combine merged categories) levels))).
Proof.
  intros Hu Hg Ht Hl Hne. cbv zeta.
  unfold MultiCouncil.merged_data.
  replace (empty (Frame facts)) with false
    by (destruct facts; [congruence|reflexivity]).
  rewrite left_joins_lookup by assumption. cbn [bind].
  assert (Hstep :
    (if negb (empty pay_locations)
     then m <- frame_merge_left "LocationID"
                 (fun x => on_LocationID (fact x))
                 (Frame (map (lookup units groups titles) facts)) pay_locations ;;
          Ok (map (fun xl => (fst xl, option_map LocationName (snd xl))) (rows_of m))
     else Ok (map (fun x => (x, Some "Wellington City"%string))
                  (rows_of (Frame (map (lookup units groups titles) facts)))))
    = Ok (map (fun a => (lookup units groups titles a,
                         location_name pay_locations a)) facts)).
  { destruct pay_locations as [|locs].
    - cbn. now rewrite map_map.
    - destruct locs as [|l0 locs'] eqn:E.
      + cbn. now rewrite map_map.
      + rewrite <- E in *. replace (empty (Frame locs)) with false
          by (subst; reflexivity).
        cbn [negb frame_merge_left bind rows_of].
        rewrite (merge_left_functional (fun x => on_LocationID (fact x)))
          by (apply (functional_compose fact); now apply functional_LocationID).
        now rewrite !map_map. }
  rewrite Hstep. reflexivity.
Qed.

Lemma multicouncil_merged_data_rows
    (facts : list assignment) (units : list business_unit)
    (groups : list business_group) (titles : list job_title)
    (pay_locations : frame pay_location) :
  NoDup (map bu_UnitID units) ->
  NoDup (map bg_GroupID groups) ->
  NoDup (map jt_TitleID titles) ->
  NoDup (map pl_LocationID (rows_of pay_locations)) ->
  facts <> [] ->
  Forall (fun a => find (on_TitleID a) titles <> None) facts ->
  exists rows,
    MultiCouncil.merged_data (Frame facts) (Frame units) (Frame groups)
      (Frame titles) pay_locations = Ok (Frame rows)
    /\ map MultiCouncil.base rows = map (lookup units groups titles) facts
    /\ map MultiCouncil.LocationName rows
       = map (location_name pay_locations) facts.
Proof.
  intros Hu Hg Ht Hl Hne Htitles.
  rewrite multicouncil_merged_data_joined by assumption. cbv zeta.
  set (merged := map (fun a => (lookup units groups titles a,
                                location_name pay_locations a)) facts).
  set (cat := fun xl : joined * option string =>
         match MultiCouncil.categorize_job_title (MultiCouncil.JobTitle_of (fst xl)) with
         | Ok c => c
         | Raise _ => EmptyString
         end).
  set (lev := fun xl : joined * option string =>
         match MultiCouncil.get_job_level (MultiCouncil.JobTitle_of (fst xl)) with
         | Ok c => c
         | Raise _ => EmptyString
         end).
  assert (Hpresent : forall xl, In xl merged ->
            exists t, MultiCouncil.JobTitle_of (fst xl) = Some t).
  { intros xl Hin. unfold merged in Hin. apply in_map_iff in Hin.
    destruct Hin as [a [<- Ha]]. rewrite Forall_forall in Htitles.
    specialize (Htitles a Ha). cbn [fst]. unfold MultiCouncil.JobTitle_of.
    cbn [lookup title]. destruct (find (on_TitleID a) titles) as [t|]; [|congruence].
    now exists (JobTitle t). }
  rewrite (mapM_ok _ cat), (mapM_ok _ lev).
  - cbn [bind]. rewrite combine_maps. eexists. split; [reflexivity|].
    unfold merged. rewrite !map_map. cbn [MultiCouncil.base
      MultiCouncil.LocationName fst snd]. split; reflexivity.
  - intros xl Hin. destruct (Hpresent xl Hin) as [t Et]. unfold lev.
    rewrite Et. now destruct (get_job_level_present t) as [c ->].
  - intros xl Hin. destruct (Hpresent xl Hin) as [t Et]. unfold cat.
    rewrite Et. now destruct (categorize_job_title_present t) as [c ->].
Qed.

Lemma mapM_raises {A B : Type} (f : A -> result B) (e : exn) (l : list A) :
  (forall x e', f x = Raise e' -> e' = e) ->
  Exists (fun x => f x = Raise e) l ->
  mapM f l = Raise e.
Proof.
  intros Honly Hex. induction Hex as [x l Hx|x l Hex IH]; cbn [mapM].
  - now rewrite Hx.
  - destruct (f x) as [y|e'] eqn:Ex; cbn [bind].
    + now rewrite IH.
    + f_equal. now apply (Honly x).
Qed.

Lemma categorize_job_title_raises (title : option string) (e : exn) :
  MultiCouncil.categorize_job_title title = Raise e -> e = AttributeError.
Proof.
  destruct title as [t|]; [|now intros [= <-]].
  destruct (categorize_job_title_present t) as [c ->]. discriminate.
Qed.

(** A title id that is in no row of the title table: the job title is
    missing after the join, [categorize_job_title] is applied to [nan],
    whose truth value is true, and [merged_data] of the multi-council
    dashboard raises [AttributeError] instead of returning the rows. *)
Theorem merged_data_missing_title_raises
    (facts : list assignment) (units : list business_unit)
    (groups : list business_group) (titles : list job_title)
    (pay_locations : frame pay_location) :
  NoDup (map bu_UnitID units) ->
  NoDup (map bg_GroupID groups) ->
  NoDup (map jt_TitleID titles) ->
  NoDup (map pl_LocationID (rows_of pay_locations)) ->
  Exists (fun a => find (on_TitleID a) titles = None) facts ->
  MultiCouncil.merged_data (Frame facts) (Frame units) (Frame groups)
    (Frame titles) pay_locations
  = Raise AttributeError.
Proof.
  intros Hu Hg Ht Hl Hex.
  assert (Hne : facts <> []) by (intros ->; inversion Hex).
  rewrite multicouncil_merged_data_joined by assumption. cbv zeta.
  rewrite (mapM_raises _ AttributeError); [reflexivity| |].
  - intros xl e'. apply categorize_job_title_raises.
  - apply Exists_exists in Hex. destruct Hex as [a [Ha Hnone]].
    apply Exists_exists.
    exists (lookup units groups titles a, location_name pay_locations a).
    split.
    + apply (in_map (fun a => (lookup units groups titles a,
                               location_name pay_locations a))). exact Ha.
    + cbn [fst]. unfold MultiCouncil.JobTitle_of. cbn [lookup title].
      now rewrite Hnone.
Qed.

Lemma merged_data_missing_title_raises_witness :
  Exists (fun a => find (on_TitleID a) Scenario.titles = None)
         [Scenario.known; Scenario.unknown_title]
  /\ MultiCouncil.merged_data (Frame [Scenario.known; Scenario.unknown_title])
       (Frame Scenario.units) (Frame Scenario.groups) (Frame Scenario.titles)
       (Frame Scenario.locations)
     = Raise AttributeError.
Proof.
  assert (Hex : Exists (fun a => find (on_TitleID a) Scenario.titles = None)
                       [Scenario.known; Scenario.unknown_title])
    by (right; left; reflexivity).
  split; [exact Hex|].
  apply merged_data_missing_title_raises;
    [repeat constructor; intros []..|exact Hex].
Defined.

(** C5 (as the code has it).  With surrogate ids that name at most one
    row of their table: [merged_data] of the WCC dashboard returns every
    fact row exactly once, in order, each dimension being the row found
    for its id or missing; so does [merged_data] of the multi-council
    dashboard when every title id is found, the location name being
    the fixed 'Wellington City' when the location table is empty; the
    joins of the department-mapping report are inner joins, which keep
    exactly the fact rows whose unit and group are both found. *)
Theorem left_joins_keep_every_fact_row
    (facts : list assignment) (units : list business_unit)
    (groups : list business_group) (titles : list job_title)
    (pay_locations : frame pay_location) :
  NoDup (map bu_UnitID units) ->
  NoDup (map bg_GroupID groups) ->
  NoDup (map jt_TitleID titles) ->
  NoDup (map pl_LocationID (rows_of pay_locations)) ->
  MyWcc.merged_data (Some facts) (Some units) (Some groups) (Some titles)
    (Some (rows_of pay_locations))
  = Ok (Frame (map (fun a =>
                      {| MyWcc.base := lookup units groups titles a;
                         MyWcc.location :=
                           find (on_LocationID a) (rows_of pay_locations) |})
                   facts))
  /\ (facts <> [] ->
      Forall (fun a => find (on_TitleID a) titles <> None) facts ->
      exists rows,
        MultiCouncil.merged_data (Frame facts) (Frame units) (Frame groups)
          (Frame titles) pay_locations = Ok (Frame rows)
        /\ map MultiCouncil.base rows = map (lookup units groups titles) facts
        /\ map MultiCouncil.LocationName rows
           = map (fun a =>
                    if empty pay_locations then Some "Wellington City"%string
                    else option_map LocationName
                           (find (on_LocationID a) (rows_of pay_locations)))
                 facts)
  /\ MultiCouncil.wcc_merged (Frame facts) (Frame units) (Frame groups)
     = Ok (Frame (flat_map
                    (fun a =>
                       match unit (lookup units groups titles a),
                             group (lookup units groups titles a) with
                       | Some u, Some g => [(a, u, g)]
                       | _, _ => []
                       end)
                    facts)).
Proof.
  intros Hu Hg Ht Hl. split; [|split].
  - now apply mywcc_merged_data_lookup.
  - intros Hne Htitles. now apply multicouncil_merged_data_rows.
  - now apply wcc_merged_lookup.
Qed.

(** C5 on the tables of [Scenario]: the fact row of unit 99 is kept by
    both [merged_data], with missing unit, group and location, and is
    not in the joined data of the report. *)
Lemma left_joins_keep_every_fact_row_witness :
  NoDup (map bu_UnitID Scenario.units)
  /\ NoDup (map bg_GroupID Scenario.groups)
  /\ NoDup (map jt_TitleID Scenario.titles)
  /\ NoDup (map pl_LocationID Scenario.locations)
  /\ MyWcc.merged_data (Some Scenario.facts) (Some Scenario.units)
       (Some Scenario.groups) (Some Scenario.titles) (Some Scenario.locations)
     = Ok (Frame (map (fun a =>
                         {| MyWcc.base :=
                              lookup Scenario.units Scenario.groups Scenario.titles a;
                            MyWcc.location :=
                              find (on_LocationID a) Scenario.locations |})
                      Scenario.facts))
  /\ (exists rows,
        MultiCouncil.merged_data (Frame Scenario.facts) (Frame Scenario.units)
          (Frame Scenario.groups) (Frame Scenario.titles)
          (Frame Scenario.locations) = Ok (Frame rows)
        /\ map MultiCouncil.base rows
           = map (lookup Scenario.units Scenario.groups Scenario.titles)
                 Scenario.facts
        /\ map MultiCouncil.LocationName rows
           = [Some "Civic Centre"%string; None])
  /\ MultiCouncil.wcc_merged (Frame Scenario.facts) (Frame Scenario.units)
       (Frame Scenario.groups)
     = Ok (Frame [ (Scenario.known,
                    {| bu_UnitID := 1; UnitName := "Parks & Recreation";
                       GroupID := 10 |},
                    {| bg_GroupID := 10; GroupName := "Customer & Community" |}) ]).
Proof.
  assert (Hu : NoDup (map bu_UnitID Scenario.units))
    by (repeat constructor; intros []).
  assert (Hg : NoDup (map bg_GroupID Scenario.groups))
    by (repeat constructor; intros []).
  assert (Ht : NoDup (map jt_TitleID Scenario.titles))
    by (repeat constructor; intros []).
  assert (Hl : NoDup (map pl_LocationID Scenario.locations))
    by (repeat constructor; intros []).
  destruct (left_joins_keep_every_fact_row Scenario.facts Scenario.units
              Scenario.groups Scenario.titles (Frame Scenario.locations)
              Hu Hg Ht Hl) as [H1 [H2 H3]].
  repeat (split; [assumption|]). split; [|exact H3].
  apply H2; [discriminate|]. repeat constructor; discriminate.
Defined.

(** C5, the claim as stated fails.  The fact row of unit 99 stays in
    [merged_data] with missing dimension values, and is dropped from
    the joined data of the department-mapping report; the staff total
    of the report counts the other row only. *)
Lemma department_mapping_join_drops_fact_rows :
  MyWcc.merged_data (Some Scenario.facts) (Some Scenario.units)
    (Some Scenario.groups) (Some Scenario.titles) (Some Scenario.locations)
  = Ok (Frame
          [ {| MyWcc.base :=
                 {| fact := Scenario.known;
                    unit := Some {| bu_UnitID := 1;
                                    UnitName := "Parks & Recreation";
                                    GroupID := 10 |};
                    group := Some {| bg_GroupID := 10;
                                     GroupName := "Customer & Community" |};
                    title := Some {| jt_TitleID := 1; JobTitle := "Park Ranger" |} |};
               MyWcc.location :=
                 Some {| pl_LocationID := 1; LocationName := "Civic Centre" |} |};
            {| MyWcc.base :=
                 {| fact := Scenario.unknown_unit;
                    unit := None;
                    group := None;
                    title := Some {| jt_TitleID := 1; JobTitle := "Park Ranger" |} |};
               MyWcc.location := None |} ])
  /\ MultiCouncil.wcc_merged (Frame Scenario.facts) (Frame Scenario.units)
       (Frame Scenario.groups)
     = Ok (Frame [ (Scenario.known,
                    {| bu_UnitID := 1; UnitName := "Parks & Recreation";
                       GroupID := 10 |},
                    {| bg_GroupID := 10; GroupName := "Customer & Community" |}) ])
  /\ MultiCouncil.wcc_staff (Frame Scenario.facts) (Frame Scenario.units)
       (Frame Scenario.groups)
     = Ok [("Customer & Community"%string, 4)].
Proof. repeat split; reflexivity. Qed.

End JoinClaims.

(** ** The department mapping report *)
Section Report.
Import Py Tables MultiCouncil.
Open Scope Z_scope.
Open Scope string_scope.

Lemma insert_by_sorted {A : Type} (leb : A -> A -> bool) (x : A) (l : list A) :
  (forall a b, leb a b = false -> leb b a = true) ->
  Sorted (fun a b => leb a b = true) l ->
  Sorted (fun a b => leb a b = true) (insert_by leb x l).
Proof.
  intros Htotal Hs. induction Hs as [|y l Hs IH Hhd]; cbn [insert_by].
  - repeat constructor.
  - destruct (leb x y) eqn:Exy.
    + constructor; [now constructor|now constructor].
    + constructor; [exact IH|].
      destruct l as [|z l]; cbn [insert_by].
      * constructor. now apply Htotal.
      * destruct (leb x z); constructor; [now apply Htotal|].
        now inversion Hhd.
Qed.

Lemma sort_by_sorted {A : Type} (leb : A -> A -> bool) (l : list A) :
  (forall a b, leb a b = false -> leb b a = true) ->
  Sorted (fun a b => leb a b = true) (sort_by leb l).
Proof.
  intro Htotal. induction l as [|x l IH]; cbn [sort_by];
    [constructor|now apply insert_by_sorted].
Qed.

Lemma mapping_leb_total (a b : mapping_row) :
  mapping_leb a b = false -> mapping_leb b a = true.
Proof.
  unfold mapping_leb.
  rewrite (String.compare_antisym (Match_Quality a) (Match_Quality b)).
  destruct (String.compare (Match_Quality b) (Match_Quality a));
    cbn [CompOpp]; try discriminate; [|reflexivity].
  intro H. apply Z.leb_gt in H. apply Z.leb_le. lia.
Qed.

Lemma mapping_leb_trans (a b c : mapping_row) :
  mapping_leb a b = true -> mapping_leb b c = true -> mapping_leb a c = true.
Proof.
  unfold mapping_leb.
  destruct (String.compare (Match_Quality a) (Match_Quality b)) eqn:Eab;
    destruct (String.compare (Match_Quality b) (Match_Quality c)) eqn:Ebc;
    intros Hab Hbc; try discriminate.
  - apply String_as_OT.cmp_eq in Eab, Ebc.
    rewrite Eab, Ebc, (proj2 (String_as_OT.cmp_eq _ _) eq_refl).
    apply Z.leb_le in Hab, Hbc. apply Z.leb_le. lia.
  - apply String_as_OT.cmp_eq in Eab. rewrite Eab, Ebc. reflexivity.
  - apply String_as_OT.cmp_eq in Ebc. rewrite <- Ebc, Eab. reflexivity.
  - apply String_as_OT.cmp_lt in Eab, Ebc.
    assert (H : String.compare (Match_Quality a) (Match_Quality c) = Lt)
      by (apply String_as_OT.cmp_lt; eapply String_as_OT.lt_trans; eassumption).
    now rewrite H.
Qed.

Lemma mapping_sorted (rows : list mapping_row) :
  StronglySorted (fun a b => mapping_leb a b = true) (sort_by mapping_leb rows).
Proof.
  apply Sorted_StronglySorted.
  - intros a b c. apply mapping_leb_trans.
  - apply sort_by_sorted, mapping_leb_total.
Qed.

Lemma mapped_rows_spec (wcc_staff hcc_staff : dict Z) :
  map (fun r => (HCC_Group r, WCC_Equivalent r)) (mapped_rows wcc_staff hcc_staff)
  = GROUP_MAPPINGS
  /\ Forall (fun r =>
               Match_Quality r = "Direct"
               /\ HCC_Staff r = dict_get_default hcc_staff (HCC_Group r) 0
               /\ WCC_Staff r = dict_get_default wcc_staff (WCC_Equivalent r) 0
               /\ Staff_Difference r = Z.abs (HCC_Staff r - WCC_Staff r))
            (mapped_rows wcc_staff hcc_staff).
Proof.
  split; [reflexivity|]. unfold mapped_rows, GROUP_MAPPINGS.
  repeat constructor.
Qed.

Lemma wcc_only_rows_spec (wcc_staff : dict Z) :
  map WCC_Equivalent (wcc_only_rows wcc_staff)
  = filter (fun wcc_group =>
              negb (mem wcc_group (values GROUP_MAPPINGS))
              && negb (wcc_group =? "No Direct Equivalent"))
           (keys wcc_staff)
  /\ Forall (fun r =>
               HCC_Group r = "No Equivalent"
               /\ HCC_Staff r = 0
               /\ Match_Quality r = "WCC Only"
               /\ WCC_Staff r = dict_get_default wcc_staff (WCC_Equivalent r) 0
               /\ Staff_Difference r = WCC_Staff r)
            (wcc_only_rows wcc_staff).
Proof.
  unfold wcc_only_rows. induction (keys wcc_staff) as [|k ks [IH1 IH2]].
  - split; [reflexivity|constructor].
  - cbn [flat_map filter].
    destruct (negb (mem k (values GROUP_MAPPINGS))
              && negb (k =? "No Direct Equivalent")).
    + cbn [app map WCC_Equivalent]. split; [now rewrite IH1|].
      constructor; [repeat split|exact IH2].
    + cbn [app]. split; assumption.
Qed.

(** C4 (as the code has it).  The report holds one record per pair of
    [GROUP_MAPPINGS], with Match Quality 'Direct' and the staff totals
    of the two groups (0 for a group without staff), and one record per
    WCC group with staff that is the target of no pair: HCC Group
    'No Equivalent', HCC Staff 0, Match Quality 'WCC Only', Staff
    Difference the WCC total.  Every record's HCC group is a key of
    [GROUP_MAPPINGS] or 'No Equivalent': an HCC group outside the table
    gets no record.  The rows are in ascending order of
    (Match Quality, Staff Difference).  Without both data sets the
    report is empty, and a failing join is raised. *)
Theorem department_mapping_records
    (staff_assignments : frame assignment)
    (business_units : frame business_unit)
    (business_groups : frame business_group)
    (hcc_data : frame hcc_record) :
  match wcc_staff staff_assignments business_units business_groups with
  | Raise e =>
      department_mapping true true staff_assignments business_units
        business_groups hcc_data = Raise e
  | Ok wcc_staff =>
      let hcc_staff := hcc_staff hcc_data in
      exists rows,
        department_mapping true true staff_assignments business_units
          business_groups hcc_data = Ok (Frame rows)
        /\ Permutation
             (mapped_rows wcc_staff hcc_staff ++ wcc_only_rows wcc_staff) rows
        /\ StronglySorted (fun a b => mapping_leb a b = true) rows
        /\ map (fun r => (HCC_Group r, WCC_Equivalent r))
               (mapped_rows wcc_staff hcc_staff) = GROUP_MAPPINGS
        /\ Forall (fun r =>
                     Match_Quality r = "Direct"
                     /\ HCC_Staff r = dict_get_default hcc_staff (HCC_Group r) 0
                     /\ WCC_Staff r
                        = dict_get_default wcc_staff (WCC_Equivalent r) 0
                     /\ Staff_Difference r = Z.abs (HCC_Staff r - WCC_Staff r))
                  (mapped_rows wcc_staff hcc_staff)
        /\ map WCC_Equivalent (wcc_only_rows wcc_staff)
           = filter (fun wcc_group =>
                       negb (mem wcc_group (values GROUP_MAPPINGS))
                       && negb (wcc_group =? "No Direct Equivalent"))
                    (keys wcc_staff)
        /\ Forall (fun r =>
                     HCC_Group r = "No Equivalent"
                     /\ HCC_Staff r = 0
                     /\ Match_Quality r = "WCC Only"
                     /\ WCC_Staff r
                        = dict_get_default wcc_staff (WCC_Equivalent r) 0
                     /\ Staff_Difference r = WCC_Staff r)
                  (wcc_only_rows wcc_staff)
        /\ Forall (fun r =>
                     In (HCC_Group r) (keys GROUP_MAPPINGS)
                     \/ HCC_Group r = "No Equivalent") rows
  end
  /\ (forall wcc_available hcc_available,
        wcc_available && hcc_available = false ->
        department_mapping wcc_available hcc_available staff_assignments
          business_units business_groups hcc_data = Ok NoColumns).
Proof.
  split.
  - unfold department_mapping. cbn [andb negb].
    destruct (wcc_staff staff_assignments business_units business_groups)
      as [ws|e]; cbn [bind]; [|reflexivity].
    destruct (mapped_rows_spec ws (hcc_staff hcc_data)) as [Hm1 Hm2].
    destruct (wcc_only_rows_spec ws) as [Hw1 Hw2].
    eexists. split; [reflexivity|].
    split; [apply sort_by_perm|].
    split; [apply mapping_sorted|].
    repeat (split; [assumption|]).
    eapply Permutation_Forall; [apply sort_by_perm|].
    apply Forall_app. split.
    + apply Forall_forall. intros r Hr. left.
      apply (in_map (fun r => (HCC_Group r, WCC_Equivalent r))) in Hr.
      rewrite Hm1 in Hr. apply (in_map fst) in Hr. exact Hr.
    + eapply Forall_impl; [|exact Hw2]. intros r [H _]. now right.
  - intros wa ha H. unfold department_mapping. now rewrite H.
Qed.

(** C4, the claim as stated fails.  HCC has 'Parks' (3 staff), a source
    of no mapping; WCC has 'Infrastructure & Delivery' (80 staff), a
    target of no mapping.  The report has no record for 'Parks'; the
    record of the WCC-only group has Match Quality 'WCC Only'; and the
    staff differences come in ascending order, the greatest last. *)
Lemma department_mapping_scenario :
  hcc_staff (Frame Scenario.report_hcc)
  = [("Neighbourhoods & Communities", 2); ("Parks", 3);
     ("Strategy & Engagement", 5)]
  /\ option_map
       (map (fun r => (HCC_Group r, HCC_Staff r, WCC_Equivalent r,
                       WCC_Staff r, Match_Quality r, Staff_Difference r)))
       (match department_mapping true true (Frame Scenario.report_facts)
                (Frame Scenario.report_units) (Frame Scenario.report_groups)
                (Frame Scenario.report_hcc) with
        | Ok df => Some (rows_of df)
        | Raise _ => None
        end)
     = Some
         [ ("Economy & Development", 0, "Economic & Engagement", 0, "Direct", 0);
           ("Environment & Sustainability", 0, "Planning & Environment", 0,
            "Direct", 0);
           ("Office of the Chief Executive", 0, "Chief Executives Office", 0,
            "Direct", 0);
           ("Neighbourhoods & Communities", 2, "Customer & Community", 4,
            "Direct", 2);
           ("Neighbourhoods & Communities ", 0, "Customer & Community", 4,
            "Direct", 4);
           ("Strategy & Engagement", 5, "Strategy & Finance", 0, "Direct", 5);
           ("No Equivalent", 0, "Infrastructure & Delivery", 80, "WCC Only", 80) ].
Proof. split; reflexivity. Qed.

End Report.

(** ** The fuzzy match of job titles *)
Section FuzzyMatch.
Import Py MultiCouncil Design.
Open Scope Q_scope.

Variable ratio : string -> string -> Q.
Variable set_list : list string -> list string.

Lemma Qgtb_true (x y : Q) : Qgtb x y = true <-> y < x.
Proof.
  unfold Qgtb. rewrite negb_true_iff, <- not_true_iff_false, Qle_bool_iff.
  split; [apply Qnot_le_lt|apply Qlt_not_le].
Qed.

Lemma Qgtb_false (x y : Q) : Qgtb x y = false <-> x <= y.
Proof.
  unfold Qgtb. rewrite negb_false_iff. apply Qle_bool_iff.
Qed.

Lemma best_match_invariant (hcc_title : string) (candidates : list string) :
  loop_invariant ratio hcc_title candidates
    (best_match ratio hcc_title candidates).
Proof.
  unfold best_match.
  induction candidates as [|x seen IH] using rev_ind.
  - split; [intros c []|reflexivity].
  - rewrite fold_left_app. cbn [fold_left].
    set (best := fold_left _ seen (None, 0)) in *.
    destruct IH as [Hmax Hbest].
    destruct (Qgtb (ratio hcc_title x) (snd best)) eqn:E.
    + apply Qgtb_true in E. split; cbn [fst snd].
      * intros c Hc. apply in_app_or in Hc. destruct Hc as [Hc|[<-|[]]].
        -- apply Qlt_le_weak. eapply Qle_lt_trans; [apply Hmax, Hc|exact E].
        -- apply Qle_refl.
      * split; [reflexivity|]. split.
        -- destruct (fst best) as [c|].
           ++ destruct Hbest as [_ [Hpos _]]. eapply Qlt_trans; eassumption.
           ++ now rewrite <- Hbest.
        -- exists seen, []. split; [reflexivity|].
           intros c' Hc'. eapply Qle_lt_trans; [apply Hmax, Hc'|exact E].
    + apply Qgtb_false in E. split.
      * intros c Hc. apply in_app_or in Hc. destruct Hc as [Hc|[<-|[]]];
          [now apply Hmax|exact E].
      * destruct (fst best) as [c|]; [|exact Hbest].
        destruct Hbest as [Hs [Hpos [before [after [Hseen Hbefore]]]]].
        split; [exact Hs|]. split; [exact Hpos|].
        exists before, (after ++ [x])%list. split; [|exact Hbefore].
        rewrite Hseen, <- app_assoc. reflexivity.
Qed.

Lemma similarity_scores_spec (hcc_only wcc_only : list string) (s : Q) :
  In s (similarity_scores ratio set_list hcc_only wcc_only)
  <-> exists hcc_title,
        In hcc_title (firstn 50 (set_list hcc_only))
        /\ s = snd (best_match ratio hcc_title (firstn 50 (set_list wcc_only)))
        /\ 8 # 10 < s.
Proof.
  unfold similarity_scores. rewrite in_flat_map. split.
  - intros [h [Hh Hs]]. exists h. split; [exact Hh|].
    destruct (Qgtb _ (8 # 10)) eqn:E; [|contradiction].
    destruct Hs as [<-|[]]. split; [reflexivity|now apply Qgtb_true].
  - intros [h [Hh [-> Hs]]]. exists h. split; [exact Hh|].
    apply Qgtb_true in Hs. rewrite Hs. now left.
Qed.

(** C7 (as the code has it).  For each of the first 50 HCC-only titles
    in set order, the loop scores the first 50 WCC-only titles in set
    order (all titles lower-cased) and keeps the greatest score; of the
    candidates with that score it keeps the one met first in that
    order, as the score must be strictly greater to replace the
    current one; with no positive score it keeps [None] and 0.  The
    title counts as similar, and its score is recorded, exactly when
    the best score is strictly greater than 0.8; nothing is recorded
    for the others. *)
Theorem job_overlap_best_match
    (hcc_title : string) (hcc_only wcc_only : list string) :
  let candidates := firstn 50 (set_list wcc_only) in
  loop_invariant ratio hcc_title candidates
    (best_match ratio hcc_title candidates)
  /\ (forall s,
        In s (similarity_scores ratio set_list hcc_only wcc_only)
        <-> exists hcc_title,
              In hcc_title (firstn 50 (set_list hcc_only))
              /\ s = snd (best_match ratio hcc_title candidates)
              /\ 8 # 10 < s)
  /\ (forall wcc_jobs hcc_df chart,
        job_overlap ratio set_list true true wcc_jobs hcc_df = Some chart ->
        let wcc_titles :=
          nodup string_dec
            (map (fun r => lower (Tables.JobTitle r)) (rows_of wcc_jobs)) in
        let hcc_titles :=
          nodup string_dec
            (map (fun r => lower (Job_Title r)) (rows_of hcc_df)) in
        similar_titles chart
        = similarity_scores ratio set_list
            (filter (fun t => negb (mem t wcc_titles)) hcc_titles)
            (filter (fun t => negb (mem t hcc_titles)) wcc_titles)).
Proof.
  cbv zeta. split; [apply best_match_invariant|]. split.
  - intro s. apply similarity_scores_spec.
  - intros wcc_jobs hcc_df chart. unfold job_overlap. cbn [andb negb].
    destruct (empty wcc_jobs || empty hcc_df); [discriminate|].
    intro H. injection H as <-. reflexivity.
Qed.

End FuzzyMatch.

Section FuzzyMatchExamples.
Import Py MultiCouncil Design Tables.
Open Scope string_scope.

(** C7, the claim as stated fails.  'senior advisor 1' and
    'senior advisor 2' score 14/15 against 'senior advisor'.  When the
    set of WCC-only titles yields 'senior advisor 2' first, the loop
    keeps it, and not the lexicographically first of the two.  For a
    title below the threshold ('parks engineer' against 'zebra
    quality', 2/9) no record of any kind is made. *)
Lemma job_overlap_tie_is_first_met :
  SequenceMatcher_ratio "senior advisor" "senior advisor 1" = (14 # 15)%Q
  /\ SequenceMatcher_ratio "senior advisor" "senior advisor 2" = (14 # 15)%Q
  /\ design_best_match SequenceMatcher_ratio "senior advisor"
       ["senior advisor 2"; "senior advisor 1"]
     = Some "senior advisor 1"
  /\ best_match SequenceMatcher_ratio "senior advisor"
       ["senior advisor 2"; "senior advisor 1"]
     = (Some "senior advisor 2", (14 # 15)%Q)
  /\ job_overlap SequenceMatcher_ratio (fun elements => elements) true true
       (Frame [ {| jt_TitleID := 1; JobTitle := "Senior Advisor 2" |};
                {| jt_TitleID := 2; JobTitle := "Senior Advisor 1" |} ])
       (Frame [ {| Group := Some "Strategy"; Job_Title := "Senior Advisor";
                   hcc_StaffCount := 1%Z |} ])
     = Some {| common_titles := 0; wcc_only_titles := 2; hcc_only_titles := 1;
               similar_titles := [(14 # 15)%Q] |}
  /\ best_match SequenceMatcher_ratio "parks engineer" ["zebra quality"]
     = (Some "zebra quality", (2 # 9)%Q)
  /\ similarity_scores SequenceMatcher_ratio (fun elements => elements)
       ["parks engineer"] ["zebra quality"] = [].
Proof. repeat split; vm_compute; reflexivity. Qed.

End FuzzyMatchExamples.

(** ** Job titles: category and level *)
Section JobTitles.
Import Py MultiCouncil.
Open Scope string_scope.

Lemma lower_char_idempotent (c : ascii) : lower_char (lower_char c) = lower_char c.
Proof.
  destruct c as [[] [] [] [] [] [] [] []]; vm_compute; reflexivity.
Qed.

Lemma lower_idempotent (s : string) : lower (lower s) = lower s.
Proof.
  induction s as [|c s IH]; [reflexivity|].
  cbn [lower]. now rewrite lower_char_idempotent, IH.
Qed.

Lemma lower_empty (s : string) : (lower s =? "") = (s =? "").
Proof. now destruct s. Qed.

Lemma prefix_append (sub s : string) :
  prefix sub s = true <-> exists post, s = sub ++ post.
Proof.
  revert s. induction sub as [|c sub IH]; intro s.
  - split; [intros _; now exists s|now destruct s].
  - destruct s as [|d s]; cbn [prefix].
    + split; [discriminate|intros [post H]; discriminate].
    + destruct (ascii_dec c d) as [->|Hcd].
      * rewrite IH. split; intros [post H]; exists post; cbn [append] in *;
          congruence.
      * split; [discriminate|]. intros [post H]. cbn [append] in H. congruence.
Qed.

(** [sub in s]: [s] is [pre + sub + post]. *)
Lemma contains_append (sub s : string) :
  contains sub s = true <-> exists pre post, s = pre ++ sub ++ post.
Proof.
  induction s as [|d s IH]; cbn [contains]; rewrite orb_true_iff, prefix_append.
  - split.
    + intros [[post H]|H]; [|discriminate]. now exists "", post.
    + intros [pre [post H]]. left. exists post.
      destruct pre; [exact H|discriminate].
  - rewrite IH. split.
    + intros [[post H]|[pre [post H]]].
      * now exists "", post.
      * exists (String d pre), post. cbn [append]. now rewrite H.
    + intros [[|c pre] [post H]].
      * left. now exists post.
      * right. exists pre, post. cbn [append] in H. congruence.
Qed.

Lemma append_assoc (a b c : string) : (a ++ b) ++ c = a ++ b ++ c.
Proof. induction a as [|x a IH]; cbn [append]; [reflexivity|now rewrite IH]. Qed.

(** A word found inside a keyword is found wherever the keyword is. *)
Lemma contains_inside (word keyword s : string) :
  contains word keyword = true -> contains keyword s = true ->
  contains word s = true.
Proof.
  rewrite !contains_append.
  intros [pre1 [post1 ->]] [pre2 [post2 ->]].
  exists (pre2 ++ pre1), (post1 ++ post2). now rewrite !append_assoc.
Qed.

Lemma any_word_in_inside (keywords words : list string) (s : string) :
  Forall (fun k => exists w, In w words /\ contains w k = true) keywords ->
  any_word_in keywords s = true -> any_word_in words s = true.
Proof.
  unfold any_word_in. rewrite !existsb_exists. intros Hall [k [Hk Hs]].
  rewrite Forall_forall in Hall. destruct (Hall k Hk) as [w [Hw Hwk]].
  exists w. split; [exact Hw|]. now apply (contains_inside w k).
Qed.

(** X2.  Neither classification looks at letter case: a title and its
    lower-cased form get the same category and the same level. *)
Theorem job_title_classification_ignores_case (t : string) :
  categorize_job_title (Some (lower t)) = categorize_job_title (Some t) /\
  get_job_level (Some (lower t)) = get_job_level (Some t).
Proof.
  unfold categorize_job_title, get_job_level.
  rewrite lower_empty, lower_idempotent. split; reflexivity.
Qed.

(** X3.  The two classifications agree on managers: a title whose level
    is "Executive" or "Management" is in the "Management" category. *)
Theorem management_level_is_management_category (title : option string)
    (level : string) :
  get_job_level title = Ok level ->
  level = "Executive" \/ level = "Management" ->
  categorize_job_title title = Ok "Management".
Proof.
  destruct title as [t|]; [|discriminate].
  unfold get_job_level, categorize_job_title.
  destruct (t =? ""); [intros [= <-] [H|H]; discriminate|].
  set (words := ["manager"; "head"; "director"; "chief"; "leader"; "supervisor"]).
  destruct (any_word_in ["chief"; "director"; "head of"] (lower t)) eqn:E1.
  - intros _ _.
    rewrite (any_word_in_inside ["chief"; "director"; "head of"] words (lower t));
      [reflexivity| |exact E1].
    repeat constructor;
      [exists "chief"|exists "director"|exists "head"]; (split; [|reflexivity]);
      unfold words; cbn [In]; tauto.
  - destruct (any_word_in ["manager"; "team leader"; "supervisor"] (lower t)) eqn:E2.
    + intros _ _.
      rewrite (any_word_in_inside ["manager"; "team leader"; "supervisor"] words
                 (lower t)); [reflexivity| |exact E2].
      repeat constructor;
        [exists "manager"|exists "leader"|exists "supervisor"];
        (split; [|reflexivity]); unfold words; cbn [In]; tauto.
    + repeat match goal with
             | |- context [if ?b then _ else _] => destruct b
             end; intros [= <-] [H|H]; discriminate.
Qed.

Lemma management_level_is_management_category_witness :
  get_job_level (Some "Team Leader Parks") = Ok "Management" /\
  categorize_job_title (Some "Team Leader Parks") = Ok "Management".
Proof.
  split; [reflexivity|].
  apply (management_level_is_management_category (Some "Team Leader Parks")
           "Management"); [reflexivity|now right].
Defined.

(** X4.  A missing title is the only input on which the classifications
    raise; every string gets one of the six categories and one of the six
    levels, and the level "Unknown" is kept for the empty title. *)
Theorem job_title_classification_total (title : option string) :
  match title with
  | None =>
      categorize_job_title title = Raise AttributeError /\
      get_job_level title = Raise AttributeError
  | Some t =>
      exists category level,
        categorize_job_title title = Ok category /\
        get_job_level title = Ok level /\
        In category ["Management"; "Professional"; "Technical";
                     "Administrative"; "Operational"; "Other"] /\
        In level ["Executive"; "Management"; "Senior"; "Junior";
                  "Mid-level"; "Unknown"] /\
        (level = "Unknown" <-> t = "")
  end.
Proof.
  destruct title as [t|]; [|split; reflexivity].
  unfold categorize_job_title, get_job_level.
  destruct (String.eqb_spec t "") as [->|Hne].
  - exists "Other", "Unknown". cbn [In]. intuition.
  - repeat match goal with
           | |- context [if ?b then _ else _] => destruct b
           end;
      eexists; eexists; (split; [reflexivity|]); (split; [reflexivity|]);
      cbn [In]; (split; [tauto|]); (split; [tauto|]);
      (split; [discriminate|intros ->; now destruct Hne]).
Qed.

End JobTitles.

(** ** The Gini coefficient as a function of the distribution *)
Section GiniInvariance.
Import Py MultiCouncil Design.
Open Scope Z_scope.

(** The ascending rearrangement of integers is unique. *)
Lemma ascending_unique (l l' : list Z) :
  StronglySorted Z.le l -> StronglySorted Z.le l' -> Permutation l l' -> l = l'.
Proof.
  intro Hl. revert l'. induction Hl as [|a l Hs IH Ha]; intros l' Hl' Hp.
  - now apply Permutation_nil in Hp.
  - destruct Hl' as [|b l' Hs' Hb].
    + apply Permutation_sym, Permutation_nil in Hp. discriminate.
    + assert (Hab : a = b).
      { assert (H1 : In b (a :: l))
          by (eapply Permutation_in; [apply Permutation_sym, Hp|now left]).
        assert (H2 : In a (b :: l'))
          by (eapply Permutation_in; [apply Hp|now left]).
        rewrite Forall_forall in Ha, Hb.
        destruct H1 as [H1|H1]; [exact H1|]. destruct H2 as [H2|H2]; [now symmetry|].
        specialize (Ha b H1). specialize (Hb a H2). lia. }
      subst b. f_equal. apply IH; [exact Hs'|].
      now apply Permutation_cons_inv in Hp.
Qed.

Lemma sorted_of_perm (l l' : list Z) : Permutation l l' -> sorted l = sorted l'.
Proof.
  intro Hp. apply ascending_unique; try apply sorted_sorted.
  eapply perm_trans; [apply Permutation_sym, sorted_perm|].
  eapply perm_trans; [exact Hp|apply sorted_perm].
Qed.

Lemma sorted_ascending (l : list Z) : StronglySorted Z.le l -> sorted l = l.
Proof.
  intro Hl. apply ascending_unique; [apply sorted_sorted|exact Hl|].
  apply Permutation_sym, sorted_perm.
Qed.

Lemma scale_ascending (k : Z) (l : list Z) :
  0 < k -> StronglySorted Z.le l -> StronglySorted Z.le (map (Z.mul k) l).
Proof.
  intros Hk. induction 1 as [|a l Hs IH Ha]; cbn [map]; constructor; [exact IH|].
  rewrite Forall_map. eapply Forall_impl; [|exact Ha]. cbn. intros. nia.
Qed.

Lemma sorted_scale (k : Z) (l : list Z) :
  0 < k -> sorted (map (Z.mul k) l) = map (Z.mul k) (sorted l).
Proof.
  intro Hk. apply ascending_unique.
  - apply sorted_sorted.
  - apply scale_ascending; [exact Hk|apply sorted_sorted].
  - eapply perm_trans; [apply Permutation_sym, sorted_perm|].
    apply Permutation_map, sorted_perm.
Qed.

Lemma rank_sum_scale (k k0 : Z) (l : list Z) :
  rank_sum k0 (map (Z.mul k) l) = k * rank_sum k0 l.
Proof.
  revert k0. induction l as [|x l IH]; intro k0; cbn [map rank_sum]; [lia|].
  rewrite IH. lia.
Qed.

Lemma sum_scale (k : Z) (l : list Z) : sum (map (Z.mul k) l) = k * sum l.
Proof.
  induction l as [|x l IH]; cbn [map]; rewrite ?sum_nil, ?sum_cons, ?IH; lia.
Qed.

Lemma np_div_scale (k a b : Z) : 0 < k -> np_div (k * a) (k * b) = np_div a b.
Proof.
  intro Hk. unfold np_div.
  destruct (Z.eqb_spec b 0) as [->|Hb].
  - rewrite Z.mul_0_r. cbn [Z.eqb].
    destruct (Z.eqb_spec a 0) as [->|Ha]; [now rewrite Z.mul_0_r|].
    replace (k * a =? 0) with false by (symmetry; apply Z.eqb_neq; nia).
    destruct (Z.ltb_spec 0 a), (Z.ltb_spec 0 (k * a)); try reflexivity; nia.
  - replace (k * b =? 0) with false by (symmetry; apply Z.eqb_neq; nia).
    f_equal. apply Qred_complete. rewrite !inject_Z_mult.
    assert (Hk' : ~ (inject_Z k == 0)%Q)
      by (change 0%Q with (inject_Z 0); rewrite inject_Z_injective; lia).
    assert (Hb' : ~ (inject_Z b == 0)%Q)
      by (change 0%Q with (inject_Z 0); rewrite inject_Z_injective; exact Hb).
    field. split; assumption.
Qed.

(** The coefficient as one fraction, whenever the total is not zero and
    nothing wraps around. *)
Lemma calculate_gini_fraction (values : list Z) :
  values <> [] ->
  Forall (fun x => 0 <= x) values ->
  2 * Z.of_nat (List.length values) * sum values < 2 ^ 63 ->
  sum values <> 0 ->
  exists g : Q,
    calculate_gini values = Fin g
    /\ (g == inject_Z (2 * rank_sum 1 (sorted values)
                       - (Z.of_nat (List.length values) + 1) * sum values)
             / inject_Z (Z.of_nat (List.length values) * sum values))%Q.
Proof.
  intros Hne Hnn Hbound Hs.
  assert (Hn : Z.of_nat (List.length values) <> 0)
    by (destruct values; [congruence|cbn [List.length]; lia]).
  rewrite calculate_gini_unfold by assumption.
  unfold np_div.
  replace (Z.of_nat (List.length values) * sum values =? 0) with false
    by (symmetry; apply Z.eqb_neq; nia).
  cbn [np_sub]. eexists. split; [reflexivity|].
  rewrite !Qred_correct. now apply gini_single_fraction.
Qed.

Lemma rank_sum_one_holder (m : nat) (k x : Z) :
  rank_sum k (repeat 0 m ++ [x]) = (k + Z.of_nat m) * x.
Proof.
  revert k. induction m as [|m IH]; intro k.
  - cbn [repeat app rank_sum]. lia.
  - cbn [repeat app rank_sum]. rewrite IH. lia.
Qed.

Lemma sum_repeat_zero (m : nat) : sum (repeat 0 m) = 0.
Proof.
  induction m as [|m IH]; [reflexivity|]. cbn [repeat]. rewrite sum_cons. lia.
Qed.

Lemma one_holder_ascending (m : nat) (x : Z) :
  0 <= x -> StronglySorted Z.le (repeat 0 m ++ [x]).
Proof.
  intro Hx. induction m as [|m IH]; cbn [repeat app].
  - repeat constructor.
  - constructor; [exact IH|]. apply Forall_app. split.
    + apply Forall_forall. intros y Hy. apply repeat_spec in Hy. lia.
    + repeat constructor. exact Hx.
Qed.

(** X5.  [calculate_gini] depends on the distribution only.  Listing
    the totals in another order gives the same result, also when that
    result is not a number or comes from a wrapped int64 product.
    Counting the totals in another unit (all multiplied by the same
    positive integer [k]) gives the same result as long as the totals
    are not negative and [2·n·k·Σx] stays below [2^63]; beyond the
    int64 range it does not: [[1, 1]] gives 0 and [[2^62, 2^62]] gives
    [-inf]. *)
Theorem calculate_gini_order_and_scale (values values' : list Z) (k : Z) :
  Permutation values values' -> 0 < k ->
  calculate_gini values' = calculate_gini values
  /\ (Forall (fun x => 0 <= x) values ->
      2 * Z.of_nat (List.length values) * (k * sum values) < 2 ^ 63 ->
      calculate_gini (map (Z.mul k) values') = calculate_gini values)
  /\ calculate_gini [1; 1] = Fin 0
  /\ calculate_gini (map (Z.mul (2 ^ 62)) [1; 1]) = NInf.
Proof.
  intros Hp Hk.
  assert (Horder : calculate_gini values' = calculate_gini values).
  { destruct values as [|v vs].
    - apply Permutation_nil in Hp. subst. reflexivity.
    - assert (Hne' : values' <> [])
        by (intros ->; apply Permutation_sym, Permutation_nil in Hp; discriminate).
      rewrite !calculate_gini_int64 by (assumption || discriminate).
      now rewrite <- (sorted_of_perm _ _ Hp), <- (sum_perm _ _ Hp),
        <- (Permutation_length Hp). }
  split; [exact Horder|]. split; [|split; vm_compute; reflexivity].
  intros Hnn Hbound. rewrite <- Horder.
  assert (Hnn' : Forall (fun x => 0 <= x) values')
    by (eapply Permutation_Forall; [exact Hp|exact Hnn]).
  rewrite (sum_perm _ _ Hp), (Permutation_length Hp) in Hbound.
  clear Hp Horder Hnn values. destruct values' as [|v vs]; [reflexivity|].
  set (values := v :: vs) in *.
  assert (Hs : 0 <= sum values) by now apply sum_nonneg.
  assert (Hn : 0 < Z.of_nat (List.length values))
    by (unfold values; cbn [List.length]; lia).
  rewrite (calculate_gini_unfold (map (Z.mul k) values)).
  - rewrite (calculate_gini_unfold values);
      [|discriminate|exact Hnn'|nia].
    rewrite length_map, sorted_scale, rank_sum_scale, sum_scale by exact Hk.
    f_equal.
    replace (2 * (k * rank_sum 1 (sorted values)))
      with (k * (2 * rank_sum 1 (sorted values))) by lia.
    replace (Z.of_nat (List.length values) * (k * sum values))
      with (k * (Z.of_nat (List.length values) * sum values)) by lia.
    now apply np_div_scale.
  - discriminate.
  - rewrite Forall_map. eapply Forall_impl; [|exact Hnn']. cbn. intros. nia.
  - rewrite length_map, sum_scale. exact Hbound.
Qed.

Lemma calculate_gini_order_and_scale_witness :
  calculate_gini [3; 1; 2] = calculate_gini [1; 2; 3]
  /\ (Forall (fun x => 0 <= x) [1; 2; 3] ->
      2 * Z.of_nat (List.length [1; 2; 3]) * (10 * sum [1; 2; 3]) < 2 ^ 63 ->
      calculate_gini (map (Z.mul 10) [3; 1; 2]) = calculate_gini [1; 2; 3])
  /\ calculate_gini [1; 1] = Fin 0
  /\ calculate_gini (map (Z.mul (2 ^ 62)) [1; 1]) = NInf.
Proof.
  apply (calculate_gini_order_and_scale [1; 2; 3] [3; 1; 2] 10); [|lia].
  apply Permutation_sym.
  apply (Permutation_cons_app [1; 2] [] 3). apply Permutation_refl.
Defined.

(** X6.  [calculate_gini] returns a number exactly on the empty sequence
    and on the sequences whose int64 denominator [n·Σx] is not zero,
    that is, for which [n·Σx] is not a multiple of [2^64]; every other
    sequence gives [nan] or an infinity.  For totals that are not
    negative and keep [2·n·Σx] below [2^63], the condition is that the
    total is not zero. *)
Theorem calculate_gini_finite_iff (values : list Z) :
  ((exists g : Q, calculate_gini values = Fin g)
   <-> (values = []
        \/ (Z.of_nat (List.length values) * sum values) mod 2 ^ 64 <> 0))
  /\ (Forall (fun x => 0 <= x) values ->
      2 * Z.of_nat (List.length values) * sum values < 2 ^ 63 ->
      ((exists g : Q, calculate_gini values = Fin g)
       <-> (values = [] \/ sum values <> 0))).
Proof.
  assert (Hiff : (exists g : Q, calculate_gini values = Fin g)
                 <-> (values = []
                      \/ (Z.of_nat (List.length values) * sum values)
                           mod 2 ^ 64 <> 0)).
  { split.
    - intros [g Hg]. destruct values as [|v vs]; [now left|right].
      intro Hs. rewrite calculate_gini_int64 in Hg by discriminate.
      apply int64_zero_iff in Hs. rewrite Hs in Hg.
      unfold np_div in Hg. cbn [Z.eqb] in Hg.
      destruct (int64 (2 * rank_sum 1 (sorted (v :: vs))) =? 0); [discriminate|].
      destruct (0 <? int64 (2 * rank_sum 1 (sorted (v :: vs)))); discriminate.
    - intros [->|Hs]; [now exists 0%Q|].
      destruct values as [|v vs]; [now exists 0%Q|].
      rewrite calculate_gini_int64 by discriminate.
      rewrite <- int64_zero_iff in Hs. apply Z.eqb_neq in Hs.
      unfold np_div. rewrite Hs. cbn [np_sub]. eexists. reflexivity. }
  split; [exact Hiff|].
  intros Hnn Hbound. rewrite Hiff.
  destruct values as [|v vs]; [tauto|].
  assert (Hs : 0 <= sum (v :: vs)) by now apply sum_nonneg.
  assert (Hn : 0 < Z.of_nat (List.length (v :: vs)))
    by (cbn [List.length]; lia).
  rewrite Z.mod_small by nia.
  split; (intros [H|H]; [discriminate|right; nia]).
Qed.

(** X7.  With [n] totals, none negative and one at least positive,
    and [2·n·Σx] below [2^63] so that no int64 product or sum wraps
    around, the coefficient is at most [(n − 1)/n], and it is
    [(n − 1)/n] when one group holds everything. *)
Theorem calculate_gini_upper_bound (values : list Z) :
  values <> [] ->
  Forall (fun x => 0 <= x) values ->
  Exists (fun x => 0 < x) values ->
  2 * Z.of_nat (List.length values) * sum values < 2 ^ 63 ->
  exists g : Q,
    calculate_gini values = Fin g
    /\ (g <= (inject_Z (Z.of_nat (List.length values)) - 1)
             / inject_Z (Z.of_nat (List.length values)))%Q
    /\ (forall x, Permutation values (x :: repeat 0 (List.length values - 1)) ->
        (g == (inject_Z (Z.of_nat (List.length values)) - 1)
              / inject_Z (Z.of_nat (List.length values)))%Q).
Proof.
  intros Hne Hnn Hpos Hbound.
  destruct (calculate_gini_fraction values Hne Hnn Hbound) as [g [Hg Eg]];
    [pose proof (sum_pos values Hnn Hpos); lia|].
  clear Hbound.
  set (n := Z.of_nat (List.length values)).
  set (w := rank_sum 1 (sorted values)).
  assert (Hn : 0 < n)
    by (unfold n; destruct values; [congruence|cbn [List.length]; lia]).
  assert (Hs : 0 < sum values) by now apply sum_pos.
  assert (Hhi : w <= n * sum values).
  { assert (Hnn' : Forall (fun x => 0 <= x) (sorted values))
      by (eapply Permutation_Forall; [apply sorted_perm|assumption]).
    pose proof (rank_sum_upper (sorted values) 1 ltac:(lia) Hnn') as H.
    rewrite sorted_length, sum_sorted in H. fold n in H. fold w in H.
    replace (1 + n - 1) with n in H by lia. exact H. }
  fold n in Eg. fold w in Eg.
  assert (HnQ : (0 < inject_Z n)%Q)
    by (change 0%Q with (inject_Z 0); rewrite <- Zlt_Qlt; exact Hn).
  assert (HdQ : (0 < inject_Z (n * sum values))%Q)
    by (change 0%Q with (inject_Z 0); rewrite <- Zlt_Qlt; nia).
  assert (Hmax : ((inject_Z n - 1) / inject_Z n
                  == inject_Z ((n - 1) * sum values) / inject_Z (n * sum values))%Q).
  { unfold Z.sub. rewrite !inject_Z_mult, inject_Z_plus, inject_Z_opp.
    change (inject_Z 1) with 1%Q.
    assert (Hn' : ~ (inject_Z n == 0)%Q)
      by (change 0%Q with (inject_Z 0); rewrite inject_Z_injective; lia).
    assert (Hs' : ~ (inject_Z (sum values) == 0)%Q)
      by (change 0%Q with (inject_Z 0); rewrite inject_Z_injective; lia).
    field. split; assumption. }
  exists g. split; [exact Hg|]. split.
  - rewrite Eg, Hmax. apply Qle_shift_div_l; [exact HdQ|].
    unfold Qdiv. rewrite <- Qmult_assoc, (Qmult_comm (/ _)), Qmult_inv_r, Qmult_1_r
      by (intro H; rewrite H in HdQ; discriminate).
    rewrite <- Zle_Qle. nia.
  - intros x Hx. rewrite Eg, Hmax.
    assert (Hx0 : 0 <= x)
      by (rewrite Forall_forall in Hnn; apply Hnn;
          eapply Permutation_in; [apply Permutation_sym, Hx|now left]).
    assert (Hsum : sum values = x).
    { rewrite (sum_perm _ _ Hx), sum_cons.
      rewrite sum_repeat_zero. lia. }
    assert (Hw : w = n * x).
    { unfold w.
      rewrite (sorted_of_perm _ _ Hx).
      rewrite (sorted_of_perm _ (repeat 0 (List.length values - 1) ++ [x]))
        by (apply Permutation_cons_append).
      rewrite sorted_ascending by now apply one_holder_ascending.
      rewrite rank_sum_one_holder. unfold n.
      destruct values; [congruence|]. cbn [List.length]. f_equal. lia. }
    rewrite Hw, Hsum.
    replace (2 * (n * x) - (n + 1) * x) with ((n - 1) * x) by lia.
    reflexivity.
Qed.

Lemma calculate_gini_upper_bound_witness :
  exists g : Q,
    calculate_gini [0; 7; 0] = Fin g
    /\ (g <= (inject_Z 3 - 1) / inject_Z 3)%Q
    /\ (forall x, Permutation [0; 7; 0] (x :: repeat 0 2) ->
        (g == (inject_Z 3 - 1) / inject_Z 3)%Q).
Proof.
  apply (calculate_gini_upper_bound [0; 7; 0]).
  - discriminate.
  - repeat constructor; lia.
  - right. left. lia.
  - reflexivity.
Defined.

End GiniInvariance.

(** ** groupby: what the group totals add up to *)
Section Grouping.
Import Py.
Open Scope Z_scope.

(** [notna()] on a key. *)
Local Abbreviation notna v := (match v with Some _ => true | None => false end).

Lemma sum_map_add {A : Type} (f g : A -> Z) (l : list A) :
  sum (map (fun x => f x + g x) l) = sum (map f l) + sum (map g l).
Proof.
  induction l as [|x l IH]; cbn [map]; rewrite ?sum_nil, ?sum_cons; lia.
Qed.

Lemma sum_map_zero {A : Type} (l : list A) : sum (map (fun _ => 0) l) = 0.
Proof.
  induction l as [|x l IH]; cbn [map]; rewrite ?sum_nil, ?sum_cons; lia.
Qed.

Lemma mem_In (x : string) (xs : list string) : mem x xs = true <-> In x xs.
Proof.
  unfold mem. rewrite existsb_exists. split.
  - intros [y [Hy E]]. apply String.eqb_eq in E. now subst.
  - intro H. exists x. split; [exact H|apply String.eqb_refl].
Qed.

(** A row counts for exactly one of the distinct keys [ks], its own. *)
Lemma sum_own_key (v : option string) (z : Z) (ks : list string) :
  NoDup ks ->
  sum (map (fun k => if col_eq v k then z else 0) ks)
  = if match v with Some x => mem x ks | None => false end then z else 0.
Proof.
  destruct v as [x|]; cbn [col_eq]; [|intros _; apply sum_map_zero].
  induction 1 as [|k ks Hk Hnd IH]; [reflexivity|].
  cbn [map mem existsb]. rewrite sum_cons. fold (mem x ks). rewrite IH.
  destruct (String.eqb_spec x k) as [->|Hne]; cbn [orb].
  - destruct (mem k ks) eqn:E; [|lia]. apply mem_In in E. contradiction.
  - destruct (mem x ks); lia.
Qed.

Lemma sum_by_keys (ks : list string) (rows : list (option string * Z)) :
  NoDup ks ->
  sum (map (fun k => sum (map snd (filter (fun r => col_eq (fst r) k) rows))) ks)
  = sum (map snd
           (filter (fun r => match fst r with
                             | Some x => mem x ks
                             | None => false
                             end) rows)).
Proof.
  intro Hnd. induction rows as [|[v z] rows IH].
  - cbn [filter map]. rewrite sum_nil. apply sum_map_zero.
  - cbn [filter fst].
    rewrite (map_ext
               (fun k => sum (map snd (if col_eq v k
                                       then (v, z) :: filter (fun r => col_eq (fst r) k) rows
                                       else filter (fun r => col_eq (fst r) k) rows)))
               (fun k => (if col_eq v k then z else 0)
                         + sum (map snd (filter (fun r => col_eq (fst r) k) rows)))).
    + rewrite sum_map_add, sum_own_key, IH by exact Hnd.
      destruct (match v with Some x => mem x ks | None => false end);
        cbn [map snd]; rewrite ?sum_cons; lia.
    + intro k. destruct (col_eq v k); cbn [map snd]; rewrite ?sum_cons; lia.
Qed.

(** The group totals add up to the total over the rows that have a
    key: a row whose key is missing is in no group. *)
Lemma groupby_sum_total (rows : list (option string * Z)) :
  sum (values (groupby_sum rows))
  = sum (map snd (filter (fun r => notna (fst r)) rows)).
Proof.
  unfold values, groupby_sum. rewrite map_map. cbn [snd].
  rewrite sum_by_keys by apply group_keys_nodup.
  f_equal. f_equal. apply filter_ext_in. intros [[x|] z] Hr; cbn [fst]; [|reflexivity].
  apply mem_In, in_group_keys, in_map_iff. now exists (Some x, z).
Qed.

Lemma groupby_sum_keys (rows : list (option string * Z)) :
  keys (groupby_sum rows) = group_keys (map fst rows).
Proof.
  unfold keys, groupby_sum. rewrite map_map. cbn [fst]. apply map_id.
Qed.

Lemma dict_get_table {V : Type} (f : string -> V) (ks : list string) (k : string) :
  dict_get (map (fun k => (k, f k)) ks) k = if mem k ks then Some (f k) else None.
Proof.
  induction ks as [|k' ks IH]; [reflexivity|].
  cbn [map dict_get mem existsb]. fold (mem k ks).
  destruct (String.eqb_spec k k') as [->|Hne]; cbn [orb]; [reflexivity|exact IH].
Qed.

(** [totals.get(k)]: the total of the rows with key [k], when there is
    one. *)
Lemma groupby_sum_get (rows : list (option string * Z)) (k : string) :
  dict_get (groupby_sum rows) k
  = if mem k (group_keys (map fst rows))
    then Some (sum (map snd (filter (fun r => col_eq (fst r) k) rows)))
    else None.
Proof.
  unfold groupby_sum.
  apply (dict_get_table
           (fun k => sum (map snd (filter (fun r => col_eq (fst r) k) rows)))).
Qed.

Lemma groupby_size_total (column : list (option string)) :
  sum (values (groupby_size column)) = Z.of_nat (List.length (dropna column)).
Proof.
  unfold groupby_size. rewrite groupby_sum_total.
  induction column as [|[x|] column IH]; cbn [map filter fst dropna flat_map];
    [reflexivity| |exact IH].
  cbn [map snd app List.length]. rewrite sum_cons.
  unfold dropna in IH. rewrite IH. lia.
Qed.

Lemma groupby_sum_nodup (rows : list (option string * Z)) :
  NoDup (groupby_sum rows).
Proof.
  apply (NoDup_map_inv fst). fold (keys (groupby_sum rows)).
  rewrite groupby_sum_keys. apply group_keys_nodup.
Qed.

End Grouping.

(** ** The span of control: rankings and summary figures *)
Section SpanRanking.
Import Py MyHcc Design.
Open Scope Z_scope.
Open Scope string_scope.

(** A position that names a manager other than the placeholder. *)
Local Abbreviation names_manager r :=
  (match Manager_Job_Title r with
   | Some m => negb (m =? "No Manager")
   | None => false
   end).

Lemma manager_stats_total (data : list position) :
  sum (values (manager_stats data))
  = Z.of_nat (List.length (filter (fun r => names_manager r) data)).
Proof.
  unfold manager_stats. rewrite groupby_size_total. f_equal.
  induction data as [|r data IH]; [reflexivity|].
  cbn [filter]. unfold col_ne at 1, col_eq.
  destruct (Manager_Job_Title r) as [m|] eqn:E.
  - destruct (m =? "No Manager"); cbn [negb map dropna flat_map]; [exact IH|].
    rewrite E. cbn [app List.length]. unfold dropna in IH. now rewrite IH.
  - cbn [negb map dropna flat_map]. rewrite E. exact IH.
Qed.

Lemma manager_stats_span_positive (data : list position) :
  Forall (Z.le 1) (values (manager_stats data)).
Proof.
  apply Forall_forall. intros c Hc. unfold values in Hc.
  apply in_map_iff in Hc. destruct Hc as [[m c'] [E H]]. cbn [snd] in E. subst c'.
  apply manager_stats_spec in H. destruct H as [_ [Hin ->]].
  unfold direct_reports. apply in_map_iff in Hin. destruct Hin as [r [Er Hr]].
  assert (Hf : In r (filter (fun r => col_eq (Manager_Job_Title r) m) data)).
  { apply filter_In. split; [exact Hr|]. now apply col_eq_true. }
  destruct (filter (fun r => col_eq (Manager_Job_Title r) m) data);
    [contradiction|cbn [List.length]; lia].
Qed.

Lemma Sorted_impl {A : Type} (R R' : A -> A -> Prop) (l : list A) :
  (forall a b, R a b -> R' a b) -> Sorted R l -> Sorted R' l.
Proof.
  intros HR. induction 1 as [|a l Hs IH Hhd]; constructor; [exact IH|].
  destruct Hhd; constructor. now apply HR.
Qed.

Lemma descending_sorted (table : dict Z) :
  StronglySorted (fun a b : string * Z => snd b <= snd a)
    (sort_values_descending table).
Proof.
  apply Sorted_StronglySorted; [intros a b c; lia|].
  unfold sort_values_descending.
  apply (Sorted_impl
           (fun a b : string * Z => (snd b <=? snd a)%Z = true)).
  - intros a b H. now apply Z.leb_le.
  - apply (sort_by_sorted (fun a b : string * Z => (snd b <=? snd a)%Z)).
    intros a b H. apply Z.leb_gt in H. apply Z.leb_le. lia.
Qed.

Lemma NoDup_firstn {A : Type} (n : nat) (l : list A) :
  NoDup l -> NoDup (firstn n l).
Proof.
  intro H. rewrite <- (firstn_skipn n l) in H. now apply NoDup_app_remove_r in H.
Qed.

(** The table that the two charts rank is [manager_stats], up to order. *)
Lemma manager_counts_perm (data : list position) :
  Permutation
    (filter (fun e : string * Z => negb (fst e =? "No Manager"))
            (groupby_size (map Manager_Job_Title data)))
    (manager_stats data).
Proof.
  apply NoDup_Permutation.
  - apply NoDup_filter, groupby_sum_nodup.
  - apply groupby_sum_nodup.
  - intros [m c]. apply manager_counts_spec.
Qed.

Lemma descending_rest_below (n : nat) (l : list (string * Z)) (e e' : string * Z) :
  StronglySorted (fun a b : string * Z => snd b <= snd a) l ->
  In e' (firstn n l) -> In e (skipn n l) -> snd e <= snd e'.
Proof.
  intro Hs. revert n. induction Hs as [|a l Hs IH Ha]; intros n H1 H2.
  - now rewrite firstn_nil in H1.
  - destruct n as [|n]; [contradiction|]. cbn [firstn skipn] in H1, H2.
    destruct H1 as [<-|H1]; [|now apply (IH n)].
    rewrite Forall_forall in Ha. apply Ha.
    rewrite <- (firstn_skipn n l). apply in_or_app. now right.
Qed.

(** X8.  The two span-of-control rankings are one table: the managers
    of [manager_stats], by falling number of direct reports, cut after
    the first [top_n] (15 in the hierarchy chart).  The ranking holds
    [min(top_n, managers)] entries, no manager twice, and no manager
    left out has more direct reports than one that is shown. *)
Theorem span_ranking_is_top_n (data : list position) (top_n : nat) :
  let ranked := analysis_chart_manager_span data top_n in
  hierarchy_chart data = analysis_chart_manager_span data 15
  /\ List.length ranked = Nat.min top_n (List.length (manager_stats data))
  /\ StronglySorted (fun a b : string * Z => snd b <= snd a) ranked
  /\ NoDup (keys ranked)
  /\ (forall e e',
        In e (manager_stats data) /\ ~ In e ranked /\ In e' ranked ->
        snd e <= snd e').
Proof.
  cbv zeta. unfold analysis_chart_manager_span.
  set (table := filter (fun e : string * Z => negb (fst e =? "No Manager"))
                       (groupby_size (map Manager_Job_Title data))).
  pose proof (manager_counts_perm data) as Hperm. fold table in Hperm.
  pose proof (descending_sorted table) as Hsorted.
  assert (Hp : Permutation table (sort_values_descending table))
    by apply sort_by_perm.
  split; [reflexivity|]. split.
  { rewrite length_firstn. f_equal.
    rewrite <- (Permutation_length Hp). now apply Permutation_length. }
  split.
  { rewrite <- (firstn_skipn top_n (sort_values_descending table)) in Hsorted.
    clear - Hsorted.
    induction (firstn top_n (sort_values_descending table)) as [|a l IH];
      [constructor|].
    cbn [app] in Hsorted. inversion Hsorted as [|? ? Hs Ha]; subst.
    constructor; [now apply IH|].
    apply Forall_app in Ha. now destruct Ha. }
  split.
  { unfold keys. rewrite <- firstn_map. apply NoDup_firstn.
    eapply Permutation_NoDup; [apply Permutation_map, Hp|].
    eapply Permutation_NoDup;
      [apply Permutation_map, Permutation_sym, Hperm|].
    fold (keys (manager_stats data)). unfold manager_stats, groupby_size.
    rewrite groupby_sum_keys. apply group_keys_nodup. }
  intros e e' [He [Hout Hin]].
  apply (descending_rest_below top_n (sort_values_descending table));
    [exact Hsorted|exact Hin|].
  assert (H : In e (sort_values_descending table)).
  { eapply Permutation_in; [exact Hp|].
    eapply Permutation_in; [apply Permutation_sym, Hperm|exact He]. }
  rewrite <- (firstn_skipn top_n (sort_values_descending table)) in H.
  apply in_app_or in H. destruct H as [H|H]; [contradiction|exact H].
Qed.

(** X9.  The figures of the span-of-control summary fit together: every
    manager counted has at least one direct report, the minimum is at
    most the maximum, the spans add up to the number of positions that
    name a manager, so that the average is that number over the number
    of managers; the summary is missing exactly when no position names
    a manager. *)
Theorem span_summary_figures (data : list position) :
  let reports :=
    Z.of_nat (List.length (filter (fun r => names_manager r) data)) in
  match analysis_summary_manager_span data with
  | None => reports = 0
  | Some s =>
      1 <= minimum_span s
      /\ minimum_span s <= maximum_span s
      /\ maximum_span s <= reports
      /\ 1 <= Z.of_nat (total_managers s) <= reports
      /\ average_span s = np_div reports (Z.of_nat (total_managers s))
  end.
Proof.
  cbv zeta. rewrite <- manager_stats_total.
  pose proof (manager_stats_span_positive data) as Hpos.
  unfold analysis_summary_manager_span.
  assert (Hlen : List.length (manager_stats data)
                 = List.length (values (manager_stats data)))
    by (unfold values; now rewrite length_map).
  rewrite Hlen.
  destruct (values (manager_stats data)) as [|c cs]; [reflexivity|].
  cbn [minimum_span maximum_span total_managers average_span].
  destruct (fold_max_spec cs c) as [Hmax_in Hmax].
  destruct (fold_min_spec cs c) as [Hmin_in Hmin].
  pose proof (sum_lower_bound 1 (c :: cs) Hpos) as Hlow.
  rewrite Forall_forall in Hpos, Hmax, Hmin.
  pose proof (Hpos _ Hmin_in). pose proof (Hmin _ Hmax_in).
  assert (Hmax_sum : fold_left Z.max cs c <= sum (c :: cs)).
  { clear - Hmax_in Hpos. revert Hmax_in Hpos.
    generalize (fold_left Z.max cs c). intros m Hm Hpos.
    induction (c :: cs) as [|x l IH]; [contradiction|].
    rewrite sum_cons.
    assert (0 <= sum l).
    { apply sum_nonneg, Forall_forall. intros y Hy.
      specialize (Hpos y (or_intror Hy)). lia. }
    destruct Hm as [->|Hm]; [lia|].
    specialize (IH Hm (fun y Hy => Hpos y (or_intror Hy))).
    specialize (Hpos x (or_introl eq_refl)). lia. }
  cbn [List.length] in *. repeat split; lia.
Qed.

End SpanRanking.

(** ** The bars of the job title overlap *)
Section JobOverlapBars.
Import Py MultiCouncil Tables.

Variable ratio : string -> string -> Q.
Variable set_list : list string -> list string.

(** [list(s)] yields the elements of the set [s], each once. *)
Hypothesis set_list_elements : forall s, Permutation s (set_list s).

Lemma filter_split_length {A : Type} (p : A -> bool) (l : list A) :
  (List.length (filter p l) + List.length (filter (fun x => negb (p x)) l)
   = List.length l)%nat.
Proof.
  induction l as [|x l IH]; [reflexivity|].
  cbn [filter]. destruct (p x); cbn [negb List.length]; lia.
Qed.

(** The intersection of two sets has one size, from whichever side it
    is counted. *)
Lemma intersection_length (a b : list string) :
  NoDup a -> NoDup b ->
  List.length (filter (fun t => mem t b) a)
  = List.length (filter (fun t => mem t a) b).
Proof.
  intros Ha Hb. apply Permutation_length, NoDup_Permutation.
  - now apply NoDup_filter.
  - now apply NoDup_filter.
  - intro x. rewrite !filter_In, !mem_In. tauto.
Qed.

Lemma similarity_scores_length (hcc_only wcc_only : list string) :
  (List.length (similarity_scores ratio set_list hcc_only wcc_only)
   <= Nat.min 50 (List.length hcc_only))%nat.
Proof.
  unfold similarity_scores.
  rewrite (Permutation_length (set_list_elements hcc_only)), <- length_firstn.
  induction (firstn 50 (set_list hcc_only)) as [|h l IH]; [apply Nat.le_refl|].
  cbn [flat_map]. rewrite length_app.
  destruct (Qgtb _ _); cbn [List.length]; lia.
Qed.

(** X10.  The four bars of [job_overlap] count lower-cased titles, each
    once: exact matches and WCC-only titles make up the distinct WCC
    titles, exact matches and HCC-only titles the distinct HCC titles,
    and the bar of similar titles is at most 50 high and never higher
    than the HCC-only bar. *)
Theorem job_overlap_bars (wcc_jobs : frame job_title) (hcc_df : frame hcc_record)
    (chart : overlap) :
  job_overlap ratio set_list true true wcc_jobs hcc_df = Some chart ->
  let wcc_titles :=
    nodup string_dec (map (fun r => lower (JobTitle r)) (rows_of wcc_jobs)) in
  let hcc_titles :=
    nodup string_dec (map (fun r => lower (Job_Title r)) (rows_of hcc_df)) in
  (common_titles chart + wcc_only_titles chart = List.length wcc_titles
   /\ common_titles chart + hcc_only_titles chart = List.length hcc_titles
   /\ List.length (similar_titles chart) <= Nat.min 50 (hcc_only_titles chart))%nat.
Proof.
  unfold job_overlap. cbn [andb negb].
  destruct (empty wcc_jobs || empty hcc_df); [discriminate|].
  intro H. injection H as <-. cbv zeta.
  cbn [common_titles wcc_only_titles hcc_only_titles similar_titles].
  split; [apply filter_split_length|]. split.
  - rewrite intersection_length by apply NoDup_nodup.
    apply filter_split_length.
  - apply similarity_scores_length.
Qed.

End JobOverlapBars.

Section JobOverlapBarsExamples.
Import Py MultiCouncil Tables.
Open Scope string_scope.

Lemma job_overlap_bars_witness :
  let wcc_jobs :=
    Frame [ {| jt_TitleID := 1; JobTitle := "Senior Advisor" |};
            {| jt_TitleID := 2; JobTitle := "Planner" |};
            {| jt_TitleID := 3; JobTitle := "PLANNER" |} ] in
  let hcc_df :=
    Frame [ {| Group := Some "Strategy"; Job_Title := "planner";
               hcc_StaffCount := 1%Z |};
            {| Group := Some "Strategy"; Job_Title := "Senior Advisor 1";
               hcc_StaffCount := 1%Z |} ] in
  exists chart,
    job_overlap SequenceMatcher_ratio (fun s => s) true true wcc_jobs hcc_df
    = Some chart
    /\ (common_titles chart + wcc_only_titles chart = 2
        /\ common_titles chart + hcc_only_titles chart = 2
        /\ List.length (similar_titles chart)
           <= Nat.min 50 (hcc_only_titles chart))%nat.
Proof.
  intros wcc_jobs hcc_df. eexists. split; [vm_compute; reflexivity|].
  apply (job_overlap_bars SequenceMatcher_ratio (fun s => s)
           (fun s => Permutation_refl s) wcc_jobs hcc_df).
  vm_compute. reflexivity.
Defined.

End JobOverlapBarsExamples.

(** ** The WCC dashboard: filters, totals and bars *)
Section WccOverview.
Import Py.
Open Scope Z_scope.
Open Scope string_scope.

Lemma sum_filter_split {A : Type} (p : A -> bool) (f : A -> Z) (l : list A) :
  sum (map f (filter p l)) + sum (map f (filter (fun x => negb (p x)) l))
  = sum (map f l).
Proof.
  induction l as [|x l IH]; [reflexivity|].
  cbn [filter map]. destruct (p x); cbn [negb map]; rewrite !sum_cons; lia.
Qed.

Lemma ascending_sorted (table : dict Z) :
  StronglySorted (fun a b : string * Z => snd a <= snd b)
    (sort_by (fun a b : string * Z => (snd a <=? snd b)%Z) table).
Proof.
  apply Sorted_StronglySorted; [intros a b c; lia|].
  apply (Sorted_impl (fun a b : string * Z => (snd a <=? snd b)%Z = true)).
  - intros a b H. now apply Z.leb_le.
  - apply (sort_by_sorted (fun a b : string * Z => (snd a <=? snd b)%Z)).
    intros a b H. apply Z.leb_gt in H. apply Z.leb_le. lia.
Qed.

Lemma nodup_constant (g : string) (l : list string) :
  l <> [] -> Forall (eq g) l -> nodup string_dec l = [g].
Proof.
  intros Hne Hall. induction Hall as [|x l <- Hall IH]; [congruence|].
  cbn [nodup]. destruct l as [|y l].
  - now destruct (in_dec string_dec g []).
  - destruct (in_dec string_dec g (y :: l)) as [_|Hn].
    + apply IH. discriminate.
    + inversion Hall; subst. destruct Hn. now left.
Qed.

(** One group only: the table has one entry, the total of the rows. *)
Lemma groupby_sum_one_group (g : string) (rows : list (option string * Z)) :
  rows <> [] -> Forall (fun r => fst r = Some g) rows ->
  groupby_sum rows = [(g, sum (map snd rows))].
Proof.
  intros Hne Hall. unfold groupby_sum, group_keys.
  assert (Hd : dropna (map fst rows) = map (fun _ => g) rows).
  { clear Hne. induction Hall as [|[v z] rows Hv Hall IH]; [reflexivity|].
    cbn [fst] in Hv. subst v. cbn [map dropna flat_map fst app].
    unfold dropna in IH. now rewrite IH. }
  rewrite Hd, (nodup_constant g).
  - cbn [sort_by insert_by map]. f_equal. f_equal. f_equal. f_equal.
    clear Hne Hd. induction Hall as [|[v z] rows Hv Hall IH]; [reflexivity|].
    cbn [fst] in Hv. subst v. cbn [filter fst col_eq].
    rewrite String.eqb_refl. now rewrite IH.
  - destruct rows; [congruence|discriminate].
  - apply Forall_forall. intros x Hx. apply in_map_iff in Hx.
    now destruct Hx as [_ [<- _]].
Qed.

Lemma mywcc_filtered_data_spec (merged : list MyWcc.merged_row)
    (filter_group filter_unit filter_location : string) (r : MyWcc.merged_row) :
  In r (MyWcc.filtered_data merged filter_group filter_unit filter_location)
  <-> In r merged
      /\ (filter_group = "All" \/ MyWcc.GroupName r = Some filter_group)
      /\ (filter_unit = "All" \/ MyWcc.UnitName r = Some filter_unit)
      /\ (filter_location = "All" \/ MyWcc.LocationName r = Some filter_location).
Proof.
  unfold MyWcc.filtered_data.
  destruct (String.eqb_spec filter_group "All") as [Hg|Hg];
    destruct (String.eqb_spec filter_unit "All") as [Hu|Hu];
    destruct (String.eqb_spec filter_location "All") as [Hl|Hl];
    cbn [negb]; rewrite ?filter_In, ?col_eq_true; tauto.
Qed.

(** X11.  In the WCC dashboard the bars of [group_distribution], taken
    on the filtered rows, are in rising order, one per group, and add up
    to the total staff of [summary_stats] less the staff of the rows
    that have no group (a unit or group id without a dimension row);
    with a group selected, the chart is the one bar of that group, as
    high as the total staff. *)
Theorem wcc_group_bars_and_total_staff (merged : list MyWcc.merged_row)
    (filter_group filter_unit filter_location : string) :
  let data :=
    MyWcc.filtered_data merged filter_group filter_unit filter_location in
  let bars := MyWcc.group_distribution data in
  let no_group :=
    filter (fun r => match MyWcc.GroupName r with
                     | Some _ => false
                     | None => true
                     end) data in
  sum (values bars) + sum (map MyWcc.StaffCount no_group)
  = MyWcc.total_staff (MyWcc.summary_stats data)
  /\ StronglySorted (fun a b : string * Z => snd a <= snd b) bars
  /\ NoDup (keys bars)
  /\ (filter_group <> "All" ->
      bars = match data with
             | [] => []
             | _ :: _ => [(filter_group, MyWcc.total_staff (MyWcc.summary_stats data))]
             end).
Proof.
  cbv zeta.
  set (data := MyWcc.filtered_data merged filter_group filter_unit filter_location).
  unfold MyWcc.group_distribution.
  set (table := groupby_sum
                  (map (fun r => (MyWcc.GroupName r, MyWcc.StaffCount r)) data)).
  assert (Hp : Permutation table
                 (sort_by (fun a b : string * Z => (snd a <=? snd b)%Z) table))
    by apply sort_by_perm.
  split; [|split; [apply ascending_sorted|split]].
  - unfold values. rewrite <- (sum_perm _ _ (Permutation_map snd Hp)).
    fold (values table). unfold table. rewrite groupby_sum_total.
    cbn [MyWcc.summary_stats MyWcc.total_staff].
    rewrite <- (sum_filter_split
                  (fun r => match MyWcc.GroupName r with
                            | Some _ => true
                            | None => false
                            end) MyWcc.StaffCount data).
    f_equal.
    + f_equal. clear. induction data as [|r data IH]; [reflexivity|].
      cbn [map filter fst]. destruct (MyWcc.GroupName r); cbn [map snd];
        now rewrite IH.
    + f_equal. f_equal. apply filter_ext. intro r.
      now destruct (MyWcc.GroupName r).
  - unfold keys. eapply Permutation_NoDup; [apply Permutation_map, Hp|].
    fold (keys table). unfold table. rewrite groupby_sum_keys.
    apply group_keys_nodup.
  - intro Hg. unfold table.
    destruct data as [|r0 data0] eqn:E; [reflexivity|]. rewrite <- E.
    rewrite (groupby_sum_one_group filter_group).
    + cbn [sort_by insert_by MyWcc.summary_stats MyWcc.total_staff].
      now rewrite map_map.
    + rewrite E. discriminate.
    + apply Forall_forall. intros [v z] Hr. apply in_map_iff in Hr.
      destruct Hr as [r [Er Hr]]. injection Er as <- <-. cbn [fst].
      apply mywcc_filtered_data_spec in Hr. tauto.
Qed.

(** X12.  [location_distribution] shows at most ten locations, by
    falling total, each once, and no location left out has more staff
    than one that is shown. *)
Theorem wcc_location_bars_are_the_largest (data : list MyWcc.merged_row) :
  let totals :=
    groupby_sum (map (fun r => (MyWcc.LocationName r, MyWcc.StaffCount r)) data) in
  let bars := MyWcc.location_distribution data in
  List.length bars = Nat.min 10 (List.length totals)
  /\ StronglySorted (fun a b : string * Z => snd b <= snd a) bars
  /\ NoDup (keys bars)
  /\ (forall e, In e bars -> In e totals)
  /\ (forall e e', In e totals /\ ~ In e bars /\ In e' bars -> snd e <= snd e').
Proof.
  cbv zeta. unfold MyWcc.location_distribution.
  set (totals := groupby_sum
                   (map (fun r => (MyWcc.LocationName r, MyWcc.StaffCount r)) data)).
  change (sort_by (fun a b : string * Z => (snd b <=? snd a)%Z) totals)
    with (MyHcc.sort_values_descending totals).
  pose proof (descending_sorted totals) as Hsorted.
  assert (Hp : Permutation totals (MyHcc.sort_values_descending totals))
    by apply sort_by_perm.
  split; [rewrite length_firstn; now rewrite <- (Permutation_length Hp)|].
  split.
  { rewrite <- (firstn_skipn 10 (MyHcc.sort_values_descending totals)) in Hsorted.
    clear - Hsorted.
    induction (firstn 10 (MyHcc.sort_values_descending totals)) as [|a l IH];
      [constructor|].
    cbn [app] in Hsorted. inversion Hsorted as [|? ? Hs Ha]; subst.
    constructor; [now apply IH|].
    apply Forall_app in Ha. now destruct Ha. }
  split.
  { unfold keys. rewrite <- firstn_map. apply NoDup_firstn.
    eapply Permutation_NoDup; [apply Permutation_map, Hp|].
    fold (keys totals). unfold totals. rewrite groupby_sum_keys.
    apply group_keys_nodup. }
  split.
  { intros e He. apply in_firstn in He.
    eapply Permutation_in; [apply Permutation_sym, Hp|exact He]. }
  intros e e' [He [Hout Hin]].
  apply (descending_rest_below 10 (MyHcc.sort_values_descending totals));
    [exact Hsorted|exact Hin|].
  assert (H : In e (MyHcc.sort_values_descending totals))
    by (eapply Permutation_in; [exact Hp|exact He]).
  rewrite <- (firstn_skipn 10 (MyHcc.sort_values_descending totals)) in H.
  apply in_app_or in H. destruct H as [H|H]; [contradiction|exact H].
Qed.

End WccOverview.

(** ** Loading the HCC positions *)
Section HccData.
Import Py MultiCouncil.
Open Scope Z_scope.
Open Scope string_scope.

(** [rstrip] leaves no white space at the end. *)
Lemma rstrip_no_space_at_end (s t : string) (c : ascii) :
  is_space c = true -> rstrip s <> t ++ String c "".
Proof.
  intro Hc. revert t. induction s as [|a s IH]; intro t; cbn [rstrip].
  - destruct t; discriminate.
  - destruct (rstrip s) as [|b r] eqn:E.
    + destruct (is_space a) eqn:Ea; [destruct t; discriminate|].
      destruct t as [|x [|y t]]; cbn [append]; try discriminate.
      intros [= ->]. congruence.
    + destruct t as [|x t]; cbn [append]; [discriminate|].
      intros [= _ H]. now apply (IH t).
Qed.

Lemma strip_no_space_at_end (s t : string) (c : ascii) :
  is_space c = true -> strip s <> t ++ String c "".
Proof. intro Hc. unfold strip. now apply rstrip_no_space_at_end. Qed.

Lemma mapM_inv {A B : Type} (f : A -> result B) (l : list A) (ys : list B) :
  mapM f l = Ok ys -> Forall2 (fun x y => f x = Ok y) l ys.
Proof.
  revert ys. induction l as [|x l IH]; intro ys; cbn [mapM].
  - intros [= <-]. constructor.
  - destruct (f x) as [y|e] eqn:Ex; cbn [bind]; [|discriminate].
    destruct (mapM f l) as [ys'|e]; cbn [bind]; [|discriminate].
    intros [= <-]. constructor; [exact Ex|now apply IH].
Qed.

Lemma mapM_raise_inv {A B : Type} (f : A -> result B) (l : list A) (e : exn) :
  mapM f l = Raise e -> Exists (fun x => f x = Raise e) l.
Proof.
  induction l as [|x l IH]; cbn [mapM]; [discriminate|].
  destruct (f x) as [y|e'] eqn:Ex; cbn [bind].
  - destruct (mapM f l) as [ys'|e'']; cbn [bind]; [discriminate|].
    intros [= ->]. right. now apply IH.
  - intros [= ->]. now left.
Qed.

Lemma str_accessor_ok (column values : list (option string)) :
  str_accessor column = Ok values -> values = column.
Proof.
  unfold str_accessor. destruct column as [|v column]; [now intros [= <-]|].
  destruct (forallb _ _); [discriminate|now intros [= <-]].
Qed.

Lemma get_job_level_raises (title : option string) (e : exn) :
  get_job_level title = Raise e -> title = None /\ e = AttributeError.
Proof.
  destruct title as [t|]; [|now intros [= <-]].
  destruct (get_job_level_present t) as [c ->]. discriminate.
Qed.

Lemma categorize_job_title_raises_missing (title : option string) (e : exn) :
  categorize_job_title title = Raise e -> title = None /\ e = AttributeError.
Proof.
  destruct title as [t|]; [|now intros [= <-]].
  destruct (categorize_job_title_present t) as [c ->]. discriminate.
Qed.

(** The rows of a value of [hcc_data()], column by column. *)
Lemma hcc_data_rows (council_select : string) (hcc_available : bool)
    (csv : option (list hcc_position)) (out : list hcc_row) :
  hcc_data council_select hcc_available csv = Ok (Frame out) ->
  exists df,
    csv = Some df
    /\ Forall2 (fun r o =>
                  row_position o
                  = {| pos_Job_Title := pos_Job_Title r;
                       pos_Group := str_strip (pos_Group r);
                       pos_Division := pos_Division r;
                       pos_Manager_Job_Title := pos_Manager_Job_Title r |}
                  /\ row_StaffCount o = 1
                  /\ categorize_job_title (pos_Job_Title r) = Ok (row_JobCategory o)
                  /\ get_job_level (pos_Job_Title r) = Ok (row_JobLevel o)
                  /\ WCC_Equivalent_Group o
                     = equivalent_group (str_strip (pos_Group r)))
               df out.
Proof.
  unfold hcc_data. destruct (hcc_selected _ _); [|discriminate].
  destruct csv as [df|]; [|discriminate]. intro H. exists df. split; [reflexivity|].
  destruct (str_accessor (map pos_Group df)) as [groups|] eqn:Eg;
    cbn [bind] in H; [|discriminate].
  apply str_accessor_ok in Eg. subst groups.
  destruct (mapM _ df) as [categories|] eqn:Ec; cbn [bind] in H; [|discriminate].
  destruct (mapM (fun r => get_job_level _) df) as [levels|] eqn:El;
    cbn [bind] in H; [|discriminate].
  injection H as <-. apply mapM_inv in Ec, El. rewrite map_map.
  revert categories levels Ec El.
  induction df as [|r df IH]; intros categories levels Ec El.
  - inversion Ec; subst. constructor.
  - inversion Ec as [|? c ? cs Hc Hcs]; subst.
    inversion El as [|? l ? ls Hl Hls]; subst.
    cbn [map combine]. constructor; [|now apply IH].
    cbn. repeat split; assumption.
Qed.

Lemma Forall2_length_eq {A B : Type} (P : A -> B -> Prop) (l : list A) (l' : list B) :
  Forall2 P l l' -> List.length l = List.length l'.
Proof. induction 1; cbn [List.length]; congruence. Qed.

(** X13.  When the HCC file is selected and read, [hcc_data] either
    returns one row per position of the file, each with a staff count
    of 1, or raises [AttributeError]; it raises exactly when a position
    has no job title, or when the file has positions and none of them
    has a group. *)
Theorem hcc_data_loads_or_raises (council_select : string) (hcc_available : bool)
    (df : list hcc_position) :
  hcc_selected council_select hcc_available = true ->
  match hcc_data council_select hcc_available (Some df) with
  | Ok out =>
      exists rows,
        out = Frame rows
        /\ List.length rows = List.length df
        /\ sum (map row_StaffCount rows) = Z.of_nat (List.length df)
        /\ Forall (fun r => pos_Job_Title r <> None) df
        /\ (df = [] \/ Exists (fun r => pos_Group r <> None) df)
  | Raise e =>
      e = AttributeError
      /\ (Exists (fun r => pos_Job_Title r = None) df
          \/ (df <> [] /\ Forall (fun r => pos_Group r = None) df))
  end.
Proof.
  intro Hsel.
  destruct (hcc_data council_select hcc_available (Some df)) as [out|e] eqn:E.
  - destruct out as [|rows].
    { unfold hcc_data in E. rewrite Hsel in E.
      destruct (str_accessor _); cbn [bind] in E; [|discriminate].
      destruct (mapM _ df); cbn [bind] in E; [|discriminate].
      destruct (mapM _ df); cbn [bind] in E; discriminate. }
    exists rows. split; [reflexivity|].
    pose proof (hcc_data_rows _ _ _ _ E) as [df' [[= <-] Hrows]].
    split; [symmetry; exact (Forall2_length_eq _ _ _ Hrows)|]. split.
    { clear E. induction Hrows as [|r o df rows [_ [H1 _]] _ IH]; [reflexivity|].
      cbn [map List.length]. rewrite sum_cons, IH, H1. lia. }
    split.
    { clear E. induction Hrows as [|r o df rows [_ [_ [Hc _]]] _ IH];
        constructor; [|exact IH].
      intro Hnone. rewrite Hnone in Hc. discriminate. }
    unfold hcc_data in E. rewrite Hsel in E.
    destruct df as [|r df]; [now left|right].
    unfold str_accessor in E. cbn [map] in E.
    destruct (forallb _ (pos_Group r :: map pos_Group df)) eqn:Ef;
      cbn [bind] in E; [discriminate|].
    clear E. apply Exists_exists.
    assert (Hex : exists v, In v (pos_Group r :: map pos_Group df)
                            /\ match v with Some _ => false | None => true end = false).
    { clear - Ef. induction (pos_Group r :: map pos_Group df) as [|v l IH];
        [discriminate|].
      cbn [forallb] in Ef. apply andb_false_iff in Ef. destruct Ef as [Ef|Ef].
      - exists v. split; [now left|exact Ef].
      - destruct (IH Ef) as [w [Hw Hf]]. exists w. split; [now right|exact Hf]. }
    destruct Hex as [v [Hv Hf]].
    change (pos_Group r :: map pos_Group df) with (map pos_Group (r :: df)) in Hv.
    apply in_map_iff in Hv. destruct Hv as [x [<- Hx]].
    exists x. split; [exact Hx|]. now destruct (pos_Group x).
  - unfold hcc_data in E. rewrite Hsel in E.
    destruct (str_accessor (map pos_Group df)) as [groups|e'] eqn:Eg;
      cbn [bind] in E.
    + destruct (mapM (fun r => categorize_job_title _) df) as [categories|e'] eqn:Ec;
        cbn [bind] in E.
      * destruct (mapM (fun r => get_job_level _) df) as [levels|e'] eqn:El;
          cbn [bind] in E; [discriminate|].
        injection E as <-. apply mapM_raise_inv in El.
        apply Exists_exists in El. destruct El as [r [Hr Hraise]].
        apply get_job_level_raises in Hraise. destruct Hraise as [Hnone ->].
        split; [reflexivity|left]. apply Exists_exists. now exists r.
      * injection E as <-. apply mapM_raise_inv in Ec.
        apply Exists_exists in Ec. destruct Ec as [r [Hr Hraise]].
        apply categorize_job_title_raises_missing in Hraise.
        destruct Hraise as [Hnone ->].
        split; [reflexivity|left]. apply Exists_exists. now exists r.
    + injection E as <-. unfold str_accessor in Eg.
      destruct df as [|r df]; [discriminate|]. cbn [map] in Eg.
      destruct (forallb _ (pos_Group r :: map pos_Group df)) eqn:Ef;
        [|discriminate].
      injection Eg as <-. split; [reflexivity|right]. split; [discriminate|].
      change (pos_Group r :: map pos_Group df) with (map pos_Group (r :: df)) in Ef.
      rewrite forallb_forall in Ef. apply Forall_forall. intros x Hx.
      specialize (Ef (pos_Group x) (in_map pos_Group _ _ Hx)).
      now destruct (pos_Group x).
Qed.

Lemma hcc_data_loads_or_raises_witness :
  exists rows,
    Frame [ {| row_position :=
                 {| pos_Job_Title := Some "Planner";
                    pos_Group := Some "Strategy & Engagement";
                    pos_Division := None;
                    pos_Manager_Job_Title := None |};
               row_StaffCount := 1;
               row_JobCategory := "Professional";
               row_JobLevel := "Mid-level";
               WCC_Equivalent_Group := "Strategy & Finance" |} ]
    = Frame rows
    /\ List.length rows = 1%nat
    /\ sum (map row_StaffCount rows) = 1
    /\ Forall (fun r => pos_Job_Title r <> None)
         [ {| pos_Job_Title := Some "Planner";
              pos_Group := Some " Strategy & Engagement ";
              pos_Division := None;
              pos_Manager_Job_Title := None |} ]
    /\ ([ {| pos_Job_Title := Some "Planner";
             pos_Group := Some " Strategy & Engagement ";
             pos_Division := None;
             pos_Manager_Job_Title := None |} ] = []
        \/ Exists (fun r => pos_Group r <> None)
             [ {| pos_Job_Title := Some "Planner";
                  pos_Group := Some " Strategy & Engagement ";
                  pos_Division := None;
                  pos_Manager_Job_Title := None |} ]).
Proof.
  exact (hcc_data_loads_or_raises "Hutt City Council" true
           [ {| pos_Job_Title := Some "Planner";
                pos_Group := Some " Strategy & Engagement ";
                pos_Division := None;
                pos_Manager_Job_Title := None |} ] eq_refl).
Defined.

Lemma hcc_staff_no_trailing_space (out : list hcc_row) (k : string) :
  Forall (fun o => pos_Group (row_position o) <> Some k) out ->
  dict_get_default (hcc_staff (Frame (map hcc_columns out))) k 0 = 0.
Proof.
  intro Hout. unfold dict_get_default, hcc_staff.
  destruct (negb (empty (Frame (map hcc_columns out)))); [|reflexivity].
  rewrite groupby_sum_get.
  destruct (mem k _) eqn:E; [|reflexivity].
  apply mem_In, in_group_keys in E. cbn [rows_of] in E.
  rewrite !map_map in E. cbn [fst] in E.
  apply in_map_iff in E. destruct E as [o [Eo Ho]].
  rewrite Forall_forall in Hout. now destruct (Hout o Ho).
Qed.

Lemma department_mapping_both
    (staff_assignments : frame Tables.assignment)
    (business_units : frame Tables.business_unit)
    (business_groups : frame Tables.business_group)
    (hcc_data : frame hcc_record) :
  department_mapping true true staff_assignments business_units business_groups
    hcc_data
  = (ws <- wcc_staff staff_assignments business_units business_groups ;;
     Ok (Frame (sort_by mapping_leb
                  (mapped_rows ws (hcc_staff hcc_data) ++ wcc_only_rows ws)%list))).
Proof. reflexivity. Qed.

(** X14.  [hcc_data] strips the group names, so no row of its value
    carries the key of [GROUP_MAPPINGS] that ends in a space: a position
    filed under 'Neighbourhoods & Communities ' is counted under the
    trimmed name and mapped to 'Customer & Community', and the record
    of the department mapping for the key with the space always shows
    an HCC staff of 0. *)
Theorem trailing_space_mapping_never_matches
    (council_select : string) (hcc_available : bool)
    (df : list hcc_position) (out : list hcc_row) :
  hcc_data council_select hcc_available (Some df) = Ok (Frame out) ->
  Forall (fun o =>
            pos_Group (row_position o) <> Some "Neighbourhoods & Communities ")
         out
  /\ Forall2 (fun r o =>
                pos_Group r = Some "Neighbourhoods & Communities " ->
                pos_Group (row_position o) = Some "Neighbourhoods & Communities"
                /\ WCC_Equivalent_Group o = "Customer & Community")
             df out
  /\ (forall staff_assignments business_units business_groups report,
        department_mapping true true staff_assignments business_units
          business_groups (Frame (map hcc_columns out)) = Ok (Frame report) ->
        Forall (fun record =>
                  HCC_Group record = "Neighbourhoods & Communities " ->
                  HCC_Staff record = 0)
               report).
Proof.
  intro H. apply hcc_data_rows in H. destruct H as [df' [[= <-] Hrows]].
  assert (Hout : Forall (fun o => pos_Group (row_position o)
                                  <> Some "Neighbourhoods & Communities ") out).
  { clear - Hrows. induction Hrows as [|r o df out [Hp _] _ IH];
      constructor; [|exact IH].
    rewrite Hp. cbn [pos_Group]. destruct (pos_Group r) as [g|]; [|discriminate].
    cbn [str_strip option_map]. intros [= Hg].
    now apply (strip_no_space_at_end g "Neighbourhoods & Communities" " "%char). }
  split; [exact Hout|]. split.
  - clear Hout. induction Hrows as [|r o df out [Hp [_ [_ [_ Hw]]]] _ IH];
      constructor; [|exact IH].
    intro Hg. rewrite Hp, Hw, Hg. split; reflexivity.
  - intros sa bu bg report. rewrite department_mapping_both.
    destruct (wcc_staff sa bu bg) as [ws|e]; unfold bind; [|discriminate].
    remember (mapped_rows ws (hcc_staff (Frame (map hcc_columns out)))
              ++ wcc_only_rows ws)%list as records eqn:Erecords.
    intro Hd. injection Hd as Hd. subst report.
    apply Forall_forall. intros record Hrec Hkey.
    apply (Permutation_in _ (Permutation_sym (sort_by_perm _ _))) in Hrec.
    subst records.
    apply in_app_or in Hrec. destruct Hrec as [Hrec|Hrec].
    + destruct (mapped_rows_spec ws (hcc_staff (Frame (map hcc_columns out))))
        as [_ Hall].
      rewrite Forall_forall in Hall. destruct (Hall record Hrec) as [_ [-> _]].
      rewrite Hkey. now apply hcc_staff_no_trailing_space.
    + destruct (wcc_only_rows_spec ws) as [_ Hall].
      rewrite Forall_forall in Hall. now destruct (Hall record Hrec) as [_ [-> _]].
Qed.

Lemma trailing_space_mapping_never_matches_witness :
  let df := [ {| pos_Job_Title := Some "Librarian";
                 pos_Group := Some "Neighbourhoods & Communities ";
                 pos_Division := Some "Libraries";
                 pos_Manager_Job_Title := Some "Head of Libraries" |} ] in
  exists out,
    hcc_data "Compare Councils" true (Some df) = Ok (Frame out)
    /\ Forall (fun o =>
                 pos_Group (row_position o) <> Some "Neighbourhoods & Communities ")
              out
    /\ Forall2 (fun r o =>
                  pos_Group r = Some "Neighbourhoods & Communities " ->
                  pos_Group (row_position o) = Some "Neighbourhoods & Communities"
                  /\ WCC_Equivalent_Group o = "Customer & Community")
               df out
    /\ (forall staff_assignments business_units business_groups report,
          department_mapping true true staff_assignments business_units
            business_groups (Frame (map hcc_columns out)) = Ok (Frame report) ->
          Forall (fun record =>
                    HCC_Group record = "Neighbourhoods & Communities " ->
                    HCC_Staff record = 0)
                 report).
Proof.
  intro df. eexists. split; [vm_compute; reflexivity|].
  apply (trailing_space_mapping_never_matches "Compare Councils" true df).
  vm_compute. reflexivity.
Defined.

End HccData.

(** ** The comparison of the two councils *)
Section CouncilComparison.
Import Py MultiCouncil.
Open Scope Z_scope.
Open Scope string_scope.

Lemma dict_get_default_cons (d : dict Z) (k v : string) (c : Z) :
  dict_get_default ((k, c) :: d) v 0
  = if v =? k then c else dict_get_default d v 0.
Proof. unfold dict_get_default. cbn [dict_get]. now destruct (v =? k). Qed.

Lemma dict_get_default_absent (d : dict Z) (k : string) :
  ~ In k (keys d) -> dict_get_default d k 0 = 0.
Proof.
  induction d as [|[k' c] d IH]; [reflexivity|]. cbn [keys map fst In].
  intro H. rewrite dict_get_default_cons.
  destruct (String.eqb_spec k k') as [->|Hne]; [tauto|].
  apply IH. unfold keys. tauto.
Qed.

(** Looking up distinct names in a table adds up to the entries of the
    table under those names. *)
Lemma sum_of_lookups (d : dict Z) (names : list string) :
  NoDup (keys d) -> NoDup names ->
  sum (map (fun v => dict_get_default d v 0) names)
  = sum (map snd (filter (fun e => mem (fst e) names) d)).
Proof.
  intros Hd Hnames. induction d as [|[k c] d IH].
  - cbn [filter map]. rewrite sum_nil. apply sum_map_zero.
  - cbn [keys map fst] in Hd. inversion Hd as [|? ? Hk Hd']; subst.
    rewrite (map_ext_in _ (fun v => (if col_eq (Some k) v then c else 0)
                                    + dict_get_default d v 0)).
    + rewrite sum_map_add, sum_own_key, (IH Hd') by exact Hnames.
      cbn [filter fst]. destruct (mem k names); cbn [map snd];
        rewrite ?sum_cons; lia.
    + intros v _. rewrite dict_get_default_cons. cbn [col_eq].
      rewrite (String.eqb_sym k v).
      destruct (String.eqb_spec v k) as [->|Hne]; [|lia].
      rewrite (dict_get_default_absent d k Hk). lia.
Qed.

Lemma dict_get_default_entry (d : dict Z) (e : string * Z) :
  NoDup (keys d) -> In e d -> dict_get_default d (fst e) 0 = snd e.
Proof.
  induction d as [|[k c] d IH]; [contradiction|].
  cbn [keys map fst]. intros Hd He. inversion Hd as [|? ? Hk Hd']; subst.
  rewrite dict_get_default_cons. destruct He as [<-|He].
  - cbn [fst snd]. now rewrite String.eqb_refl.
  - destruct (String.eqb_spec (fst e) k) as [E|_]; [|now apply IH].
    destruct Hk. rewrite <- E. unfold keys. now apply in_map.
Qed.

Lemma groupby_sum_nonneg (rows : list (option string * Z)) :
  Forall (fun r => 0 <= snd r) rows ->
  Forall (fun e => 0 <= snd e) (groupby_sum rows).
Proof.
  intro Hrows. unfold groupby_sum. apply Forall_forall. intros e He.
  apply in_map_iff in He. destruct He as [k [<- _]]. cbn [snd].
  apply sum_nonneg, Forall_forall. intros z Hz.
  apply in_map_iff in Hz. destruct Hz as [r [<- Hr]].
  apply filter_In in Hr. rewrite Forall_forall in Hrows. now apply Hrows.
Qed.

Lemma dict_get_default_nonneg (d : dict Z) (k : string) :
  Forall (fun e => 0 <= snd e) d -> 0 <= dict_get_default d k 0.
Proof.
  intro Hd. induction Hd as [|[k' c] d Hc Hd IH]; [cbn; lia|].
  rewrite dict_get_default_cons. now destruct (k =? k').
Qed.

Lemma sum_filter_le (p : string * Z -> bool) (d : dict Z) :
  Forall (fun e => 0 <= snd e) d ->
  sum (map snd (filter p d)) <= sum (map snd d).
Proof.
  intro Hd. rewrite <- (sum_filter_split p snd d).
  assert (0 <= sum (map snd (filter (fun x => negb (p x)) d))); [|lia].
  apply sum_nonneg, Forall_forall. intros z Hz.
  apply in_map_iff in Hz. destruct Hz as [e [<- He]].
  apply filter_In in He. rewrite Forall_forall in Hd. now apply Hd.
Qed.

Lemma council_groups_nonneg (council : string) (data : list unified_row) :
  Forall (fun r => 0 <= u_StaffCount r) data ->
  Forall (fun e => 0 <= snd e) (council_groups council data).
Proof.
  intro Hdata. apply groupby_sum_nonneg, Forall_forall. intros r Hr.
  apply in_map_iff in Hr. destruct Hr as [x [<- Hx]]. cbn [snd].
  apply filter_In in Hx. rewrite Forall_forall in Hdata. now apply Hdata.
Qed.

Lemma sum_flat_map_if {A R : Type} (proj : R -> Z) (cond : A -> bool)
    (mk : A -> R) (l : list A) :
  sum (map proj (flat_map (fun a => if cond a then [mk a] else []) l))
  = sum (map (fun a => if cond a then proj (mk a) else 0) l).
Proof.
  induction l as [|a l IH]; [reflexivity|].
  cbn [flat_map map]. destruct (cond a); cbn [app map]; rewrite !sum_cons; lia.
Qed.

Lemma sum_map_if_filter {A : Type} (f : A -> Z) (p : A -> bool) (l : list A) :
  sum (map (fun a => if p a then f a else 0) l) = sum (map f (filter p l)).
Proof.
  induction l as [|a l IH]; [reflexivity|].
  cbn [map filter]. destruct (p a); cbn [map]; rewrite !sum_cons; lia.
Qed.

Lemma sum_app (l l' : list Z) : sum (l ++ l') = sum l + sum l'.
Proof.
  induction l as [|x l IH]; cbn [app]; rewrite ?sum_nil, ?sum_cons; lia.
Qed.

Lemma mapping_targets_mem (k : string) :
  mem k (values GROUP_MAPPINGS)
  = mem k ["Economic & Engagement"; "Planning & Environment";
           "Customer & Community"; "Chief Executives Office";
           "Strategy & Finance"].
Proof.
  unfold mem, values, GROUP_MAPPINGS. cbn [map snd existsb].
  destruct (k =? "Economic & Engagement"), (k =? "Planning & Environment"),
    (k =? "Customer & Community"), (k =? "Chief Executives Office"),
    (k =? "Strategy & Finance"); reflexivity.
Qed.

(** X15.  [group_size_comparison] counts the WCC group
    'Customer & Community' twice, once for each of the two keys of
    [GROUP_MAPPINGS] that map to it: the Wellington bars add up to the
    WCC staff that has a group plus the staff of that group.  The Hutt
    bars are the HCC groups named by a key of the table; the staff of
    any other HCC group is in no bar.  With nothing to show, the
    function raises [KeyError] on the column 'Function'. *)
Theorem group_size_comparison_totals (merged : frame unified_row) :
  empty merged = false ->
  Forall (fun r => 0 <= u_StaffCount r) (rows_of merged) ->
  let wcc_groups := council_groups "Wellington" (rows_of merged) in
  let hcc_groups := council_groups "Hutt" (rows_of merged) in
  exists comparison_data,
    group_size_comparison "Compare Councils" merged
    = match comparison_data with
      | [] => Raise (KeyError "Function")
      | _ :: _ => Ok (Some comparison_data)
      end
    /\ sum (map Wellington comparison_data)
       = sum (values wcc_groups)
         + dict_get_default wcc_groups "Customer & Community" 0
    /\ sum (map Hutt comparison_data)
       = sum (map (fun a => dict_get_default hcc_groups a 0) (keys GROUP_MAPPINGS))
    /\ sum (map Hutt comparison_data) <= sum (values hcc_groups).
Proof.
  intros Hne Hnn. cbv zeta.
  set (wcc := council_groups "Wellington" (rows_of merged)).
  set (hcc := council_groups "Hutt" (rows_of merged)).
  pose proof (council_groups_nonneg "Wellington" _ Hnn) as Hwcc. fold wcc in Hwcc.
  pose proof (council_groups_nonneg "Hutt" _ Hnn) as Hhcc. fold hcc in Hhcc.
  assert (Hwk : NoDup (keys wcc))
    by (unfold wcc, council_groups; rewrite groupby_sum_keys; apply group_keys_nodup).
  assert (Hhk : NoDup (keys hcc))
    by (unfold hcc, council_groups; rewrite groupby_sum_keys; apply group_keys_nodup).
  set (cond := fun pair : string * string =>
                 (0 <? dict_get_default hcc (fst pair) 0)%Z
                 || (0 <? dict_get_default wcc (snd pair) 0)%Z).
  set (mk := fun pair : string * string =>
               {| Function := snd pair;
                  Wellington := dict_get_default wcc (snd pair) 0;
                  Hutt := dict_get_default hcc (fst pair) 0 |}).
  set (mk_only := fun k : string =>
                    {| Function := k;
                       Wellington := dict_get_default wcc k 0;
                       Hutt := 0 |}).
  set (is_only := fun k : string => negb (mem k (values GROUP_MAPPINGS))).
  set (mapped := flat_map (fun pair => if cond pair then [mk pair] else [])
                          GROUP_MAPPINGS).
  set (only := flat_map (fun k => if is_only k then [mk_only k] else [])
                        (keys wcc)).
  exists (mapped ++ only)%list. split.
  { unfold group_size_comparison. rewrite Hne.
    change ("Compare Councils" =? "Compare Councils") with true. cbn [negb].
    fold wcc hcc. unfold mapped, only, cond, mk, mk_only, is_only.
    now destruct (_ ++ _)%list. }
  assert (Hcond_w : forall pair,
             (if cond pair then Wellington (mk pair) else 0)
             = dict_get_default wcc (snd pair) 0).
  { intro pair. unfold cond, mk. cbn [Wellington].
    pose proof (dict_get_default_nonneg wcc (snd pair) Hwcc).
    destruct (Z.ltb_spec 0 (dict_get_default hcc (fst pair) 0));
      destruct (Z.ltb_spec 0 (dict_get_default wcc (snd pair) 0));
      cbn [orb]; lia. }
  assert (Hcond_h : forall pair,
             (if cond pair then Hutt (mk pair) else 0)
             = dict_get_default hcc (fst pair) 0).
  { intro pair. unfold cond, mk. cbn [Hutt].
    pose proof (dict_get_default_nonneg hcc (fst pair) Hhcc).
    destruct (Z.ltb_spec 0 (dict_get_default hcc (fst pair) 0));
      destruct (Z.ltb_spec 0 (dict_get_default wcc (snd pair) 0));
      cbn [orb]; lia. }
  assert (Honly_h : sum (map Hutt only) = 0).
  { unfold only. rewrite (sum_flat_map_if Hutt is_only mk_only).
    rewrite (map_ext _ (fun _ => 0)) by (intro k; now destruct (is_only k)).
    apply sum_map_zero. }
  assert (Hmapped_h : sum (map Hutt mapped)
                      = sum (map (fun a => dict_get_default hcc a 0)
                                 (keys GROUP_MAPPINGS))).
  { unfold mapped. rewrite (sum_flat_map_if Hutt cond mk).
    rewrite (map_ext _ _ Hcond_h). unfold keys. now rewrite map_map. }
  split; [|split].
  - rewrite map_app, sum_app. unfold values at 1.
    rewrite <- (sum_filter_split
                  (fun e : string * Z => mem (fst e) (values GROUP_MAPPINGS))
                  snd wcc).
    assert (Hm : sum (map Wellington mapped)
                 = sum (map snd (filter (fun e : string * Z =>
                                           mem (fst e) (values GROUP_MAPPINGS)) wcc))
                   + dict_get_default wcc "Customer & Community" 0).
    { unfold mapped. rewrite (sum_flat_map_if Wellington cond mk).
      rewrite (map_ext _ _ Hcond_w).
      rewrite (filter_ext _ _ (fun e => mapping_targets_mem (fst e))).
      rewrite <- sum_of_lookups;
        [|exact Hwk
         |repeat constructor; cbn [In]; intuition discriminate].
      unfold GROUP_MAPPINGS. cbn [map snd]. rewrite !sum_cons, !sum_nil. lia. }
    assert (Ho : sum (map Wellington only)
                 = sum (map snd (filter (fun e : string * Z =>
                                           negb (mem (fst e) (values GROUP_MAPPINGS)))
                                        wcc))).
    { unfold only. rewrite (sum_flat_map_if Wellington is_only mk_only).
      unfold keys. rewrite map_map.
      rewrite <- (sum_map_if_filter snd
                    (fun e : string * Z => negb (mem (fst e) (values GROUP_MAPPINGS)))).
      f_equal. apply map_ext_in. intros e He. unfold is_only, mk_only.
      cbn [Wellington]. now rewrite (dict_get_default_entry wcc e Hwk He). }
    lia.
  - rewrite map_app, sum_app, Hmapped_h, Honly_h. lia.
  - rewrite map_app, sum_app, Hmapped_h, Honly_h, Z.add_0_r.
    rewrite sum_of_lookups;
      [|exact Hhk
       |unfold keys, GROUP_MAPPINGS; cbn [map fst];
        repeat constructor; cbn [In]; intuition discriminate].
    now apply sum_filter_le.
Qed.

Lemma group_size_comparison_totals_witness :
  exists comparison_data,
    group_size_comparison "Compare Councils" (Frame Scenario.compared)
    = match comparison_data with
      | [] => Raise (KeyError "Function")
      | _ :: _ => Ok (Some comparison_data)
      end
    /\ sum (map Wellington comparison_data) = 4 + 4
    /\ sum (map Hutt comparison_data) = 2
    /\ sum (map Hutt comparison_data) <= 2.
Proof.
  apply (group_size_comparison_totals (Frame Scenario.compared)).
  - reflexivity.
  - repeat constructor; cbn; lia.
Defined.

(** The bars of the example: 'Customer & Community' twice. *)
Example group_size_comparison_example :
  group_size_comparison "Compare Councils" (Frame Scenario.compared)
  = Ok (Some [ {| Function := "Customer & Community"; Wellington := 4; Hutt := 1 |};
               {| Function := "Customer & Community"; Wellington := 4; Hutt := 0 |};
               {| Function := "Chief Executives Office"; Wellington := 0; Hutt := 1 |} ]).
Proof. vm_compute. reflexivity. Qed.

End CouncilComparison.

(** ** The combined data of the comparison *)
Section CompareData.
Import Py MultiCouncil Design.
Open Scope Z_scope.
Open Scope string_scope.

Lemma filter_council_wcc (wcc : list merged_row) (hcc : list hcc_row) :
  filter (fun r => Council r =? "Wellington")
         (map wcc_unified wcc ++ map hcc_unified hcc)
  = map wcc_unified wcc.
Proof.
  rewrite filter_app. rewrite <- (app_nil_r (map wcc_unified wcc)) at 2. f_equal.
  - induction wcc as [|r wcc IH]; [reflexivity|]. cbn [map filter Council wcc_unified].
    change ("Wellington" =? "Wellington") with true. cbv iota. now rewrite IH.
  - induction hcc as [|r hcc IH]; [reflexivity|]. exact IH.
Qed.

Lemma filter_council_hcc (wcc : list merged_row) (hcc : list hcc_row) :
  filter (fun r => Council r =? "Hutt")
         (map wcc_unified wcc ++ map hcc_unified hcc)
  = map hcc_unified hcc.
Proof.
  rewrite filter_app. rewrite <- (app_nil_l (map hcc_unified hcc)) at 2. f_equal.
  - induction wcc as [|r wcc IH]; [reflexivity|]. exact IH.
  - induction hcc as [|r hcc IH]; [reflexivity|]. cbn [map filter Council hcc_unified].
    change ("Hutt" =? "Hutt") with true. cbv iota. now rewrite IH.
Qed.

(** X16.  With ids that name at most one row of their table, every
    title id found and both files loaded, the combined data of the
    comparison holds every WCC fact row and every HCC position once,
    and its staff by council is what [council_comparison] shows as
    'Total Staff': the sum of the WCC staff counts, and the number of
    HCC positions. *)
Theorem comparison_totals_agree
    (facts : list Tables.assignment) (units : list Tables.business_unit)
    (groups : list Tables.business_group) (titles : list Tables.job_title)
    (pay_locations : frame Tables.pay_location)
    (df : list hcc_position) (out : list hcc_row) :
  NoDup (map Tables.bu_UnitID units) ->
  NoDup (map Tables.bg_GroupID groups) ->
  NoDup (map Tables.jt_TitleID titles) ->
  NoDup (map Tables.pl_LocationID (rows_of pay_locations)) ->
  facts <> [] ->
  Forall (fun a => find (Tables.on_TitleID a) titles <> None) facts ->
  df <> [] ->
  hcc_data "Compare Councils" true (Some df) = Ok (Frame out) ->
  exists rows metrics,
    merged_data_compare true true (Frame facts) (Frame units) (Frame groups)
      (Frame titles) pay_locations (Ok (Frame out)) = Ok (Frame rows)
    /\ council_comparison true true (Frame facts) (Frame groups) (Frame units)
         (Ok (Frame out)) = Ok (Some metrics)
    /\ List.length rows = (List.length facts + List.length df)%nat
    /\ In {| metric_Council := "Wellington"; Metric := "Total Staff";
             Value := sum (map u_StaffCount
                             (filter (fun r => Council r =? "Wellington") rows)) |}
          metrics
    /\ In {| metric_Council := "Hutt"; Metric := "Total Staff";
             Value := sum (map u_StaffCount
                             (filter (fun r => Council r =? "Hutt") rows)) |}
          metrics
    /\ sum (map u_StaffCount rows)
       = sum (map Tables.StaffCount facts) + Z.of_nat (List.length df).
Proof.
  intros Hu Hg Ht Hl Hne Htitles Hdf Hhcc.
  destruct (multicouncil_merged_data_rows facts units groups titles pay_locations
              Hu Hg Ht Hl Hne Htitles) as [mrows [Hm [Hbase _]]].
  pose proof (hcc_data_rows _ _ _ _ Hhcc) as [df' [[= <-] Hrows]].
  assert (Hlen : List.length out = List.length df)
    by (symmetry; exact (Forall2_length_eq _ _ _ Hrows)).
  assert (Hout : out <> []) by (intros ->; destruct df; [congruence|discriminate]).
  assert (Hcount : sum (map row_StaffCount out) = Z.of_nat (List.length df)).
  { clear - Hrows. induction Hrows as [|r o df out [_ [H1 _]] _ IH]; [reflexivity|].
    cbn [map List.length]. rewrite sum_cons, IH, H1. lia. }
  assert (Hstaff : sum (map u_StaffCount (map wcc_unified mrows))
                   = sum (map Tables.StaffCount facts)).
  { rewrite map_map. cbn [u_StaffCount wcc_unified].
    rewrite <- (map_map base (fun x => Tables.StaffCount (Tables.fact x))), Hbase.
    rewrite map_map. reflexivity. }
  assert (Hhutt : sum (map u_StaffCount (map hcc_unified out))
                  = Z.of_nat (List.length df)).
  { rewrite map_map. cbn [u_StaffCount hcc_unified]. exact Hcount. }
  exists (map wcc_unified mrows ++ map hcc_unified out)%list.
  eexists. split; [|split].
  - unfold merged_data_compare. destruct facts as [|a facts]; [congruence|].
    cbn [empty rows_of negb andb]. rewrite Hm. cbn [bind rows_of].
    destruct out as [|o out]; [congruence|]. cbn [empty rows_of negb bind].
    destruct mrows; reflexivity.
  - unfold council_comparison. destruct facts as [|a facts]; [congruence|].
    cbn [empty rows_of negb andb bind].
    destruct out as [|o out]; [congruence|]. cbn [empty rows_of negb bind app].
    reflexivity.
  - rewrite filter_council_wcc, filter_council_hcc, Hstaff, Hhutt.
    split.
    { rewrite length_app, !length_map, Hlen. f_equal.
      rewrite <- (length_map base mrows), Hbase. apply length_map. }
    split; [now left|]. split.
    { right. right. right. left. f_equal. now rewrite Hlen. }
    rewrite map_app, sum_app, Hstaff, Hhutt. reflexivity.
Qed.

Lemma comparison_totals_agree_witness :
  exists out rows metrics,
    hcc_data "Compare Councils" true (Some Scenario.hcc_positions) = Ok (Frame out)
    /\ merged_data_compare true true (Frame Scenario.facts) (Frame Scenario.units)
         (Frame Scenario.groups) (Frame Scenario.titles) (Frame Scenario.locations)
         (Ok (Frame out)) = Ok (Frame rows)
    /\ council_comparison true true (Frame Scenario.facts) (Frame Scenario.groups)
         (Frame Scenario.units) (Ok (Frame out)) = Ok (Some metrics)
    /\ List.length rows = 4%nat
    /\ In {| metric_Council := "Wellington"; Metric := "Total Staff";
             Value := sum (map u_StaffCount
                             (filter (fun r => Council r =? "Wellington") rows)) |}
          metrics
    /\ In {| metric_Council := "Hutt"; Metric := "Total Staff";
             Value := sum (map u_StaffCount
                             (filter (fun r => Council r =? "Hutt") rows)) |}
          metrics
    /\ sum (map u_StaffCount rows) = 10 + 2.
Proof.
  pose (out := ltac:(let t := eval vm_compute in
                       (rows_of match hcc_data "Compare Councils" true
                                        (Some Scenario.hcc_positions) with
                                | Ok f => f
                                | Raise _ => NoColumns
                                end) in exact t)).
  assert (Hout : hcc_data "Compare Councils" true (Some Scenario.hcc_positions)
                 = Ok (Frame out)) by (vm_compute; reflexivity).
  destruct (comparison_totals_agree Scenario.facts Scenario.units Scenario.groups
              Scenario.titles (Frame Scenario.locations) Scenario.hcc_positions out)
    as [rows [metrics H]].
  - repeat constructor; intros [].
  - repeat constructor; intros [].
  - repeat constructor; intros [].
  - repeat constructor; intros [].
  - discriminate.
  - repeat constructor; discriminate.
  - discriminate.
  - exact Hout.
  - exists out, rows, metrics. split; [exact Hout|exact H].
Defined.

(** The combined data of the example. *)
Example merged_data_compare_example :
  (hcc_df <- hcc_data "Compare Councils" true (Some Scenario.hcc_positions) ;;
   merged_data_compare true true (Frame Scenario.facts) (Frame Scenario.units)
     (Frame Scenario.groups) (Frame Scenario.titles) (Frame Scenario.locations)
     (Ok hcc_df))
  = Ok (Frame Scenario.compared).
Proof. vm_compute. reflexivity. Qed.

End CompareData.

(** ** The shape of the plotted Lorenz curve *)
Section LorenzShape.
Import Py.
Open Scope Z_scope.

Lemma sum_firstn_skipn (k : nat) (l : list Z) :
  sum l = sum (firstn k l) + sum (skipn k l).
Proof. rewrite <- (firstn_skipn k l) at 1. apply sum_app. Qed.

Lemma sum_firstn_step (k : nat) (l : list Z) :
  Forall (fun x => 0 <= x) l -> sum (firstn k l) <= sum (firstn (S k) l).
Proof.
  intro Hl. revert k. induction Hl as [|x l Hx Hl IH]; intro k.
  - rewrite !firstn_nil. lia.
  - destruct k as [|k]; cbn [firstn]; rewrite ?sum_nil, !sum_cons.
    + destruct l; cbn [firstn]; rewrite ?sum_nil; lia.
    + specialize (IH k). cbn [firstn] in IH. lia.
Qed.

Lemma sum_firstn_le (k : nat) (l : list Z) :
  Forall (fun x => 0 <= x) l -> 0 <= sum (firstn k l) <= sum l.
Proof.
  intro Hl. rewrite (sum_firstn_skipn k l).
  assert (H1 : Forall (fun x => 0 <= x) (firstn k l)).
  { apply Forall_forall. intros x Hx. rewrite Forall_forall in Hl.
    apply Hl. now apply (in_firstn k). }
  assert (H2 : Forall (fun x => 0 <= x) (skipn k l)).
  { apply Forall_forall. intros x Hx. rewrite Forall_forall in Hl.
    apply Hl. rewrite <- (firstn_skipn k l). apply in_or_app. now right. }
  pose proof (sum_nonneg _ H1). pose proof (sum_nonneg _ H2). lia.
Qed.

(** The smallest [k] of [n] values in ascending order hold at most the
    share [k/n] of the total. *)
Lemma ascending_prefix_share (l : list Z) (k : nat) :
  StronglySorted Z.le l -> (k <= List.length l)%nat ->
  Z.of_nat (List.length l) * sum (firstn k l) <= Z.of_nat k * sum l.
Proof.
  intro Hs. revert k. induction Hs as [|a l Hs IH Ha]; intros k Hk.
  - rewrite firstn_nil, sum_nil. lia.
  - destruct k as [|k]; [cbn [firstn]; rewrite sum_nil; lia|].
    cbn [List.length] in Hk. apply le_S_n in Hk.
    cbn [firstn List.length]. rewrite !sum_cons.
    specialize (IH k Hk).
    assert (Hrest : Z.of_nat (List.length l - k) * a <= sum (skipn k l)).
    { rewrite <- length_skipn. apply sum_lower_bound.
      apply Forall_forall. intros x Hx. rewrite Forall_forall in Ha. apply Ha.
      rewrite <- (firstn_skipn k l). apply in_or_app. now right. }
    pose proof (sum_firstn_skipn k l) as Hsplit.
    rewrite Nat2Z.inj_sub in Hrest by exact Hk. nia.
Qed.

Lemma constant_prefix_sum (c : Z) (l : list Z) (k : nat) :
  Forall (eq c) l -> (k <= List.length l)%nat ->
  sum (firstn k l) = Z.of_nat k * c.
Proof.
  intro Hl. revert k. induction Hl as [|x l <- Hl IH]; intros k Hk.
  - cbn [List.length] in Hk. replace k with 0%nat by lia. reflexivity.
  - destruct k as [|k]; [reflexivity|]. cbn [firstn List.length] in *.
    rewrite sum_cons, IH by lia. lia.
Qed.

(** Fractions of integers with positive denominators, compared by cross
    multiplication. *)
Lemma fraction_le (a b c d : Z) :
  0 < b -> 0 < d ->
  (inject_Z a / inject_Z b <= inject_Z c / inject_Z d)%Q <-> a * d <= c * b.
Proof.
  intros Hb Hd. destruct b as [|p|p]; try lia. destruct d as [|q|q]; try lia.
  unfold Qle, Qdiv, Qmult, Qinv, inject_Z. cbn [Qnum Qden].
  rewrite !Pos.mul_1_l. lia.
Qed.

Lemma fraction_eq (a b c d : Z) :
  0 < b -> 0 < d ->
  (inject_Z a / inject_Z b == inject_Z c / inject_Z d)%Q <-> a * d = c * b.
Proof.
  intros Hb Hd. destruct b as [|p|p]; try lia. destruct d as [|q|q]; try lia.
  unfold Qeq, Qdiv, Qmult, Qinv, inject_Z. cbn [Qnum Qden].
  rewrite !Pos.mul_1_l. lia.
Qed.

Lemma nth_map_seq {A : Type} (f : nat -> A) (start len k : nat) (d : A) :
  (k < len)%nat -> nth k (map f (seq start len)) d = f (start + k)%nat.
Proof.
  intro Hk. rewrite (nth_indep _ d (f 0%nat)) by now rewrite length_map, length_seq.
  rewrite map_nth, seq_nth by exact Hk. reflexivity.
Qed.

(** X17.  For totals that are not negative and not all zero, both
    dashboards plot the same ordinates; the ordinate of point [k]
    (counted from 0, abscissa [k/n]) is a number between 0 and 1 that
    does not fall from one point to the next, and it is at most
    [(k+1)/n], one step above the abscissa; for equal totals it is
    [(k+1)/n]. *)
Theorem lorenz_curve_shape (totals : list Z) :
  Forall (fun x => 0 <= x) totals ->
  0 < sum totals ->
  let n := List.length totals in
  let ys := snd (MyWcc.concentration_chart totals) in
  snd (fst (MultiCouncil.location_concentration totals)) = ys
  /\ forall k, (k < n)%nat ->
       exists y : Q,
         nth k ys NaN = Fin y
         /\ (0 <= y)%Q /\ (y <= 1)%Q
         /\ (y <= inject_Z (Z.of_nat k + 1) / inject_Z (Z.of_nat n))%Q
         /\ (forall y', nth (S k) ys NaN = Fin y' -> (y <= y')%Q)
         /\ (forall c, Forall (eq c) totals ->
             (y == inject_Z (Z.of_nat k + 1) / inject_Z (Z.of_nat n))%Q).
Proof.
  intros Hnn Hs. cbv zeta.
  rewrite concentration_chart_eq, location_concentration_eq. cbn [fst snd].
  split; [reflexivity|]. intros k Hk.
  set (x := sorted totals).
  assert (Hx : Forall (fun v => 0 <= v) x)
    by (eapply Permutation_Forall; [apply sorted_perm|exact Hnn]).
  assert (Hlen : List.length x = List.length totals) by apply sorted_length.
  assert (Hsum : sum x = sum totals) by apply sum_sorted.
  assert (Hn : 0 < Z.of_nat (List.length totals)) by lia.
  assert (Hdiv : forall a, np_div a (sum totals)
                           = Fin (Qred (inject_Z a / inject_Z (sum totals)))).
  { intro a. unfold np_div.
    now replace (sum totals =? 0) with false by (symmetry; apply Z.eqb_neq; lia). }
  rewrite nth_map_seq by exact Hk. rewrite Hdiv.
  eexists. split; [reflexivity|].
  pose proof (sum_firstn_le (1 + k) x Hx) as [Hlo Hhi]. rewrite Hsum in Hhi.
  split; [|split; [|split; [|split]]].
  - rewrite Qred_correct. apply Qle_shift_div_l.
    + change 0%Q with (inject_Z 0). rewrite <- Zlt_Qlt. exact Hs.
    + rewrite Qmult_0_l. change 0%Q with (inject_Z 0). now rewrite <- Zle_Qle.
  - rewrite Qred_correct. apply Qle_shift_div_r.
    + change 0%Q with (inject_Z 0). rewrite <- Zlt_Qlt. exact Hs.
    + rewrite Qmult_1_l. now rewrite <- Zle_Qle.
  - rewrite Qred_correct. apply (proj2 (fraction_le _ _ _ _ Hs Hn)).
    pose proof (ascending_prefix_share x (1 + k) (sorted_sorted totals)
                  ltac:(rewrite Hlen; lia)) as H.
    rewrite Hlen, Hsum in H. lia.
  - intros y' Hy'.
    destruct (Nat.lt_ge_cases (S k) (List.length totals)) as [Hk'|Hk'].
    + rewrite nth_map_seq in Hy' by exact Hk'. rewrite Hdiv in Hy'.
      assert (Ey : y' = Qred (inject_Z (sum (firstn (1 + S k) x))
                              / inject_Z (sum totals))) by congruence.
      rewrite Ey, !Qred_correct.
      apply (proj2 (fraction_le _ _ _ _ Hs Hs)).
      pose proof (sum_firstn_step (1 + k) x Hx).
      change (1 + S k)%nat with (S (1 + k)). nia.
    + rewrite nth_overflow in Hy' by (now rewrite length_map, length_seq).
      discriminate.
  - intros c Hc. rewrite Qred_correct. apply (proj2 (fraction_eq _ _ _ _ Hs Hn)).
    assert (Hcx : Forall (eq c) x)
      by (eapply Permutation_Forall; [apply sorted_perm|exact Hc]).
    rewrite (constant_prefix_sum c x (1 + k) Hcx) by (rewrite Hlen; lia).
    rewrite <- Hsum, <- (firstn_all x) at 1.
    rewrite (constant_prefix_sum c x (List.length x) Hcx) by lia.
    rewrite Hlen. lia.
Qed.

Lemma lorenz_curve_shape_witness :
  snd (fst (MultiCouncil.location_concentration [5; 5]))
  = snd (MyWcc.concentration_chart [5; 5])
  /\ forall k, (k < 2)%nat ->
    exists y : Q,
      nth k (snd (MyWcc.concentration_chart [5; 5])) NaN = Fin y
      /\ (0 <= y)%Q /\ (y <= 1)%Q
      /\ (y <= inject_Z (Z.of_nat k + 1) / inject_Z 2)%Q
      /\ (forall y', nth (S k) (snd (MyWcc.concentration_chart [5; 5])) NaN = Fin y' ->
          (y <= y')%Q)
      /\ (forall c, Forall (eq c) [5; 5] ->
          (y == inject_Z (Z.of_nat k + 1) / inject_Z 2)%Q).
Proof.
  apply (lorenz_curve_shape [5; 5]).
  - repeat constructor; lia.
  - reflexivity.
Defined.

End LorenzShape.

(** ** The range of the diversity percentage *)
Section ShannonRange.
Import Py MultiCouncil Design.
Open Scope R_scope.

Lemma ln_monotone (x y : R) : 0 < x -> x <= y -> ln x <= ln y.
Proof.
  intros Hx Hxy. destruct (Rle_lt_or_eq_dec x y Hxy) as [H| ->]; [|lra].
  left. now apply ln_increasing.
Qed.

Lemma ln_le_sub_1 (x : R) : 0 < x -> ln x <= x - 1.
Proof.
  intro Hx. rewrite <- (ln_exp (x - 1)).
  apply ln_monotone; [exact Hx|]. pose proof (exp_ineq1_le (x - 1)). lra.
Qed.

Lemma eps_pos : 0 < 1 / 10 ^ 10.
Proof. apply Rdiv_lt_0_compat; [lra|apply pow_lt; lra]. Qed.

Lemma entropy_term_upper (p n : R) :
  0 <= p -> 0 < n -> - (p * ln (p + 1 / 10 ^ 10)) < p * ln n + (/ n - p).
Proof.
  intros Hp Hn. pose proof eps_pos as He.
  assert (Hin : 0 < / n) by now apply Rinv_0_lt_compat.
  destruct (Rle_lt_or_eq_dec 0 p Hp) as [Hpos| <-].
  - assert (H1 : ln p < ln (p + 1 / 10 ^ 10)) by (apply ln_increasing; lra).
    assert (H2 : ln (/ (n * p)) <= / (n * p) - 1).
    { apply ln_le_sub_1. apply Rinv_0_lt_compat. nra. }
    rewrite ln_Rinv, ln_mult in H2 by nra.
    assert (H3 : p * / (n * p) = / n) by (field; lra).
    assert (H4 : p * (- (ln n + ln p)) <= p * (/ (n * p) - 1)) by nra.
    nra.
  - lra.
Qed.

Lemma entropy_term_lower (p : R) :
  0 <= p <= 1 -> - (p * ln (1 + 1 / 10 ^ 10)) <= - (p * ln (p + 1 / 10 ^ 10)).
Proof.
  intros [Hp0 Hp1]. pose proof eps_pos as He.
  assert (H : ln (p + 1 / 10 ^ 10) <= ln (1 + 1 / 10 ^ 10)) by (apply ln_monotone; lra).
  nra.
Qed.

Lemma entropy_upper (n : R) (ps : list R) :
  0 < n -> Forall (fun p => 0 <= p) ps -> ps <> [] ->
  - fold_right Rplus 0 (map (fun p => p * ln (p + 1 / 10 ^ 10)) ps)
  < ln n * fold_right Rplus 0 ps + INR (List.length ps) * / n
    - fold_right Rplus 0 ps.
Proof.
  intros Hn Hps Hne. induction Hps as [|p ps Hp Hps IH]; [congruence|].
  pose proof (entropy_term_upper p n Hp Hn) as Ht.
  destruct ps as [|q ps].
  - cbn [map fold_right List.length INR]. lra.
  - specialize (IH ltac:(discriminate)).
    change (List.length (p :: q :: ps)) with (S (List.length (q :: ps))).
    rewrite S_INR. cbn [map fold_right] in *. lra.
Qed.

Lemma entropy_lower (ps : list R) :
  Forall (fun p => 0 <= p <= 1) ps ->
  - (ln (1 + 1 / 10 ^ 10) * fold_right Rplus 0 ps)
  <= - fold_right Rplus 0 (map (fun p => p * ln (p + 1 / 10 ^ 10)) ps).
Proof.
  induction 1 as [|p ps Hp Hps IH]; cbn [map fold_right]; [lra|].
  pose proof (entropy_term_lower p Hp). lra.
Qed.

Lemma shares_sum (counts : list N) (total : R) :
  total <> 0 ->
  fold_right Rplus 0 (map (fun c => IZR (Z.of_N c) / total) counts)
  = IZR (sum (map Z.of_N counts)) / total.
Proof.
  intro Ht. induction counts as [|c counts IH]; cbn [map fold_right].
  - rewrite sum_nil. lra.
  - rewrite sum_cons, plus_IZR, IH. field. exact Ht.
Qed.

Lemma ln_2_gt_half : / 2 < ln 2.
Proof.
  rewrite <- (ln_exp (/ 2)). apply ln_increasing; [apply exp_pos|].
  pose proof (exp_pos (/ 2)). pose proof exp_le_3 as H3.
  replace 1 with (/ 2 + / 2) in H3 by lra. rewrite exp_plus in H3. nra.
Qed.

Lemma count_le_total (counts : list N) (c : N) :
  In c counts -> (Z.of_N c <= sum (map Z.of_N counts))%Z.
Proof.
  induction counts as [|x counts IH]; [contradiction|].
  cbn [map]. rewrite sum_cons.
  assert (0 <= sum (map Z.of_N counts))%Z.
  { apply sum_nonneg, Forall_forall. intros z Hz.
    apply in_map_iff in Hz. destruct Hz as [y [<- _]]. lia. }
  intros [->|H']; [lia|]. specialize (IH H'). lia.
Qed.

Lemma diversity_index_no_staff (job_counts : list N) :
  sum (map Z.of_N job_counts) = 0%Z -> diversity_index job_counts = 0.
Proof.
  intro Hs. unfold diversity_index, job_probs. rewrite Hs. clear Hs.
  rewrite map_map. cbn [Z.eqb].
  induction job_counts as [|c l IH]; cbn [map fold_right]; lra.
Qed.

(** X18.  Whatever the counts, the diversity percentage of [job_stats]
    stays strictly below 100 and above [-2e-8]: the index is below
    [ln n] because of the term [1e-10] inside the logarithm, and it can
    only be negative by less than that term. *)
Theorem diversity_pct_range (job_counts : list N) :
  - (2 / 10 ^ 8) < diversity_pct job_counts < 100.
Proof.
  assert (H8 : 0 < 2 / 10 ^ 8) by (apply Rdiv_lt_0_compat; [lra|apply pow_lt; lra]).
  destruct (le_lt_dec (List.length job_counts) 1) as [Hfew|Hmany].
  { rewrite diversity_pct_few by exact Hfew. lra. }
  destruct (diversity_pct_many job_counts Hmany) as [_ ->].
  pose proof (ln_count_pos _ Hmany) as Hln.
  destruct (Z.eq_dec (sum (map Z.of_N job_counts)) 0) as [Hz|Hnz].
  { rewrite diversity_index_no_staff by exact Hz.
    unfold Rdiv. rewrite !Rmult_0_l. lra. }
  rewrite diversity_index_formula by exact Hnz. unfold shannon_formula.
  set (total := sum (map Z.of_N job_counts)) in *.
  assert (Htotal : (0 < total)%Z).
  { assert (0 <= total)%Z; [|lia].
    apply sum_nonneg, Forall_forall. intros z Hz.
    apply in_map_iff in Hz. destruct Hz as [y [<- _]]. lia. }
  assert (Ht : 0 < IZR total) by now apply IZR_lt.
  set (ps := map (fun x_i => IZR (Z.of_N x_i) / IZR total) job_counts).
  assert (Hps : Forall (fun p => 0 <= p <= 1) ps).
  { apply Forall_forall. intros p Hp. apply in_map_iff in Hp.
    destruct Hp as [c [<- Hc]].
    pose proof (count_le_total job_counts c Hc) as Hle. fold total in Hle.
    apply IZR_le in Hle. assert (0 <= IZR (Z.of_N c)) by (apply IZR_le; lia).
    split.
    - apply Rmult_le_pos; [assumption|]. left. now apply Rinv_0_lt_compat.
    - apply Rmult_le_reg_r with (IZR total); [exact Ht|].
      unfold Rdiv. rewrite Rmult_assoc, Rinv_l by lra. lra. }
  assert (Hsum : fold_right Rplus 0 ps = 1).
  { unfold ps. rewrite shares_sum by lra. fold total. field. lra. }
  assert (Hlen : List.length ps = List.length job_counts) by apply length_map.
  assert (Hn : 0 < INR (List.length job_counts)) by (apply lt_0_INR; lia).
  pose proof (entropy_upper (INR (List.length job_counts)) ps Hn) as Hup.
  rewrite Hsum, Hlen in Hup.
  assert (Hup' : - fold_right Rplus 0 (map (fun p => p * ln (p + 1 / 10 ^ 10)) ps)
                 < ln (INR (List.length job_counts))).
  { replace (ln (INR (List.length job_counts)))
      with (ln (INR (List.length job_counts)) * 1
            + INR (List.length job_counts) * / INR (List.length job_counts) - 1)
      by (field; lra).
    apply Hup.
    - eapply Forall_impl; [|exact Hps]. cbn. intros; lra.
    - destruct ps; [cbn in Hlen; lia|discriminate]. }
  pose proof (entropy_lower ps Hps) as Hlow. rewrite Hsum in Hlow.
  pose proof (ln_1_plus_lt (1 / 10 ^ 10) eps_pos) as Heps.
  set (H := - fold_right Rplus 0 (map (fun p => p * ln (p + 1 / 10 ^ 10)) ps)) in *.
  set (m := ln (INR (List.length job_counts))) in *.
  assert (Hm : / 2 < m).
  { pose proof ln_2_gt_half. unfold m.
    assert (ln 2 <= ln (INR (List.length job_counts))); [|lra].
    apply ln_monotone; [lra|]. change 2 with (INR 2). apply le_INR. lia. }
  assert (Hi : 0 < / m < 2).
  { split; [apply Rinv_0_lt_compat; lra|].
    replace 2 with (/ / 2) by field. apply Rinv_lt_contravar; [|lra].
    apply Rmult_lt_0_compat; lra. }
  assert (He : 1 / 10 ^ 10 * 200 = 2 / 10 ^ 8)
    by (field; split; apply pow_nonzero; lra).
  pose proof eps_pos as Hep.
  split.
  - unfold Rdiv at 2. 
    assert (- (1 / 10 ^ 10) * 2 < H * / m).
    { destruct (Rle_lt_dec 0 H) as [Hpos|Hneg].
      - assert (0 <= H * / m) by (apply Rmult_le_pos; lra). lra.
      - assert (- (1 / 10 ^ 10) < H) by lra. nra. }
    lra.
  - unfold Rdiv. assert (H * / m < 1); [|lra].
    apply Rmult_lt_reg_r with m; [lra|].
    rewrite Rmult_assoc, Rinv_l by lra. lra.
Qed.

(** One title holds all the staff: the percentage is negative. *)
Example diversity_pct_one_title_holds_all : diversity_pct [5; 0]%N < 0.
Proof.
  destruct (diversity_pct_many [5; 0]%N ltac:(cbn; lia)) as [_ ->].
  pose proof (ln_count_pos 2 ltac:(lia)) as Hln.
  change (INR (List.length [5; 0]%N)) with (INR 2).
  rewrite diversity_index_formula by (vm_compute; discriminate).
  unfold shannon_formula.
  replace (sum (map Z.of_N [5; 0]%N)) with 5%Z by reflexivity.
  cbn [map fold_right Z.of_N].
  replace (5 / 5) with 1 by lra. replace (0 / 5) with 0 by lra.
  assert (H : 0 < ln (1 + 1 / 10 ^ 10)).
  { rewrite <- ln_1. apply ln_increasing; [lra|]. pose proof eps_pos. lra. }
  assert (Hi : 0 < / ln (INR 2)) by now apply Rinv_0_lt_compat.
  unfold Rdiv at 1. nra.
Qed.

End ShannonRange.

(** ** The reverse table, read back *)
Section ReverseMapping.
Import Py MultiCouncil Design.
Open Scope string_scope.

Lemma last_source_in (d : dict string) (a b : string) :
  last_source d b = Some a -> In (a, b) d.
Proof.
  induction d as [|[a' b'] d IH]; cbn [last_source]; [discriminate|].
  destruct (last_source d b) as [a''|].
  - intros [= ->]. right. now apply IH.
  - destruct (String.eqb_spec b' b) as [->|_]; [|discriminate].
    intros [= ->]. now left.
Qed.

Lemma last_source_none (d : dict string) (b : string) :
  last_source d b = None <-> ~ In b (values d).
Proof.
  induction d as [|[a' b'] d IH]; cbn [last_source values map snd In]; [tauto|].
  fold (values d). destruct (last_source d b) as [a''|].
  - split; [discriminate|]. intro H. exfalso. apply H. right.
    apply Decidable.not_not; [|intro Hn; now apply IH in Hn].
    destruct (in_dec string_dec b (values d)); [now left|now right].
  - destruct (String.eqb_spec b' b) as [->|Hne].
    + split; [discriminate|]. intro H. exfalso. apply H. now left.
    + split; [|reflexivity]. intros _ [H|H]; [contradiction|].
      now apply (proj1 IH).
Qed.

Lemma dict_get_entry (d : dict string) (a b : string) :
  NoDup (keys d) -> In (a, b) d -> dict_get d a = Some b.
Proof.
  induction d as [|[a' b'] d IH]; [contradiction|].
  cbn [keys map fst dict_get]. intros Hd Hin. inversion Hd as [|? ? Ha Hd']; subst.
  destruct Hin as [[= -> ->]|Hin]; [now rewrite String.eqb_refl|].
  destruct (String.eqb_spec a a') as [->|_]; [|now apply IH].
  destruct Ha. unfold keys. apply in_map_iff. now exists (a', b).
Qed.

Lemma dict_get_key {V : Type} (d : dict V) (k : string) :
  In k (keys d) <-> dict_get d k <> None.
Proof.
  induction d as [|[k' v] d IH]; cbn [keys map fst In dict_get]; [tauto|].
  fold (keys d). destruct (String.eqb_spec k k') as [->|Hne].
  - split; [discriminate|]. intros _. now left.
  - rewrite <- IH. split; [intros [H|H]; [congruence|exact H]|]. now right.
Qed.

Lemma dict_set_keys_nodup {V : Type} (d : dict V) (k : string) (v : V) :
  NoDup (keys d) -> NoDup (keys (dict_set d k v)).
Proof.
  induction d as [|[k' v'] d IH]; cbn [dict_set keys map fst].
  - intros _. repeat constructor. intros [].
  - fold (keys d). intro Hd. inversion Hd as [|? ? Hk Hd']; subst.
    destruct (String.eqb_spec k k') as [->|Hne]; cbn [keys map fst];
      [exact Hd|].
    fold (keys (dict_set d k v)). constructor; [|now apply IH].
    rewrite dict_get_key, dict_get_set.
    destruct (String.eqb_spec k' k) as [E|_]; [congruence|].
    now rewrite <- dict_get_key.
Qed.

Lemma invert_keys_nodup (d : dict string) : NoDup (keys (invert d)).
Proof.
  unfold invert.
  assert (H : forall acc : dict string,
             NoDup (keys acc) ->
             NoDup (keys (fold_left (fun acc kv => dict_set acc (snd kv) (fst kv))
                                    d acc))).
  { induction d as [|kv d IH]; intros acc Hacc; cbn [fold_left]; [exact Hacc|].
    apply IH. now apply dict_set_keys_nodup. }
  apply H. constructor.
Qed.

(** X19.  For a table whose keys are distinct, the reverse table built
    by the dict comprehension has one entry for each value of the
    table, and every entry leads back: if the reverse table sends [b]
    to [a], the table sends [a] to [b]. *)
Theorem invert_leads_back (d : dict string) :
  NoDup (keys d) ->
  NoDup (keys (invert d))
  /\ (forall b, In b (keys (invert d)) <-> In b (values d))
  /\ (forall a b, dict_get (invert d) b = Some a -> dict_get d a = Some b).
Proof.
  intro Hd. split; [apply invert_keys_nodup|]. split.
  - intro b. rewrite dict_get_key, invert_last_wins.
    pose proof (last_source_none d b) as H.
    destruct (in_dec string_dec b (values d)) as [Hin|Hout].
    + split; [intros _; exact Hin|]. intros _ Hn. now apply H in Hn.
    + split; [|contradiction]. intro Hn. destruct Hn. now apply H.
  - intros a b. rewrite invert_last_wins. intro H.
    apply dict_get_entry; [exact Hd|]. now apply last_source_in.
Qed.

Lemma invert_leads_back_witness :
  NoDup (keys REVERSE_GROUP_MAPPINGS)
  /\ (forall b, In b (keys REVERSE_GROUP_MAPPINGS) <-> In b (values GROUP_MAPPINGS))
  /\ (forall a b, dict_get REVERSE_GROUP_MAPPINGS b = Some a ->
                  dict_get GROUP_MAPPINGS a = Some b).
Proof.
  apply (invert_leads_back GROUP_MAPPINGS).
  unfold keys, GROUP_MAPPINGS. cbn [map fst].
  repeat constructor; cbn [In]; intuition discriminate.
Defined.

End ReverseMapping.

(** ** The functional comparison and the column 'Council' *)
Section FunctionalComparison.
Import Py MultiCouncil.
Open Scope Z_scope.
Open Scope string_scope.

Lemma sum_absent_key (rows : list (option string * Z)) (g : string) :
  ~ In (Some g) (map fst rows) ->
  sum (map snd (filter (fun r => col_eq (fst r) g) rows)) = 0.
Proof.
  induction rows as [|[v z] rows IH]; [reflexivity|].
  cbn [map fst In filter]. intro Hnone. destruct (col_eq v g) eqn:Ev.
  - apply col_eq_true in Ev. subst v. destruct Hnone. now left.
  - apply IH. intro H. apply Hnone. now right.
Qed.

(** [groups.get(g, 0)] on the group totals of one council is the staff
    of its rows with group [g]. *)
Lemma council_groups_get (council g : string) (data : list unified_row) :
  dict_get_default (council_groups council data) g 0
  = sum (map u_StaffCount
           (filter (fun r => (Council r =? council) && col_eq (u_GroupName r) g)
                   data)).
Proof.
  unfold dict_get_default, council_groups. rewrite groupby_sum_get.
  assert (E : forall rows : list unified_row,
             sum (map snd (filter (fun r : option string * Z => col_eq (fst r) g)
                                  (map (fun r => (u_GroupName r, u_StaffCount r))
                                       (filter (fun r => Council r =? council) rows))))
             = sum (map u_StaffCount
                      (filter (fun r => (Council r =? council)
                                        && col_eq (u_GroupName r) g) rows))).
  { induction rows as [|r rows IH]; [reflexivity|]. cbn [filter].
    destruct (Council r =? council); cbn [andb map filter fst]; [|exact IH].
    destruct (col_eq (u_GroupName r) g); cbn [map snd]; rewrite ?sum_cons;
      now rewrite IH. }
  destruct (mem g _) eqn:Em; [apply E|].
  rewrite <- E. symmetry. apply sum_absent_key.
  intro Hin. apply in_group_keys, mem_In in Hin. congruence.
Qed.

Lemma filter_flat_map {A B : Type} (p : B -> bool) (g : A -> list B) (l : list A) :
  filter p (flat_map g l) = flat_map (fun x => filter p (g x)) l.
Proof.
  induction l as [|x l IH]; [reflexivity|].
  cbn [flat_map]. now rewrite filter_app, IH.
Qed.

Lemma flat_map_ext_in {A B : Type} (f g : A -> list B) (l : list A) :
  (forall x, In x l -> f x = g x) -> flat_map f l = flat_map g l.
Proof.
  induction l as [|x l IH]; intro H; [reflexivity|].
  cbn [flat_map]. rewrite (H x) by now left.
  rewrite IH; [reflexivity|]. intros y Hy. apply H. now right.
Qed.

Lemma map_flat_map {A B C : Type} (f : B -> C) (g : A -> list B) (l : list A) :
  map f (flat_map g l) = flat_map (fun x => map f (g x)) l.
Proof.
  induction l as [|x l IH]; [reflexivity|].
  cbn [flat_map]. now rewrite map_app, IH.
Qed.

(** X20.  [functional_comparison] reads the column 'Council' without
    asking for the comparison mode: with both files available and data
    loaded for one council only, it raises [KeyError], where
    [group_size_comparison] returns the empty figure. *)
Theorem functional_comparison_outside_comparison
    (council_select : string) (wcc_available hcc_available : bool)
    (staff_assignments : frame Tables.assignment)
    (business_units : frame Tables.business_unit)
    (business_groups : frame Tables.business_group)
    (job_titles : frame Tables.job_title)
    (pay_locations : frame Tables.pay_location)
    (hcc_data : result (frame hcc_row)) (data : merged) :
  council_select = "Wellington City Council"
  \/ council_select = "Hutt City Council" ->
  merged_data_by_council council_select wcc_available hcc_available
    staff_assignments business_units business_groups job_titles pay_locations
    hcc_data = Ok data ->
  merged_empty data = false ->
  functional_comparison true true data = Raise (KeyError "Council")
  /\ forall df, group_size_comparison council_select df = Ok None.
Proof.
  intros Hsel Hdata Hne.
  assert (Hkind : with_council data = Raise (KeyError "Council")).
  { unfold merged_data_by_council in Hdata. destruct Hsel as [-> | ->].
    - change ("Wellington City Council" =? "Wellington City Council") with true
        in Hdata. cbv iota in Hdata.
      destruct (merged_data _ _ _ _ _); cbn [bind] in Hdata; [|discriminate].
      now injection Hdata as <-.
    - change ("Hutt City Council" =? "Wellington City Council") with false
        in Hdata.
      change ("Hutt City Council" =? "Hutt City Council") with true in Hdata.
      cbv iota in Hdata.
      destruct hcc_data; cbn [bind] in Hdata; [|discriminate].
      now injection Hdata as <-. }
  split.
  - unfold functional_comparison. cbn [andb negb]. rewrite Hne.
    unfold GROUP_MAPPINGS. cbn [mapM fst snd].
    change ("Economic & Engagement" =? "No Direct Equivalent") with false.
    cbn [negb]. rewrite Hkind. reflexivity.
  - intro df. unfold group_size_comparison.
    destruct Hsel as [-> | ->]; reflexivity.
Qed.

Lemma functional_comparison_outside_comparison_witness :
  exists data,
    merged_data_by_council "Wellington City Council" true true
      (Frame Scenario.facts) (Frame Scenario.units) (Frame Scenario.groups)
      (Frame Scenario.titles) (Frame Scenario.locations) (Ok NoColumns)
    = Ok data
    /\ functional_comparison true true data = Raise (KeyError "Council")
    /\ forall df, group_size_comparison "Wellington City Council" df = Ok None.
Proof.
  eexists. split; [vm_compute; reflexivity|].
  eapply (functional_comparison_outside_comparison "Wellington City Council"
            true true (Frame Scenario.facts) (Frame Scenario.units)
            (Frame Scenario.groups) (Frame Scenario.titles)
            (Frame Scenario.locations) (Ok NoColumns)).
  - now left.
  - vm_compute. reflexivity.
  - reflexivity.
Defined.

(** X21.  In the comparison mode the 'Staff Count' rows of
    [functional_comparison] are the bars that [group_size_comparison]
    draws for the pairs of [GROUP_MAPPINGS], with the same numbers;
    [group_size_comparison] adds the WCC groups that no pair maps to,
    and where it raises for want of rows, [functional_comparison]
    returns the empty figure. *)
Theorem functional_comparison_staff_rows (df : frame unified_row) :
  empty df = false ->
  exists functional_data wcc_only,
    functional_comparison true true (Compare_data df)
    = Ok match functional_data with
         | [] => None
         | _ :: _ => Some functional_data
         end
    /\ group_size_comparison "Compare Councils" df
       = match
           (map (fun r => {| Function := f_Function r;
                             Wellington := f_Wellington r;
                             Hutt := f_Hutt r |})
                (filter (fun r => f_Metric r =? "Staff Count") functional_data)
            ++ wcc_only)%list
         with
         | [] => Raise (KeyError "Function")
         | comparison_data => Ok (Some comparison_data)
         end
    /\ Forall (fun r => Hutt r = 0
                        /\ mem (Function r) (values GROUP_MAPPINGS) = false)
              wcc_only
    /\ (functional_data = [] <->
        filter (fun r => f_Metric r =? "Staff Count") functional_data = []).
Proof.
  intro Hne.
  set (data := rows_of df).
  set (hcc_staff := fun g =>
         sum (map u_StaffCount
                (filter (fun r => (Council r =? "Hutt") && col_eq (u_GroupName r) g)
                        data))).
  set (wcc_staff := fun g =>
         sum (map u_StaffCount
                (filter (fun r => (Council r =? "Wellington")
                                  && col_eq (u_GroupName r) g) data))).
  set (rows_for := fun pair : string * string =>
         if negb (snd pair =? "No Direct Equivalent") then
           if (0 <? hcc_staff (fst pair))%Z || (0 <? wcc_staff (snd pair))%Z then
             [ {| f_Function := snd pair; f_Metric := "Staff Count";
                  f_Wellington := wcc_staff (snd pair);
                  f_Hutt := hcc_staff (fst pair) |};
               {| f_Function := snd pair; f_Metric := "Units/Divisions";
                  f_Wellington :=
                    Z.of_nat (nunique
                      (map u_UnitName
                         (filter (fun r => (Council r =? "Wellington")
                                           && col_eq (u_GroupName r) (snd pair))
                                 data)));
                  f_Hutt :=
                    Z.of_nat (nunique
                      (map u_UnitName
                         (filter (fun r => (Council r =? "Hutt")
                                           && col_eq (u_GroupName r) (fst pair))
                                 data))) |} ]
           else []
         else []).
  exists (flat_map rows_for GROUP_MAPPINGS).
  exists (flat_map
            (fun k => if negb (mem k (values GROUP_MAPPINGS))
                      then [ {| Function := k;
                                Wellington :=
                                  dict_get_default (council_groups "Wellington" data) k 0;
                                Hutt := 0 |} ]
                      else [])
            (keys (council_groups "Wellington" data))).
  split; [|split; [|split]].
  - unfold functional_comparison. cbn [andb negb merged_empty with_council].
    rewrite Hne. cbn [bind].
    rewrite (mapM_ok _ rows_for).
    + cbn [bind]. rewrite <- flat_map_concat_map.
      now destruct (flat_map rows_for GROUP_MAPPINGS).
    + intros pair _. unfold rows_for, hcc_staff, wcc_staff. fold data.
      destruct (negb (snd pair =? "No Direct Equivalent")); [|reflexivity].
      now destruct ((0 <? _)%Z || (0 <? _)%Z).
  - unfold group_size_comparison. rewrite Hne.
    change ("Compare Councils" =? "Compare Councils") with true. cbn [negb].
    fold data. rewrite filter_flat_map, map_flat_map.
    rewrite (flat_map_ext_in
               (fun pair : string * string =>
                  if (0 <? dict_get_default (council_groups "Hutt" data) (fst pair) 0)%Z
                     || (0 <? dict_get_default (council_groups "Wellington" data)
                                (snd pair) 0)%Z
                  then [ {| Function := snd pair;
                            Wellington :=
                              dict_get_default (council_groups "Wellington" data)
                                (snd pair) 0;
                            Hutt :=
                              dict_get_default (council_groups "Hutt" data)
                                (fst pair) 0 |} ]
                  else [])
               (fun pair =>
                  map (fun r => {| Function := f_Function r;
                                   Wellington := f_Wellington r;
                                   Hutt := f_Hutt r |})
                      (filter (fun r => f_Metric r =? "Staff Count")
                              (rows_for pair)))).
    + now destruct (_ ++ _)%list.
    + intros [a b] Hpair. rewrite !council_groups_get. unfold rows_for.
      cbn [fst snd]. fold (hcc_staff a) (wcc_staff b).
      assert (Hb : (b =? "No Direct Equivalent") = false).
      { unfold GROUP_MAPPINGS in Hpair. cbn [In] in Hpair.
        repeat (destruct Hpair as [[= <- <-]|Hpair]; [reflexivity|]).
        contradiction. }
      rewrite Hb. cbn [negb].
      now destruct ((0 <? hcc_staff a)%Z || (0 <? wcc_staff b)%Z).
  - apply Forall_forall. intros r Hr. apply in_flat_map in Hr.
    destruct Hr as [k [_ Hr]].
    destruct (mem k (values GROUP_MAPPINGS)) eqn:Em; cbn [negb] in Hr;
      [contradiction|].
    destruct Hr as [<-|[]]. cbn [Hutt Function]. now split.
  - split; [now intros ->|]. rewrite filter_flat_map.
    induction GROUP_MAPPINGS as [|pair l IH]; [reflexivity|].
    cbn [flat_map]. intro H. apply app_eq_nil in H. destruct H as [H1 H2].
    rewrite (IH H2), app_nil_r. revert H1. unfold rows_for.
    destruct (negb (snd pair =? "No Direct Equivalent")); [|reflexivity].
    destruct ((0 <? _)%Z || (0 <? _)%Z); [|reflexivity].
    cbn [filter f_Metric]. discriminate.
Qed.

Lemma functional_comparison_staff_rows_witness :
  exists functional_data wcc_only,
    functional_comparison true true (Compare_data (Frame Scenario.compared))
    = Ok match functional_data with
         | [] => None
         | _ :: _ => Some functional_data
         end
    /\ group_size_comparison "Compare Councils" (Frame Scenario.compared)
       = match
           (map (fun r => {| Function := f_Function r;
                             Wellington := f_Wellington r;
                             Hutt := f_Hutt r |})
                (filter (fun r => f_Metric r =? "Staff Count") functional_data)
            ++ wcc_only)%list
         with
         | [] => Raise (KeyError "Function")
         | comparison_data => Ok (Some comparison_data)
         end
    /\ Forall (fun r => Hutt r = 0
                        /\ mem (Function r) (values GROUP_MAPPINGS) = false)
              wcc_only
    /\ (functional_data = [] <->
        filter (fun r => f_Metric r =? "Staff Count") functional_data = []).
Proof.
  apply (functional_comparison_staff_rows (Frame Scenario.compared)).
  reflexivity.
Defined.

End FunctionalComparison.

(** ** The distribution of the span of control *)
Section SpanDistribution.
Import Py MultiCouncil.
Open Scope Z_scope.
Open Scope string_scope.

Lemma sum_own_value (w : Z -> Z) (x : Z) (ks : list Z) :
  NoDup ks ->
  sum (map (fun k => if Z.eq_dec x k then w k else 0) ks)
  = if existsb (Z.eqb x) ks then w x else 0.
Proof.
  induction 1 as [|k ks Hk Hnd IH]; [reflexivity|].
  cbn [map existsb]. rewrite sum_cons, IH.
  destruct (Z.eq_dec x k) as [->|Hne].
  - rewrite Z.eqb_refl. cbn [orb].
    destruct (existsb (Z.eqb k) ks) eqn:E; [|lia].
    apply existsb_exists in E. destruct E as [y [Hy E]].
    apply Z.eqb_eq in E. subst y. contradiction.
  - replace (x =? k)%Z with false by (symmetry; now apply Z.eqb_neq).
    cbn [orb]. lia.
Qed.

(** Weighted by [w], the occurrences of the distinct values [ks] in [l]
    add up to the weights of the elements of [l] that are in [ks]. *)
Lemma sum_of_occurrences (w : Z -> Z) (ks l : list Z) :
  NoDup ks ->
  sum (map (fun k => w k * Z.of_nat (count_occ Z.eq_dec l k)) ks)
  = sum (map (fun x => if existsb (Z.eqb x) ks then w x else 0) l).
Proof.
  intro Hnd. induction l as [|x l IH].
  - cbn [count_occ map]. rewrite sum_nil.
    rewrite (map_ext _ (fun _ => 0)) by (intro; cbn; lia). apply sum_map_zero.
  - cbn [map]. rewrite sum_cons, <- IH, <- (sum_own_value w x ks Hnd), <- sum_map_add.
    f_equal. apply map_ext. intro k. cbn [count_occ].
    destruct (Z.eq_dec x k); [rewrite Nat2Z.inj_succ|]; lia.
Qed.

Lemma histogram_totals (w : Z -> Z) (l : list Z) :
  sum (map (fun e => w (fst e) * snd e) (value_counts_sort_index l))
  = sum (map w l).
Proof.
  unfold value_counts_sort_index. rewrite map_map. cbn [fst snd].
  rewrite <- (sum_perm _ _ (Permutation_map _ (sorted_perm (nodup Z.eq_dec l)))).
  rewrite (sum_of_occurrences w) by apply NoDup_nodup.
  f_equal. apply map_ext_in. intros x Hx.
  replace (existsb (Z.eqb x) (nodup Z.eq_dec l)) with true; [reflexivity|].
  symmetry. apply existsb_exists. exists x. split; [|apply Z.eqb_refl].
  now apply nodup_In.
Qed.

Lemma ascending_nodup_strict (l : list Z) :
  StronglySorted Z.le l -> NoDup l -> StronglySorted Z.lt l.
Proof.
  induction 1 as [|a l Hs IH Ha]; intro Hnd; constructor;
    inversion Hnd as [|? ? Hnotin Hnd']; subst; [now apply IH|].
  apply Forall_forall. intros x Hx. rewrite Forall_forall in Ha.
  specialize (Ha x Hx). assert (a <> x) by (intros ->; contradiction). lia.
Qed.

Lemma groupby_size_positive (column : list (option string)) :
  Forall (Z.le 1) (values (groupby_size column)).
Proof.
  apply Forall_forall. intros c Hc. unfold values in Hc.
  apply in_map_iff in Hc. destruct Hc as [[k c'] [E H]]. cbn [snd] in E. subst c'.
  apply groupby_size_spec in H. destruct H as [Hin ->].
  assert (Hf : In (Some k) (filter (fun v => col_eq v k) column)).
  { apply filter_In. split; [exact Hin|]. now apply col_eq_true. }
  destruct (filter (fun v => col_eq v k) column); [contradiction|].
  cbn [List.length]. lia.
Qed.

Lemma in_unique (l : list string) (x : string) : In x (unique l) <-> In x l.
Proof.
  induction l as [|y l IH]; [reflexivity|].
  cbn [unique In]. rewrite filter_In, IH.
  destruct (String.eqb_spec x y) as [->|Hne]; cbn [negb].
  - split; intros _; now left.
  - intuition.
Qed.

Lemma unique_nodup (l : list string) : NoDup (unique l).
Proof.
  induction l as [|y l IH]; cbn [unique]; constructor.
  - intro H. apply filter_In in H. destruct H as [_ H].
    rewrite String.eqb_refl in H. discriminate.
  - now apply NoDup_filter.
Qed.

(** [value_counts] has the entries of [groupby(column).size()], in
    another order. *)
Lemma value_counts_perm (column : list (option string)) :
  Permutation (groupby_size column) (value_counts column).
Proof.
  unfold value_counts.
  eapply perm_trans; [|apply sort_by_perm].
  unfold groupby_size, groupby_sum. rewrite map_map. cbn [fst]. rewrite map_id.
  rewrite (map_ext _ _ (fun k => f_equal (pair k) (size_of_group column k))).
  apply Permutation_map, NoDup_Permutation;
    [apply group_keys_nodup|apply unique_nodup|].
  intro k. now rewrite in_group_keys, in_unique, in_dropna.
Qed.

(** X22.  The bars of [span_of_control] account for every reporting
    line: the numbers of direct reports are at least 1 and strictly
    rising along the axis, the numbers of managers add up to the number
    of distinct manager titles, and reports times managers, summed over
    the bars, is the number of positions that name a manager; the
    average line is at that number over the number of manager titles.
    [reporting_structure] shows the first 15 entries of the same table
    of managers when a position names a manager, and raises ValueError
    when none does. *)
Theorem span_distribution_accounts (hcc_data : frame hcc_row) :
  empty hcc_data = false ->
  let column :=
    map (fun r => pos_Manager_Job_Title (row_position r)) (rows_of hcc_data) in
  let reports := Z.of_nat (List.length (dropna column)) in
  let managers := Z.of_nat (nunique column) in
  exists span_distribution avg_span,
    span_of_control "Hutt City Council" hcc_data
    = Some (span_distribution, avg_span)
    /\ sum (map (fun e => fst e * snd e) span_distribution) = reports
    /\ sum (map snd span_distribution) = managers
    /\ StronglySorted Z.lt (map fst span_distribution)
    /\ Forall (fun e => 1 <= fst e /\ 1 <= snd e) span_distribution
    /\ avg_span = np_div reports managers
    /\ match reporting_structure "Hutt City Council" hcc_data with
       | Ok (Some bars) =>
           0 < reports
           /\ bars = firstn 15 (value_counts column)
           /\ List.length bars = Nat.min 15 (nunique column)
           /\ sum (values bars) <= reports
       | Ok None => False
       | Raise e => e = ValueError /\ reports = 0
       end.
Proof.
  intro Hne. cbv zeta.
  set (column := map (fun r => pos_Manager_Job_Title (row_position r))
                     (rows_of hcc_data)).
  set (counts := values (value_counts column)).
  assert (Hperm : Permutation (values (groupby_size column)) counts).
  { unfold counts, values. apply Permutation_map, value_counts_perm. }
  assert (Hsum : sum counts = Z.of_nat (List.length (dropna column))).
  { rewrite <- (sum_perm _ _ Hperm). apply groupby_size_total. }
  assert (Hlen : List.length (value_counts column) = nunique column).
  { rewrite <- (Permutation_length (value_counts_perm column)).
    unfold groupby_size, groupby_sum. rewrite length_map, map_map. cbn [fst].
    rewrite map_id. unfold group_keys, nunique.
    symmetry. apply Permutation_length, sort_by_perm. }
  assert (Hpos : Forall (Z.le 1) counts).
  { eapply Permutation_Forall; [exact Hperm|apply groupby_size_positive]. }
  exists (value_counts_sort_index counts).
  exists (np_div (sum counts) (Z.of_nat (List.length (value_counts column)))).
  split.
  { unfold span_of_control. rewrite Hne.
    change ("Hutt City Council" =? "Hutt City Council") with true. reflexivity. }
  split.
  { rewrite (histogram_totals (fun v => v)), map_id. exact Hsum. }
  split.
  { rewrite <- Hlen.
    rewrite (map_ext snd (fun e : Z * Z => (fun _ => 1) (fst e) * snd e))
      by (intro e; lia).
    rewrite (histogram_totals (fun _ => 1)).
    replace (List.length (value_counts column)) with (List.length counts)
      by (unfold counts, values; apply length_map).
    generalize counts. intro l.
    induction l as [|x l IH]; [reflexivity|].
    cbn [map List.length]. rewrite sum_cons, IH. lia. }
  split.
  { unfold value_counts_sort_index. rewrite map_map. cbn [fst]. rewrite map_id.
    apply ascending_nodup_strict; [apply sorted_sorted|].
    eapply Permutation_NoDup; [apply sorted_perm|apply NoDup_nodup]. }
  split.
  { apply Forall_forall. intros e He. unfold value_counts_sort_index in He.
    apply in_map_iff in He. destruct He as [v [<- Hv]]. cbn [fst snd].
    apply (Permutation_in _ (Permutation_sym (sorted_perm _))) in Hv.
    apply nodup_In in Hv. rewrite Forall_forall in Hpos. split; [now apply Hpos|].
    apply (count_occ_In Z.eq_dec) in Hv. lia. }
  split; [now rewrite Hsum, Hlen|].
  unfold reporting_structure. rewrite Hne.
  change (negb ("Hutt City Council" =? "Hutt City Council")) with false.
  cbv iota zeta. fold column.
  assert (Hle : sum (values (firstn 15 (value_counts column)))
                <= Z.of_nat (List.length (dropna column))).
  { unfold values. rewrite <- firstn_map. fold (values (value_counts column)).
    fold counts. rewrite <- Hsum. apply sum_firstn_le.
    eapply Forall_impl; [|exact Hpos]. cbn. intros; lia. }
  assert (Hfirst : List.length (firstn 15 (value_counts column))
                   = Nat.min 15 (nunique column))
    by now rewrite length_firstn, Hlen.
  destruct (firstn 15 (value_counts column)) as [|bar bars] eqn:E.
  - split; [reflexivity|].
    assert (Hnone : value_counts column = []).
    { destruct (value_counts column); [reflexivity|discriminate]. }
    rewrite <- Hsum. unfold counts. now rewrite Hnone.
  - split; [|split; [reflexivity|split; [exact Hfirst|exact Hle]]].
    assert (Hbar : 1 <= snd bar).
    { rewrite Forall_forall in Hpos. apply Hpos. unfold counts, values.
      apply in_map, (in_firstn 15). rewrite E. now left. }
    assert (Hrest : 0 <= sum (values bars)).
    { apply sum_nonneg. apply Forall_forall. intros c Hc.
      rewrite Forall_forall in Hpos.
      assert (1 <= c); [|lia]. apply Hpos. unfold counts, values.
      unfold values in Hc. apply in_map_iff in Hc. destruct Hc as [e [<- He]].
      apply in_map, (in_firstn 15). rewrite E. now right. }
    cbn [values map] in Hle. rewrite sum_cons in Hle.
    fold (values bars) in Hle. lia.
Qed.

Lemma span_distribution_accounts_witness :
  exists span_distribution avg_span,
    span_of_control "Hutt City Council"
      match hcc_data "Hutt City Council" true (Some Scenario.hcc_positions) with
      | Ok df => df
      | Raise _ => NoColumns
      end
    = Some (span_distribution, avg_span)
    /\ sum (map (fun e => fst e * snd e) span_distribution) = 1
    /\ sum (map snd span_distribution) = 1
    /\ StronglySorted Z.lt (map fst span_distribution)
    /\ Forall (fun e => 1 <= fst e /\ 1 <= snd e) span_distribution
    /\ avg_span = np_div 1 1
    /\ match
         reporting_structure "Hutt City Council"
           match hcc_data "Hutt City Council" true (Some Scenario.hcc_positions) with
           | Ok df => df
           | Raise _ => NoColumns
           end
       with
       | Ok (Some bars) =>
           0 < 1
           /\ bars = [("Head of Libraries", 1)]
           /\ List.length bars = 1%nat
           /\ sum (values bars) <= 1
       | Ok None => False
       | Raise e => e = ValueError /\ 1 = 0
       end.
Proof.
  apply (span_distribution_accounts
           match hcc_data "Hutt City Council" true (Some Scenario.hcc_positions) with
           | Ok df => df
           | Raise _ => NoColumns
           end).
  reflexivity.
Defined.

(** With one position, which names no manager, the chart of the span of
    control is empty with its average at [nan], and
    [reporting_structure] raises. *)
Example reporting_structure_no_manager :
  let positions :=
    [ {| pos_Job_Title := Some "Chief Executive";
         pos_Group := Some "Office of the Chief Executive";
         pos_Division := None;
         pos_Manager_Job_Title := None |} ] in
  exists data,
    hcc_data "Hutt City Council" true (Some positions) = Ok data
    /\ empty data = false
    /\ span_of_control "Hutt City Council" data = Some ([], NaN)
    /\ reporting_structure "Hutt City Council" data = Raise ValueError.
Proof. cbv zeta. eexists. split; [reflexivity|]. repeat split; reflexivity. Qed.

(** Equal counts stay in the order of first appearance. *)
Example value_counts_first_appearance :
  value_counts [Some "b"; None; Some "a"; Some "c"; Some "c"; Some "b"; Some "a"]
  = [("b", 2); ("a", 2); ("c", 2)].
Proof. reflexivity. Qed.

End SpanDistribution.
